(** * Deposit monitor: a shallow embedding of the watchers, the address
      directory and the dispatcher, with the properties of the specification.

    Conventions of the embedding.
    - A JavaScript [Set] of transaction hashes is a [gset string]; only
      [has], [add] and [size] are used by the program.
    - Numbers that the program divides ([/ 100000000], [/ 1e18],
      [/ Math.pow(10, decimals)]) are exact rationals [Q]: the formula is
      modelled, the rounding of IEEE doubles is not.
    - An instant ([Date]) is its time value, a number of milliseconds in
      [Z]; a [Date] outside the range of time values, or built from a
      missing field, is invalid, and [toISOString] raises a [RangeError] on
      it.  The ISO-8601 rendering itself is left out.
    - An [async] function is split at its [await]: the awaited provider
      answer is an argument of the function, everything after the [await]
      runs to completion and is a pure function of that answer and of the
      module state it reads.  No loop of the program contains an [await]
      between the test [processedTxs.has] and [processedTxs.add].
    - Payloads (of the providers and of the identity authority) are records
      with the members the program reads.  A member the program guards
      ([a && ...], [a || d], [a?.b]) and a member whose absence makes the
      program raise ([a.b] or [a.m()] on an absent [a]) is an [option]:
      [None] is [undefined].  Members that are only compared or copied are
      plain values.
    - Exceptions are completions ([Js.Completion]): they leave a loop where
      they are raised and end in the [catch] of the enclosing [try], as in
      the source. *)

From Stdlib Require Import ZArith QArith String Ascii List Bool Lia.
From stdpp Require Import base gmap sets strings list.
Import ListNotations.

Local Open Scope string_scope.
Local Open Scope list_scope.

(** ** JavaScript values and operators used by the program *)
Module Js.

(** [String.prototype.toLowerCase] on the ASCII range. *)
Definition ascii_toLowerCase (c : ascii) : ascii :=
  let n := nat_of_ascii c in
  if andb (Nat.leb 65 n) (Nat.leb n 90) then ascii_of_nat (n + 32) else c.

Fixpoint toLowerCase (s : string) : string :=
  match s with
  | EmptyString => EmptyString
  | String c r => String (ascii_toLowerCase c) (toLowerCase r)
  end.

(** [Array.prototype.includes] on an array of strings. *)
Definition includes (l : list string) (x : string) : bool :=
  existsb (String.eqb x) l.

(** Truthiness of a string, and of a value that is a string or [null]
    (or [undefined]). *)
Definition truthy_string (s : string) : bool :=
  match s with EmptyString => false | _ => true end.

Definition truthy (v : option string) : bool :=
  match v with Some s => truthy_string s | None => false end.

(** [a || d] for a string or [undefined]. *)
Definition or_string (v : option string) (d : string) : string :=
  match v with
  | Some s => if truthy_string s then s else d
  | None => d
  end.

(** [a || d] for a number or [undefined]: [0] is falsy. *)
Definition or_number (v : option Z) (d : Z) : Z :=
  match v with
  | Some n => if Z.eqb n 0 then d else n
  | None => d
  end.

(** [a * b] where [b] is a number or [null]: [null] converts to [0]. *)
Definition mul_nullable (a : Q) (b : option Q) : Q :=
  match b with
  | Some p => (a * p)%Q
  | None => (a * 0)%Q
  end.

(** [Math.pow(10, d)] for an integer [d]. *)
Definition pow10 (d : Z) : Q := Qpower (10 # 1) d.

(** Abrupt completions that the program's [try]/[catch] blocks meet. *)
Inductive Error : Type :=
| ReferenceError (identifier : string)
| TypeError
| RangeError.

Inductive Completion (A : Type) : Type :=
| Normal (a : A)
| Throw (e : Error).
Arguments Normal {A} a.
Arguments Throw {A} e.

(** [new Date(v)] for a number of milliseconds or [undefined]: the time
    value, or none when the date is invalid ([undefined], or a number
    beyond 8.64e15 in absolute value). *)
Definition maxTime : Z := 8640000000000000.

Definition Date (v : option Z) : option Z :=
  match v with
  | Some ms => if Z.leb (Z.abs ms) maxTime then Some ms else None
  | None => None
  end.

(** [date.toISOString()]: a [RangeError] on an invalid date. *)
Definition toISOString (date : option Z) : Completion Z :=
  match date with
  | Some ms => Normal ms
  | None => Throw RangeError
  end.

(** The answer of an [await axios.get(...)] or [axios.post(...)]: the
    promise rejects, or it resolves with [response.data]. *)
Inductive Http (A : Type) : Type :=
| Rejected
| Resolved (data : A).
Arguments Rejected {A}.
Arguments Resolved {A} data.

End Js.

(** ** The canonical deposit object every watcher builds *)
Record Deposit : Type := mkDeposit {
userId : string;
type : string;
asset : string;
network : string;
amount : Q;
txHash : string;
from : string;
to : string;
timestamp : Z;
confirmations : Z
}.

(** ** Where the [for] loop of a polling [checkAddress] stands when it is
       left: the local array [deposits], the module's set [processedTxs],
       and the exception that left the loop, if one did *)
Record Pass : Type := mkPass {
pushed : list Deposit;
marked : gset string;
raised : option Js.Error
}.

(** The loop ran to its end. *)
Definition finished (deposits : list Deposit) (processedTxs : gset string)
  : Pass :=
  {| pushed := deposits; marked := processedTxs; raised := None |}.

(** An exception leaves the loop: what was added to the set stays. *)
Definition raise (deposits : list Deposit) (processedTxs : gset string)
    (e : Js.Error) : Pass :=
  {| pushed := deposits; marked := processedTxs; raised := Some e |}.

(** [try { ...; return deposits; } catch (error) { return []; }] around the
    loop: the result of [checkAddress] and the set afterwards. *)
Definition returned (pass : Pass) : list Deposit * gset string :=
  match raised pass with
  | Some _ => ([], marked pass)
  | None => (pushed pass, marked pass)
  end.

(** ** addressService.js *)
Module AddressService.

(** [state.addresses]: each list is an array, or [undefined] once a refresh
    assigned a payload without it. *)
Record Addresses : Type := mkAddresses {
  bep20 : option (list string);
  trc20 : option (list string);
  btc : option (list string)
}.

Record WalletAddresses : Type := mkWalletAddresses {
  w_bep20 : option string;
  w_trc20 : option string;
  w_btc : option string
}.

Record Wallet : Type := mkWallet {
  w_userId : string;
  w_addresses : option WalletAddresses
}.

(** [const state = { addresses: {...}, addressDetails: [] }] *)
Record State : Type := mkState {
  addresses : Addresses;
  addressDetails : option (list Wallet)
}.

Definition initial : State :=
  {| addresses := {| bep20 := Some []; trc20 := Some []; btc := Some [] |};
     addressDetails := Some [] |}.

(** [response.data] of the identity authority. *)
Record Grouped : Type := mkGrouped {
  bep20Addresses : option (list string);
  trc20Addresses : option (list string);
  btcAddresses : option (list string)
}.

Record Payload : Type := mkPayload {
  grouped : option Grouped;
  detailed : option (list Wallet)
}.

(** [success] is the truthiness of [response.data.success].  A response
    without a body raises at [response.data.success] and ends in the
    [catch], as a rejected request does: [Js.Rejected] stands for both. *)
Record Body : Type := mkBody {
  success : bool;
  data : option Payload
}.

(** [fetchAddresses]: the result and the module state afterwards.
    - A body with [success] set and no [data], or no [data.grouped], raises a
      [TypeError] while the object for [state.addresses] is being built,
      before any assignment; the [catch] returns [false].
    - Otherwise both assignments are made.  The three log lines that follow
      read [state.addresses.bep20.length], [....trc20.length] and
      [....btc.length]: a list the payload did not carry raises a
      [TypeError] there, and the [catch] returns [false] with both
      structures already replaced. *)
Definition fetchAddresses (response : Js.Http Body) (state : State)
  : bool * State :=
  match response with
  | Js.Rejected => (false, state)
  | Js.Resolved body =>
      if negb (success body) then (false, state)
      else
        match data body with
        | None => (false, state)
        | Some d =>
            match grouped d with
            | None => (false, state)
            | Some g =>
                let state1 :=
                  {| addresses :=
                       {| bep20 := bep20Addresses g;
                          trc20 := trc20Addresses g;
                          btc := btcAddresses g |};
                     addressDetails := addressDetails state |} in
                let state2 :=
                  {| addresses := addresses state1;
                     addressDetails := detailed d |} in
                match bep20 (addresses state2), trc20 (addresses state2),
                      btc (addresses state2) with
                | Some _, Some _, Some _ => (true, state2)
                | _, _, _ => (false, state2)
                end
            end
        end
  end.

(** The failures of a refresh: the request fails, or the body's [success]
    flag is false. *)
Definition failed (response : Js.Http Body) : bool :=
  match response with
  | Js.Rejected => true
  | Js.Resolved body => negb (success body)
  end.

(** [getAddresses: () => state.addresses] *)
Definition getAddresses (state : State) : Addresses := addresses state.

(** The callback of [find] in [getUserIdForAddress]:
    [w.addresses.<network>.toLowerCase() === normalizedAddress].  A wallet
    without [addresses], or without an address on [network], raises a
    [TypeError]. *)
Definition lowered (a : option string) (normalizedAddress : string)
  : Js.Completion bool :=
  match a with
  | Some s => Js.Normal (String.eqb (Js.toLowerCase s) normalizedAddress)
  | None => Js.Throw Js.TypeError
  end.

Definition matches (normalizedAddress network : string) (w : Wallet)
  : Js.Completion bool :=
  if String.eqb network "bep20" then
    match w_addresses w with
    | Some a => lowered (w_bep20 a) normalizedAddress
    | None => Js.Throw Js.TypeError
    end
  else if String.eqb network "trc20" then
    match w_addresses w with
    | Some a => lowered (w_trc20 a) normalizedAddress
    | None => Js.Throw Js.TypeError
    end
  else if String.eqb network "btc" then
    match w_addresses w with
    | Some a => lowered (w_btc a) normalizedAddress
    | None => Js.Throw Js.TypeError
    end
  else Js.Normal false.

(** [Array.prototype.find] with that callback: the first wallet that
    matches; an exception of the callback ends the search. *)
Fixpoint find_wallet (normalizedAddress network : string) (wallets : list Wallet)
  : Js.Completion (option Wallet) :=
  match wallets with
  | [] => Js.Normal None
  | w :: rest =>
      match matches normalizedAddress network w with
      | Js.Throw e => Js.Throw e
      | Js.Normal true => Js.Normal (Some w)
      | Js.Normal false => find_wallet normalizedAddress network rest
      end
  end.

(** [getUserIdForAddress(address, network)]: the user of the first wallet
    whose address on [network] equals [address] up to case, or [null];
    [state.addressDetails.find] raises a [TypeError] when a refresh left
    [addressDetails] undefined. *)
Definition getUserIdForAddress (state : State) (address network : string)
  : Js.Completion (option string) :=
  let normalizedAddress := Js.toLowerCase address in
  match addressDetails state with
  | None => Js.Throw Js.TypeError
  | Some wallets =>
      match find_wallet normalizedAddress network wallets with
      | Js.Throw e => Js.Throw e
      | Js.Normal (Some wallet) => Js.Normal (Some (w_userId wallet))
      | Js.Normal None => Js.Normal None
      end
  end.

(** The lookup gives a user the program takes as an owner. *)
Definition owns (state : State) (address network u : string) : Prop :=
  getUserIdForAddress state address network = Js.Normal (Some u)
  ∧ Js.truthy_string u = true.

(** The lookup gives no such user: it returns [null] or a falsy id, or it
    raises. *)
Definition ownerless (state : State) (address network : string) : Prop :=
  ∀ u, getUserIdForAddress state address network = Js.Normal (Some u) →
       Js.truthy_string u = false.

End AddressService.

(** ** btcService.js as it stands under src/services: polling only *)
Module BtcService.

Record Output : Type := mkOutput {
  o_addresses : option (list string);
  o_value : Z
}.

Record Input : Type := mkInput {
  i_addresses : option (list string)
}.

(** [received] is the time value [new Date(tx.received)] is built from. *)
Record Tx : Type := mkTx {
  hash : string;
  outputs : option (list Output);
  inputs : option (list Input);
  received : option Z;
  tx_confirmations : option Z
}.

(** [output.addresses && output.addresses.includes(address)] *)
Definition paysTo (address : string) (output : Output) : bool :=
  match o_addresses output with
  | Some l => Js.includes l address
  | None => false
  end.

(** [receivedOutputs.reduce((sum, output) => sum + output.value, 0)] *)
Definition totalReceived (receivedOutputs : list Output) : Z :=
  fold_left (fun sum output => (sum + o_value output)%Z) receivedOutputs 0%Z.

(** [tx.inputs[0]?.addresses?.[0] || 'unknown'], for [tx.inputs] present. *)
Definition firstInputAddress (inputs : list Input) : string :=
  Js.or_string
    match inputs with
    | i :: _ => match i_addresses i with Some (a :: _) => Some a | _ => None end
    | [] => None
    end
    "unknown".

Definition satoshisPerBtc : Q := 100000000 # 1.

(** The body of [for (const tx of transactions)]; [deposits] is the local
    array, [processedTxs] the module's set.  The loop raises at
    [tx.outputs.filter] when [outputs] is missing, inside
    [getUserIdForAddress], at [new Date(tx.received).toISOString()] in the
    log line when the date is invalid, and at [tx.inputs[0]] when [inputs]
    is missing. *)
Fixpoint loop (state : AddressService.State) (address : string)
    (transactions : list Tx) (deposits : list Deposit)
    (processedTxs : gset string) : Pass :=
  match transactions with
  | [] => finished deposits processedTxs
  | tx :: rest =>
      if decide (hash tx ∈ processedTxs) then
        loop state address rest deposits processedTxs
      else
        match outputs tx with
        | None => raise deposits processedTxs Js.TypeError
        | Some outs =>
            let receivedOutputs := List.filter (paysTo address) outs in
            if Nat.eqb (List.length receivedOutputs) 0 then
              loop state address rest deposits processedTxs
            else
              let amountBtc :=
                (inject_Z (totalReceived receivedOutputs) / satoshisPerBtc)%Q in
              match AddressService.getUserIdForAddress state address "btc" with
              | Js.Throw e => raise deposits processedTxs e
              | Js.Normal None => loop state address rest deposits processedTxs
              | Js.Normal (Some u) =>
                  if Js.truthy_string u then
                    match Js.toISOString (Js.Date (received tx)) with
                    | Js.Throw e => raise deposits processedTxs e
                    | Js.Normal time =>
                        match inputs tx with
                        | None => raise deposits processedTxs Js.TypeError
                        | Some ins =>
                            let deposit :=
                              {| userId := u; type := "deposit"; asset := "btc";
                                 network := "btc"; amount := amountBtc;
                                 txHash := hash tx;
                                 from := firstInputAddress ins;
                                 to := address; timestamp := time;
                                 confirmations :=
                                   Js.or_number (tx_confirmations tx) 1 |} in
                            loop state address rest (deposits ++ [deposit])
                                 ({[hash tx]} ∪ processedTxs)
                        end
                    end
                  else loop state address rest deposits processedTxs
              end
        end
  end.

(** [checkAddress(address)] after [await axios.get]: [response] is
    [response.data.txs], absent when [data] or [txs] is missing. *)
Definition checkAddress (state : AddressService.State) (address : string)
    (response : Js.Http (option (list Tx))) (processedTxs : gset string)
  : list Deposit * gset string :=
  match response with
  | Js.Rejected => ([], processedTxs)
  | Js.Resolved None => ([], processedTxs)
  | Js.Resolved (Some transactions) =>
      returned (loop state address transactions [] processedTxs)
  end.

Definition getProcessedCount (processedTxs : gset string) : nat :=
  size processedTxs.

(** The filter of the loop besides the set and the owner: some output pays
    the address. *)
Definition eligible (address : string) (tx : Tx) : bool :=
  match outputs tx with
  | Some outs =>
      negb (Nat.eqb (List.length (List.filter (paysTo address) outs)) 0)
  | None => false
  end.

(** An answer that carries transactions. *)
Definition ok (transactions : list Tx) : Js.Http (option (list Tx)) :=
  Js.Resolved (Some transactions).

End BtcService.

(** ** btcService.js with the price lookup and the WebSocket channel
     (src/unnamed/part_000) *)
Module BtcServiceWs.

Import BtcService.

(** [getBtcPrice()]: the price, or [null] when the request fails. *)
Definition getBtcPrice (response : Js.Http Q) : option Q :=
  match response with
  | Js.Resolved usd => Some usd
  | Js.Rejected => None
  end.

Fixpoint loop (state : AddressService.State) (address : string)
    (btcPrice : option Q) (transactions : list Tx) (deposits : list Deposit)
    (processedTxs : gset string) : Pass :=
  match transactions with
  | [] => finished deposits processedTxs
  | tx :: rest =>
      if decide (hash tx ∈ processedTxs) then
        loop state address btcPrice rest deposits processedTxs
      else
        match outputs tx with
        | None => raise deposits processedTxs Js.TypeError
        | Some outs =>
            let receivedOutputs := List.filter (paysTo address) outs in
            if Nat.eqb (List.length receivedOutputs) 0 then
              loop state address btcPrice rest deposits processedTxs
            else
              let amountBt :=
                (inject_Z (totalReceived receivedOutputs) / satoshisPerBtc)%Q in
              let amountBtc := Js.mul_nullable amountBt btcPrice in
              match AddressService.getUserIdForAddress state address "btc" with
              | Js.Throw e => raise deposits processedTxs e
              | Js.Normal None =>
                  loop state address btcPrice rest deposits processedTxs
              | Js.Normal (Some u) =>
                  if Js.truthy_string u then
                    match Js.toISOString (Js.Date (received tx)) with
                    | Js.Throw e => raise deposits processedTxs e
                    | Js.Normal time =>
                        match inputs tx with
                        | None => raise deposits processedTxs Js.TypeError
                        | Some ins =>
                            let deposit :=
                              {| userId := u; type := "deposit"; asset := "btc";
                                 network := "btc"; amount := amountBtc;
                                 txHash := hash tx;
                                 from := firstInputAddress ins;
                                 to := address; timestamp := time;
                                 confirmations :=
                                   Js.or_number (tx_confirmations tx) 1 |} in
                            loop state address btcPrice rest
                                 (deposits ++ [deposit])
                                 ({[hash tx]} ∪ processedTxs)
                        end
                    end
                  else loop state address btcPrice rest deposits processedTxs
              end
        end
  end.

(** [checkAddress(address)]: [response] answers the history request,
    [price] the price request made once the history is in. *)
Definition checkAddress (state : AddressService.State) (address : string)
    (response : Js.Http (option (list Tx))) (price : Js.Http Q)
    (processedTxs : gset string) : list Deposit * gset string :=
  match response with
  | Js.Rejected => ([], processedTxs)
  | Js.Resolved None => ([], processedTxs)
  | Js.Resolved (Some transactions) =>
      let btcPrice := getBtcPrice price in
      returned (loop state address btcPrice transactions [] processedTxs)
  end.

(** A transaction as the push channel delivers it ([message.x]). *)
Record RtOutput : Type := mkRtOutput {
  addr : option string;
  value : Z
}.

Record RtTx : Type := mkRtTx {
  rt_hash : string;
  out : option (list RtOutput);
  rt_from : option string      (* tx.inputs && tx.inputs[0]?.prev_out?.addr *)
}.

(** Resolution of the identifier [btcPrice] where
    [processRealTimeTransaction] uses it.  [binding] is what the enclosing
    scopes declare for it: [None] when the identifier is declared nowhere
    in reach, which makes the use a [ReferenceError]. *)
Definition resolve_btcPrice (binding : option (option Q))
  : Js.Completion (option Q) :=
  match binding with
  | Some v => Js.Normal v
  | None => Js.Throw (Js.ReferenceError "btcPrice")
  end.

(** [outputAddress && addresses.includes(outputAddress)]: [includes] raises
    a [TypeError] when the BTC list of the directory is missing. *)
Definition watched (state : AddressService.State) (output : RtOutput)
  : Js.Completion (option string) :=
  match addr output with
  | Some outputAddress =>
      if Js.truthy_string outputAddress then
        match AddressService.btc (AddressService.getAddresses state) with
        | None => Js.Throw Js.TypeError
        | Some addresses =>
            if Js.includes addresses outputAddress
            then Js.Normal (Some outputAddress)
            else Js.Normal None
        end
      else Js.Normal None
  | None => Js.Normal None
  end.



(** The [for (const output of tx.out)] loop. *)
Fixpoint rt_loop (binding : option (option Q)) (state : AddressService.State)
    (now : Z) (tx : RtTx) (outs : list RtOutput) (deposits : list Deposit)
  : Js.Completion (list Deposit) :=
  match outs with
  | [] => Js.Normal deposits
  | output :: rest =>
      match watched state output with
      | Js.Throw e => Js.Throw e
      | Js.Normal None => rt_loop binding state now tx rest deposits
      | Js.Normal (Some outputAddress) =>
          match AddressService.getUserIdForAddress state outputAddress "btc" with
          | Js.Throw e => Js.Throw e
          | Js.Normal None => rt_loop binding state now tx rest deposits
          | Js.Normal (Some u) =>
              if Js.truthy_string u then
                let amountBt := (inject_Z (value output) / satoshisPerBtc)%Q in
                match resolve_btcPrice binding with
                | Js.Throw e => Js.Throw e
                | Js.Normal btcPrice =>
                    let amountBtc := Js.mul_nullable amountBt btcPrice in
                    let deposit :=
                      {| userId := u; type := "deposit"; asset := "btc";
                         network := "btc"; amount := amountBtc;
                         txHash := rt_hash tx;
                         from := Js.or_string (rt_from tx) "unknown";
                         to := outputAddress; timestamp := now;
                         confirmations := 0 |} in
                    rt_loop binding state now tx rest (deposits ++ [deposit])
                end
              else rt_loop binding state now tx rest deposits
          end
      end
  end.

(** [processRealTimeTransaction(tx)] under a given binding of [btcPrice];
    [now] is the clock read by [new Date()]. *)
Definition processRealTimeTransaction_in (binding : option (option Q))
    (state : AddressService.State) (now : Z) (tx : RtTx)
    (processedTxs : gset string) : list Deposit * gset string :=
  if decide (rt_hash tx ∈ processedTxs) then ([], processedTxs)
  else
    let body :=
      match out tx with
      | Some outs => rt_loop binding state now tx outs []
      | None => Js.Normal []
      end in
    match body with
    | Js.Throw _ => ([], processedTxs)
    | Js.Normal deposits =>
        if Nat.ltb 0 (List.length deposits)
        then (deposits, {[rt_hash tx]} ∪ processedTxs)
        else (deposits, processedTxs)
    end.

(** The module declares [processedTxs], [REQUEST_DELAY], [wsConnection],
    [wsReconnectTimeout], [WS_RECONNECT_DELAY] and its functions;
    [btcPrice] is a [const] local to [checkAddress]. *)
Definition btcPrice_in_scope : option (option Q) := None.

Definition processRealTimeTransaction :=
  processRealTimeTransaction_in btcPrice_in_scope.

End BtcServiceWs.

(** ** trc20Service.js (the loop of [checkAddress] is the same in
     src/services/trc20Service.js and in src/unnamed/part_001) *)
Module Trc20Service.

Definition USDT_CONTRACT : string := "TR7NHqjeKQxGTCi8q8ZY4pL8otSzgjLj6t".

Record TokenInfo : Type := mkTokenInfo {
  ti_address : string;
  ti_decimals : option Z;
  ti_symbol : string
}.

Record Tx : Type := mkTx {
  transaction_id : string;
  token_info : option TokenInfo;
  tx_from : string;
  tx_to : string;
  tx_value : Z;
  block_timestamp : option Z;
  tx_confirmations : option Z
}.

(** [response.data]: [success] and the array [data], when present. *)
Record Body : Type := mkBody {
  success : bool;
  data : option (list Tx)
}.

(** The loop raises at [tx.token_info.address] when [token_info] is
    missing -- before the set is asked --, inside [getUserIdForAddress], and
    at [new Date(tx.block_timestamp).toISOString()] when the date is
    invalid. *)
Fixpoint loop (state : AddressService.State) (address : string)
    (transactions : list Tx) (deposits : list Deposit)
    (processedTxs : gset string) : Pass :=
  match transactions with
  | [] => finished deposits processedTxs
  | tx :: rest =>
      match token_info tx with
      | None => raise deposits processedTxs Js.TypeError
      | Some info =>
          if andb (String.eqb (ti_address info) USDT_CONTRACT)
               (andb (String.eqb (tx_to tx) address)
                     (negb (bool_decide (transaction_id tx ∈ processedTxs)))) then
            match AddressService.getUserIdForAddress state address "trc20" with
            | Js.Throw e => raise deposits processedTxs e
            | Js.Normal None => loop state address rest deposits processedTxs
            | Js.Normal (Some u) =>
                if Js.truthy_string u then
                  let decimals := Js.or_number (ti_decimals info) 6 in
                  let amount := (inject_Z (tx_value tx) / Js.pow10 decimals)%Q in
                  match Js.toISOString (Js.Date (block_timestamp tx)) with
                  | Js.Throw e => raise deposits processedTxs e
                  | Js.Normal time =>
                      let deposit :=
                        {| userId := u; type := "deposit"; asset := "usdt";
                           network := "trc20"; amount := amount;
                           txHash := transaction_id tx; from := tx_from tx;
                           to := tx_to tx; timestamp := time;
                           confirmations :=
                             Js.or_number (tx_confirmations tx) 1 |} in
                      loop state address rest (deposits ++ [deposit])
                           ({[transaction_id tx]} ∪ processedTxs)
                  end
                else loop state address rest deposits processedTxs
            end
          else loop state address rest deposits processedTxs
      end
  end.

(** [checkAddress(address)] after [await axios.get]; [Resolved None] is a
    response without [data]. *)
Definition checkAddress (state : AddressService.State) (address : string)
    (response : Js.Http (option Body)) (processedTxs : gset string)
  : list Deposit * gset string :=
  match response with
  | Js.Rejected => ([], processedTxs)
  | Js.Resolved None => ([], processedTxs)
  | Js.Resolved (Some body) =>
      if negb (success body) then ([], processedTxs)
      else
        let transactions := match data body with Some l => l | None => [] end in
        returned (loop state address transactions [] processedTxs)
  end.

Definition getProcessedCount (processedTxs : gset string) : nat :=
  size processedTxs.

(** The filter of the loop besides the set and the owner. *)
Definition eligible (address : string) (tx : Tx) : bool :=
  match token_info tx with
  | Some info =>
      andb (String.eqb (ti_address info) USDT_CONTRACT)
           (String.eqb (tx_to tx) address)
  | None => false
  end.

(** An answer that carries transactions. *)
Definition ok (transactions : list Tx) : Js.Http (option Body) :=
  Js.Resolved (Some {| success := true; data := Some transactions |}).

End Trc20Service.

(** ** bep20Service.js (both copies inside src/services/depositService.js
     share [checkAddress]; the second adds the WebSocket channel) *)
Module Bep20Service.

Definition USDT_CONTRACT : string := "0x55d398326f99059ff775485246999027b3197955".

(** [timeStamp] is in seconds. *)
Record Tx : Type := mkTx {
  hash : string;
  tx_from : string;
  tx_to : option string;
  contractAddress : option string;
  tx_value : Z;
  timeStamp : option Z;
  tx_confirmations : Z
}.

(** [response.data]: [status] and [result], an array or something else. *)
Record Body : Type := mkBody {
  status : string;
  result : option (list Tx)
}.

Definition weiPerUnit : Q := (10 ^ 18) # 1.

(** [tx.timeStamp * 1000] *)
Definition milliseconds (seconds : option Z) : option Z :=
  match seconds with
  | Some s => Some (s * 1000)%Z
  | None => None
  end.

(** The loop raises at [tx.contractAddress.toLowerCase()] when
    [contractAddress] is missing and, for a USDT transfer, at
    [tx.to.toLowerCase()] when [to] is missing -- both before the set is
    asked --, inside [getUserIdForAddress], and at
    [new Date(tx.timeStamp * 1000).toISOString()] when the date is
    invalid. *)
Fixpoint loop (state : AddressService.State) (address : string)
    (transactions : list Tx) (deposits : list Deposit)
    (processedTxs : gset string) : Pass :=
  match transactions with
  | [] => finished deposits processedTxs
  | tx :: rest =>
      match contractAddress tx with
      | None => raise deposits processedTxs Js.TypeError
      | Some contract =>
          if String.eqb (Js.toLowerCase contract) (Js.toLowerCase USDT_CONTRACT) then
            match tx_to tx with
            | None => raise deposits processedTxs Js.TypeError
            | Some to_ =>
                if andb (String.eqb (Js.toLowerCase to_) (Js.toLowerCase address))
                        (negb (bool_decide (hash tx ∈ processedTxs))) then
                  match AddressService.getUserIdForAddress state address "bep20" with
                  | Js.Throw e => raise deposits processedTxs e
                  | Js.Normal None =>
                      loop state address rest deposits processedTxs
                  | Js.Normal (Some u) =>
                      if Js.truthy_string u then
                        match Js.toISOString
                                (Js.Date (milliseconds (timeStamp tx))) with
                        | Js.Throw e => raise deposits processedTxs e
                        | Js.Normal time =>
                            let deposit :=
                              {| userId := u; type := "deposit"; asset := "usdt";
                                 network := "bep20";
                                 amount := (inject_Z (tx_value tx) / weiPerUnit)%Q;
                                 txHash := hash tx; from := tx_from tx;
                                 to := to_; timestamp := time;
                                 confirmations := tx_confirmations tx |} in
                            loop state address rest (deposits ++ [deposit])
                                 ({[hash tx]} ∪ processedTxs)
                        end
                      else loop state address rest deposits processedTxs
                  end
                else loop state address rest deposits processedTxs
            end
          else loop state address rest deposits processedTxs
      end
  end.

(** [checkAddress(address)] after [await axios.get].  A response without a
    body raises at [response.data.status] and ends in the [catch], as a
    rejected request does: [Js.Rejected] stands for both. *)
Definition checkAddress (state : AddressService.State) (address : string)
    (response : Js.Http Body) (processedTxs : gset string)
  : list Deposit * gset string :=
  match response with
  | Js.Rejected => ([], processedTxs)
  | Js.Resolved body =>
      if negb (String.eqb (status body) "1") then ([], processedTxs)
      else
        let transactions := match result body with Some l => l | None => [] end in
        returned (loop state address transactions [] processedTxs)
  end.

(** The object handed to [processRealTimeTransaction]: built by the
    Moralis handler, or the BscScan frame itself. *)
Record Event : Type := mkEvent {
  e_hash : string;
  e_from : string;
  e_to : option string;
  e_contractAddress : option string;
  e_value : Z
}.

(** [processRealTimeTransaction(tx)]; [now] is the clock read by
    [new Date()].  A frame without [to] raises a [TypeError] inside
    [getUserIdForAddress], at [address.toLowerCase()]; that and the other
    exceptions of the lookup end in the [catch], which returns [[]]. *)
Definition processRealTimeTransaction (state : AddressService.State) (now : Z)
    (tx : Event) (processedTxs : gset string) : list Deposit * gset string :=
  if decide (e_hash tx ∈ processedTxs) then ([], processedTxs)
  else
    match e_contractAddress tx with
    | Some c =>
        if andb (Js.truthy_string c)
                (String.eqb (Js.toLowerCase c) (Js.toLowerCase USDT_CONTRACT)) then
          match e_to tx with
          | None => ([], processedTxs)
          | Some to_ =>
              match AddressService.getUserIdForAddress state to_ "bep20" with
              | Js.Throw _ => ([], processedTxs)
              | Js.Normal None => ([], processedTxs)
              | Js.Normal (Some u) =>
                  if Js.truthy_string u then
                    let amount := (inject_Z (e_value tx) / weiPerUnit)%Q in
                    let deposit :=
                      {| userId := u; type := "deposit"; asset := "usdt";
                         network := "bep20"; amount := amount;
                         txHash := e_hash tx; from := e_from tx; to := to_;
                         timestamp := now; confirmations := 1 |} in
                    ([deposit], {[e_hash tx]} ∪ processedTxs)
                  else ([], processedTxs)
              end
          end
        else ([], processedTxs)
    | None => ([], processedTxs)
    end.

Definition getProcessedCount (processedTxs : gset string) : nat :=
  size processedTxs.

(** The filter of the polling loop besides the set and the owner. *)
Definition eligible (address : string) (tx : Tx) : bool :=
  match contractAddress tx, tx_to tx with
  | Some contract, Some to_ =>
      andb (String.eqb (Js.toLowerCase contract) (Js.toLowerCase USDT_CONTRACT))
           (String.eqb (Js.toLowerCase to_) (Js.toLowerCase address))
  | _, _ => false
  end.

(** An answer that carries transactions. *)
Definition ok (transactions : list Tx) : Js.Http Body :=
  Js.Resolved {| status := "1"; result := Some transactions |}.

End Bep20Service.

(** ** Detections of one watcher, in the order the event loop runs them *)
Module Watcher.

(** What a handler does to the watcher's set: the deposits it returns and
    the set afterwards. *)
Definition Handler (E : Type) : Type :=
  E → gset string → list Deposit * gset string.

Fixpoint run {E : Type} (handle : Handler E) (events : list E)
    (processedTxs : gset string) : list Deposit * gset string :=
  match events with
  | [] => ([], processedTxs)
  | e :: rest =>
      let '(deposits, s1) := handle e processedTxs in
      let '(later, s2) := run handle rest s1 in
      (deposits ++ later, s2)
  end.

(** Every deposit a watcher returns during a process lifetime:
    [processedTxs] starts as [new Set()]. *)
Definition emitted {E : Type} (handle : Handler E) (events : list E)
  : list Deposit :=
  fst (run handle events ∅).

Definition carrying (h : string) (deposits : list Deposit) : list Deposit :=
  List.filter (fun d => String.eqb (txHash d) h) deposits.

(** The polling loops share one shape.  For each transaction: a filter
    [guard] that does not ask the set and may raise; then the set is asked
    for the key; then [select] tries to turn the transaction into a deposit,
    which may raise as well; on success the deposit is pushed and the key
    recorded.  An exception leaves the loop. *)
Fixpoint scan {T : Type} (key : T → string) (guard : T → Js.Completion bool)
    (select : T → Js.Completion (option Deposit))
    (transactions : list T) (deposits : list Deposit)
    (processedTxs : gset string) : Pass :=
  match transactions with
  | [] => finished deposits processedTxs
  | tx :: rest =>
      match guard tx with
      | Js.Throw e => raise deposits processedTxs e
      | Js.Normal false => scan key guard select rest deposits processedTxs
      | Js.Normal true =>
          if decide (key tx ∈ processedTxs) then
            scan key guard select rest deposits processedTxs
          else
            match select tx with
            | Js.Throw e => raise deposits processedTxs e
            | Js.Normal None =>
                scan key guard select rest deposits processedTxs
            | Js.Normal (Some d) =>
                scan key guard select rest (deposits ++ [d])
                     ({[key tx]} ∪ processedTxs)
            end
      end
  end.

(** The detections of each watcher. *)
Inductive BtcDetection : Type :=
| BtcPoll (state : AddressService.State) (address : string)
          (response : Js.Http (option (list BtcService.Tx)))
.

Inductive BtcWsDetection : Type :=
| BtcWsPoll (state : AddressService.State) (address : string)
            (response : Js.Http (option (list BtcService.Tx)))
            (price : Js.Http Q)
| BtcWsPush (state : AddressService.State) (now : Z) (tx : BtcServiceWs.RtTx).

Inductive Trc20Detection : Type :=
| Trc20Poll (state : AddressService.State) (address : string)
            (response : Js.Http (option Trc20Service.Body)).

Inductive Bep20Detection : Type :=
| Bep20Poll (state : AddressService.State) (address : string)
            (response : Js.Http Bep20Service.Body)
| Bep20Push (state : AddressService.State) (now : Z) (tx : Bep20Service.Event).

Definition btc : Handler BtcDetection := fun e s =>
  match e with
  | BtcPoll state address response =>
      BtcService.checkAddress state address response s
  end.

Definition btcWs : Handler BtcWsDetection := fun e s =>
  match e with
  | BtcWsPoll state address response price =>
      BtcServiceWs.checkAddress state address response price s
  | BtcWsPush state now tx =>
      BtcServiceWs.processRealTimeTransaction state now tx s
  end.

Definition trc20 : Handler Trc20Detection := fun e s =>
  match e with
  | Trc20Poll state address response =>
      Trc20Service.checkAddress state address response s
  end.

Definition bep20 : Handler Bep20Detection := fun e s =>
  match e with
  | Bep20Poll state address response =>
      Bep20Service.checkAddress state address response s
  | Bep20Push state now tx =>
      Bep20Service.processRealTimeTransaction state now tx s
  end.

(** A handler dedups when the deposits it returns carry pairwise different
    hashes, none of them in the set before, and the set afterwards holds
    the set before and those hashes. *)
Definition dedups (f : gset string → list Deposit * gset string) : Prop :=
  ∀ s, NoDup (map txHash (f s).1)
       ∧ (∀ d, d ∈ (f s).1 → txHash d ∉ s)
       ∧ list_to_set (map txHash (f s).1) ∪ s ⊆ (f s).2.


(** Two outcomes of a selector that agree on whether a deposit is built,
    on its hash, and on the exception. *)
Definition sameHashes (c1 c2 : Js.Completion (option Deposit)) : Prop :=
  match c1, c2 with
  | Js.Normal (Some d1), Js.Normal (Some d2) => txHash d1 = txHash d2
  | Js.Normal None, Js.Normal None => True
  | Js.Throw e1, Js.Throw e2 => e1 = e2
  | _, _ => False
  end.


End Watcher.

(** ** The per-transaction parts of each polling loop, as functions: the
     filter that comes before the set is asked, and the deposit the loop
     builds for a transaction whose hash is not in the set, if it builds
     one *)
Module Normalizer.

Definition btc_guard (tx : BtcService.Tx) : Js.Completion bool :=
  Js.Normal true.

Definition btc (state : AddressService.State) (address : string)
    (tx : BtcService.Tx) : Js.Completion (option Deposit) :=
  match BtcService.outputs tx with
  | None => Js.Throw Js.TypeError
  | Some outs =>
      let receivedOutputs := List.filter (BtcService.paysTo address) outs in
      if Nat.eqb (List.length receivedOutputs) 0 then Js.Normal None
      else
        match AddressService.getUserIdForAddress state address "btc" with
        | Js.Throw e => Js.Throw e
        | Js.Normal None => Js.Normal None
        | Js.Normal (Some u) =>
            if Js.truthy_string u then
              match Js.toISOString (Js.Date (BtcService.received tx)) with
              | Js.Throw e => Js.Throw e
              | Js.Normal time =>
                  match BtcService.inputs tx with
                  | None => Js.Throw Js.TypeError
                  | Some ins =>
                      Js.Normal (Some
                        {| userId := u; type := "deposit"; asset := "btc";
                           network := "btc";
                           amount :=
                             (inject_Z (BtcService.totalReceived receivedOutputs)
                              / BtcService.satoshisPerBtc)%Q;
                           txHash := BtcService.hash tx;
                           from := BtcService.firstInputAddress ins;
                           to := address; timestamp := time;
                           confirmations :=
                             Js.or_number (BtcService.tx_confirmations tx) 1 |})
                  end
              end
            else Js.Normal None
        end
  end.

Definition btcWs (state : AddressService.State) (address : string)
    (btcPrice : option Q) (tx : BtcService.Tx)
  : Js.Completion (option Deposit) :=
  match BtcService.outputs tx with
  | None => Js.Throw Js.TypeError
  | Some outs =>
      let receivedOutputs := List.filter (BtcService.paysTo address) outs in
      if Nat.eqb (List.length receivedOutputs) 0 then Js.Normal None
      else
        match AddressService.getUserIdForAddress state address "btc" with
        | Js.Throw e => Js.Throw e
        | Js.Normal None => Js.Normal None
        | Js.Normal (Some u) =>
            if Js.truthy_string u then
              match Js.toISOString (Js.Date (BtcService.received tx)) with
              | Js.Throw e => Js.Throw e
              | Js.Normal time =>
                  match BtcService.inputs tx with
                  | None => Js.Throw Js.TypeError
                  | Some ins =>
                      Js.Normal (Some
                        {| userId := u; type := "deposit"; asset := "btc";
                           network := "btc";
                           amount :=
                             Js.mul_nullable
                               (inject_Z (BtcService.totalReceived receivedOutputs)
                                / BtcService.satoshisPerBtc)%Q btcPrice;
                           txHash := BtcService.hash tx;
                           from := BtcService.firstInputAddress ins;
                           to := address; timestamp := time;
                           confirmations :=
                             Js.or_number (BtcService.tx_confirmations tx) 1 |})
                  end
              end
            else Js.Normal None
        end
  end.

Definition trc20_guard (address : string) (tx : Trc20Service.Tx)
  : Js.Completion bool :=
  match Trc20Service.token_info tx with
  | None => Js.Throw Js.TypeError
  | Some info =>
      Js.Normal (andb (String.eqb (Trc20Service.ti_address info)
                                  Trc20Service.USDT_CONTRACT)
                      (String.eqb (Trc20Service.tx_to tx) address))
  end.

Definition trc20 (state : AddressService.State) (address : string)
    (tx : Trc20Service.Tx) : Js.Completion (option Deposit) :=
  match Trc20Service.token_info tx with
  | None => Js.Throw Js.TypeError
  | Some info =>
      match AddressService.getUserIdForAddress state address "trc20" with
      | Js.Throw e => Js.Throw e
      | Js.Normal None => Js.Normal None
      | Js.Normal (Some u) =>
          if Js.truthy_string u then
            match Js.toISOString (Js.Date (Trc20Service.block_timestamp tx)) with
            | Js.Throw e => Js.Throw e
            | Js.Normal time =>
                Js.Normal (Some
                  {| userId := u; type := "deposit"; asset := "usdt";
                     network := "trc20";
                     amount :=
                       (inject_Z (Trc20Service.tx_value tx)
                        / Js.pow10 (Js.or_number
                             (Trc20Service.ti_decimals info) 6))%Q;
                     txHash := Trc20Service.transaction_id tx;
                     from := Trc20Service.tx_from tx;
                     to := Trc20Service.tx_to tx;
                     timestamp := time;
                     confirmations :=
                       Js.or_number (Trc20Service.tx_confirmations tx) 1 |})
            end
          else Js.Normal None
      end
  end.

Definition bep20_guard (address : string) (tx : Bep20Service.Tx)
  : Js.Completion bool :=
  match Bep20Service.contractAddress tx with
  | None => Js.Throw Js.TypeError
  | Some contract =>
      if String.eqb (Js.toLowerCase contract)
                    (Js.toLowerCase Bep20Service.USDT_CONTRACT) then
        match Bep20Service.tx_to tx with
        | None => Js.Throw Js.TypeError
        | Some to_ =>
            Js.Normal (String.eqb (Js.toLowerCase to_) (Js.toLowerCase address))
        end
      else Js.Normal false
  end.

Definition bep20 (state : AddressService.State) (address : string)
    (tx : Bep20Service.Tx) : Js.Completion (option Deposit) :=
  match Bep20Service.tx_to tx with
  | None => Js.Throw Js.TypeError
  | Some to_ =>
      match AddressService.getUserIdForAddress state address "bep20" with
      | Js.Throw e => Js.Throw e
      | Js.Normal None => Js.Normal None
      | Js.Normal (Some u) =>
          if Js.truthy_string u then
            match Js.toISOString
                    (Js.Date (Bep20Service.milliseconds
                                (Bep20Service.timeStamp tx))) with
            | Js.Throw e => Js.Throw e
            | Js.Normal time =>
                Js.Normal (Some
                  {| userId := u; type := "deposit"; asset := "usdt";
                     network := "bep20";
                     amount := (inject_Z (Bep20Service.tx_value tx)
                                / Bep20Service.weiPerUnit)%Q;
                     txHash := Bep20Service.hash tx;
                     from := Bep20Service.tx_from tx;
                     to := to_;
                     timestamp := time;
                     confirmations := Bep20Service.tx_confirmations tx |})
            end
          else Js.Normal None
      end
  end.

End Normalizer.

(** ** The check cycle of depositService.js over the watchers' state *)
Module Cycle.

(** The answers of the outside world during one cycle. *)
Record Providers : Type := mkProviders {
  bscscan : string → Js.Http Bep20Service.Body;
  trongrid : string → Js.Http (option Trc20Service.Body);
  blockcypher : string → Js.Http (option (list BtcService.Tx));
  coingecko : Js.Http Q
}.

(** The requests the process sends, in the order it sends them. *)
Inductive Request : Type :=
| GetBscScan (address : string)
| GetTronGrid (address : string)
| GetBlockCypher (address : string)
| GetCoinGecko
| PostDeposits (deposits : list Deposit).

Record World : Type := mkWorld {
  directory : AddressService.State;
  bep20Processed : gset string;
  trc20Processed : gset string;
  btcProcessed : gset string;
  requests : list Request
}.

(** A small state monad over [World]. *)
Definition M (A : Type) : Type := World → A * World.
Definition ret {A : Type} (a : A) : M A := fun w => (a, w).
Definition bind {A B : Type} (m : M A) (k : A → M B) : M B :=
  fun w => let '(a, w1) := m w in k a w1.
Notation "'let*' x ':=' m 'in' k" := (bind m (fun x => k))
  (at level 10, x pattern, m at level 100, k at level 200).

Definition send (r : Request) : M unit :=
  fun w =>
    (tt, {| directory := directory w; bep20Processed := bep20Processed w;
            trc20Processed := trc20Processed w;
            btcProcessed := btcProcessed w;
            requests := requests w ++ [r] |}).

Definition getDirectory : M AddressService.State := fun w => (directory w, w).

Definition onBep20 (f : gset string → list Deposit * gset string)
  : M (list Deposit) :=
  fun w =>
    let '(ds, s) := f (bep20Processed w) in
    (ds, {| directory := directory w; bep20Processed := s;
            trc20Processed := trc20Processed w;
            btcProcessed := btcProcessed w; requests := requests w |}).

Definition onTrc20 (f : gset string → list Deposit * gset string)
  : M (list Deposit) :=
  fun w =>
    let '(ds, s) := f (trc20Processed w) in
    (ds, {| directory := directory w; bep20Processed := bep20Processed w;
            trc20Processed := s;
            btcProcessed := btcProcessed w; requests := requests w |}).

Definition onBtc (f : gset string → list Deposit * gset string)
  : M (list Deposit) :=
  fun w =>
    let '(ds, s) := f (btcProcessed w) in
    (ds, {| directory := directory w; bep20Processed := bep20Processed w;
            trc20Processed := trc20Processed w;
            btcProcessed := s; requests := requests w |}).

Section WithProviders.
Variable P : Providers.

(** [checkAddress] of each watcher, with its requests. *)
Definition bep20_checkAddress (address : string) : M (list Deposit) :=
  let* _ := send (GetBscScan address) in
  let* state := getDirectory in
  onBep20 (Bep20Service.checkAddress state address (bscscan P address)).

Definition trc20_checkAddress (address : string) : M (list Deposit) :=
  let* _ := send (GetTronGrid address) in
  let* state := getDirectory in
  onTrc20 (Trc20Service.checkAddress state address (trongrid P address)).

(** The price is asked for once the history answer passed the guard. *)
Definition btc_checkAddress (address : string) : M (list Deposit) :=
  let* _ := send (GetBlockCypher address) in
  let* _ := match blockcypher P address with
            | Js.Resolved (Some _) => send GetCoinGecko
            | _ => ret tt
            end in
  let* state := getDirectory in
  onBtc (BtcServiceWs.checkAddress state address (blockcypher P address)
           (coingecko P)).

(** [for (let i = 0; i < addresses.length; i++)] of [checkAllAddresses]. *)
Fixpoint each (checkAddress : string → M (list Deposit))
    (addresses : list string) (allDeposits : list Deposit)
  : M (list Deposit) :=
  match addresses with
  | [] => ret allDeposits
  | address :: rest =>
      let* deposits := checkAddress address in
      each checkAddress rest (allDeposits ++ deposits)
  end.

(** [checkAllAddresses()] of a watcher: [addresses.length] raises a
    [TypeError] when the directory has no list for the network, and the
    [catch] returns [[]] before any request is sent. *)
Definition checkAllAddresses (checkAddress : string → M (list Deposit))
    (pick : AddressService.Addresses → option (list string))
  : M (list Deposit) :=
  let* state := getDirectory in
  match pick (AddressService.getAddresses state) with
  | None => ret []
  | Some addresses =>
      if Nat.eqb (List.length addresses) 0 then ret []
      else each checkAddress addresses []
  end.

(** The addresses a watcher goes through: none when the list is missing. *)
Definition listed (addresses : option (list string)) : list string :=
  match addresses with Some l => l | None => [] end.

Definition bep20_checkAllAddresses : M (list Deposit) :=
  checkAllAddresses bep20_checkAddress AddressService.bep20.
Definition trc20_checkAllAddresses : M (list Deposit) :=
  checkAllAddresses trc20_checkAddress AddressService.trc20.
Definition btc_checkAllAddresses : M (list Deposit) :=
  checkAllAddresses btc_checkAddress AddressService.btc.

(** [processDeposits(deposits)]: one POST unless the batch is empty; the
    answer is only logged. *)
Definition processDeposits (deposits : list Deposit) : M unit :=
  if Nat.eqb (List.length deposits) 0 then ret tt
  else send (PostDeposits deposits).

Definition checkDeposits : M (list Deposit) :=
  let* bep20Deposits := bep20_checkAllAddresses in
  let* trc20Deposits := trc20_checkAllAddresses in
  let* btcDeposits := btc_checkAllAddresses in
  let allDeposits := bep20Deposits ++ trc20Deposits ++ btcDeposits in
  let* _ := (if Nat.ltb 0 (List.length allDeposits)
             then processDeposits allDeposits else ret tt) in
  ret allDeposits.

End WithProviders.

Definition posts (rs : list Request) : list (list Deposit) :=
  flat_map (fun r => match r with PostDeposits ds => [ds] | _ => [] end) rs.

(** What one [checkAddress] sends -- [req a] for the address [a] --, and
    that it leaves the directory alone. *)
Definition sends (check : string → M (list Deposit))
    (req : string → list Request) : Prop :=
  ∀ a w, requests (check a w).2 = requests w ++ req a
         ∧ directory (check a w).2 = directory w.

(** The requests of one BTC [checkAddress]. *)
Definition btc_requests (P : Providers) (address : string) : list Request :=
  GetBlockCypher address ::
  match blockcypher P address with
  | Js.Resolved (Some _) => [GetCoinGecko]
  | _ => []
  end.

End Cycle.


(** ** The push handlers of the watchers and the routes of apiRoutes.js
       that check one address *)
Module Push.

Import Cycle.

(** A frame of the BTC channel after [JSON.parse]: [message.op] and
    [message.x], either of which may be missing. *)
Record BtcFrame : Type := mkBtcFrame {
  op : option string;
  x : option BtcServiceWs.RtTx
}.

(** [message.op === 'utx' || message.op === 'tx'] *)
Definition announces (message : BtcFrame) : bool :=
  match op message with
  | Some o => orb (String.eqb o "utx") (String.eqb o "tx")
  | None => false
  end.

(** btcService.js (part_000), [wsConnection.on('message', ...)].  [None] is
    a frame [JSON.parse] rejects or parses to [null]; an announcement
    without [x] raises at [tx.hash].  The [catch] of the handler swallows
    both. *)
Definition btc_onMessage (now : Z) (data : option BtcFrame) : M unit :=
  match data with
  | None => ret tt
  | Some message =>
      if announces message then
        match x message with
        | None => ret tt
        | Some tx =>
            let* state := getDirectory in
            let* deposits :=
              onBtc (BtcServiceWs.processRealTimeTransaction state now tx) in
            if Nat.ltb 0 (List.length deposits) then processDeposits deposits
            else ret tt
        end
      else ret tt
  end.

(** depositService.js, the Moralis handler.  [data] is the object built
    from [event.data], [None] when the frame does not parse or has no
    [data].  [addresses.includes] raises when the directory has no BEP20
    list and [tx.to.toLowerCase()] when the event has no [to]; the [catch]
    swallows both.  The deposits [processRealTimeTransaction] returns go
    into a local constant that nothing reads. *)
Definition moralis_onMessage (now : Z) (data : option Bep20Service.Event)
  : M unit :=
  match data with
  | None => ret tt
  | Some tx =>
      let* state := getDirectory in
      match AddressService.bep20 (AddressService.getAddresses state),
            Bep20Service.e_to tx with
      | Some addresses, Some to_ =>
          if Js.includes addresses (Js.toLowerCase to_) then
            let* deposits :=
              onBep20 (Bep20Service.processRealTimeTransaction state now tx) in
            ret tt
          else ret tt
      | _, _ => ret tt
      end
  end.

(** depositService.js, the BscScan handler: [if (event && event.hash)]. *)
Definition bscscan_onMessage (now : Z) (data : option Bep20Service.Event)
  : M unit :=
  match data with
  | None => ret tt
  | Some event =>
      if Js.truthy_string (Bep20Service.e_hash event) then
        let* state := getDirectory in
        let* deposits :=
          onBep20 (Bep20Service.processRealTimeTransaction state now event) in
        ret tt
      else ret tt
  end.




(** The set of the watcher a route asks. *)
Definition processedOn (network : string) (w : World) : gset string :=
  if String.eqb network "bep20" then bep20Processed w
  else trc20Processed w.

(** No poll of the BEP20 or the TRC20 watcher returns a deposit for the
    hash [h] while the watcher's set holds what [s] holds. *)
Definition neverPolled (network : string) (h : string) (s : gset string)
  : Prop :=
  ∀ s', s ⊆ s' →
    if String.eqb network "bep20" then
      ∀ state address response d,
        d ∈ (Bep20Service.checkAddress state address response s').1 →
        txHash d ≠ h
    else
      ∀ state address response d,
        d ∈ (Trc20Service.checkAddress state address response s').1 →
        txHash d ≠ h.

(** A deposit that is in the watcher's set of [w'], was not in it at [w],
    and for which nothing was posted in between. *)
Definition recordedUnposted (network : string) (d : Deposit) (w w' : World)
  : Prop :=
  txHash d ∉ processedOn network w
  ∧ txHash d ∈ processedOn network w'
  ∧ posts (requests w') = posts (requests w)
  ∧ neverPolled network (txHash d) (processedOn network w').

End Push.


(** ** Node's timers and sockets, as far as the program uses them *)
Module Runtime.

Inductive Service : Type := Btc | Bep20.

(** What a scheduled timer runs when it is due. *)
Inductive Callback : Type :=
| CheckDeposits
| RefreshAddresses
| Reconnect (svc : Service)
| QuickPoll.

#[global] Instance Service_eq_dec : EqDecision Service.
Proof. solve_decision. Defined.

#[global] Instance Callback_eq_dec : EqDecision Callback.
Proof. solve_decision. Defined.

Record Timer : Type := mkTimer {
  handle : nat;
  callback : Callback;
  delay : Z;
  repeats : bool
}.

Record Socket : Type := mkSocket {
  socket : nat;
  owner : Service
}.

(** The timers that are scheduled, the sockets that are open, and the next
    unused handle. *)
Record T : Type := mkT {
  timers : list Timer;
  sockets : list Socket;
  next : nat
}.

Definition initial : T := {| timers := []; sockets := []; next := 1 |}.

(** [setTimeout(cb, delay)] and [setInterval(cb, delay)] *)
Definition schedule (cb : Callback) (ms : Z) (again : bool) (rt : T) : nat * T :=
  (next rt,
   {| timers := timers rt ++ [{| handle := next rt; callback := cb;
                                 delay := ms; repeats := again |}];
      sockets := sockets rt;
      next := S (next rt) |}).

Definition setTimeout (cb : Callback) (ms : Z) : T → nat * T := schedule cb ms false.
Definition setInterval (cb : Callback) (ms : Z) : T → nat * T := schedule cb ms true.

(** [clearTimeout(h)] and [clearInterval(h)] *)
Definition clear (h : nat) (rt : T) : T :=
  {| timers := List.filter (fun t => negb (Nat.eqb (handle t) h)) (timers rt);
     sockets := sockets rt;
     next := next rt |}.

(** [new WebSocket(url)] with the handlers of [svc] attached. *)
Definition connect (svc : Service) (rt : T) : nat * T :=
  (next rt,
   {| timers := timers rt;
      sockets := sockets rt ++ [{| socket := next rt; owner := svc |}];
      next := S (next rt) |}).

(** [ws.terminate()], and what is left of a socket once it closed. *)
Definition drop (c : nat) (rt : T) : T :=
  {| timers := timers rt;
     sockets := List.filter (fun s => negb (Nat.eqb (socket s) c)) (sockets rt);
     next := next rt |}.

(** [if (h) { clearTimeout(h); }] and [if (c) { c.terminate(); }] *)
Definition clearIfSet (h : option nat) (rt : T) : T :=
  match h with Some h' => clear h' rt | None => rt end.

Definition dropIfSet (c : option nat) (rt : T) : T :=
  match c with Some c' => drop c' rt | None => rt end.

Definition lookup (h : nat) (rt : T) : option Timer :=
  List.find (fun t => Nat.eqb (handle t) h) (timers rt).

End Runtime.

(** ** Start, stop and reconnection: depositService.js with the channel
       code of btcService.js (part_000), bep20Service.js and
       trc20Service.js (part_001) *)
Module Lifecycle.

Import Runtime.

Record Env : Type := mkEnv {
  MORALIS_API_KEY : option string;
  BSCSCAN_WS_KEY : option string;
  TRONGRID_API_KEY : option string;
  CHECK_INTERVAL_env : option Z;
  ADDRESS_REFRESH_INTERVAL_env : option Z;
  TRC20_QUICK_POLL_INTERVAL_env : option Z
}.

Definition CHECK_INTERVAL (env : Env) : Z :=
  Js.or_number (CHECK_INTERVAL_env env) 30000.
Definition ADDRESS_REFRESH_INTERVAL (env : Env) : Z :=
  Js.or_number (ADDRESS_REFRESH_INTERVAL_env env) (5 * 60 * 1000).
Definition QUICK_POLL_INTERVAL (env : Env) : Z :=
  Js.or_number (TRC20_QUICK_POLL_INTERVAL_env env) 15000.
Definition WS_RECONNECT_DELAY : Z := 5000.

(** [let wsConnection = null; let wsReconnectTimeout = null;] of a service. *)
Record Channel : Type := mkChannel {
  wsConnection : option nat;
  wsReconnectTimeout : option nat
}.

Record Process : Type := mkProcess {
  runtime : Runtime.T;
  monitoringInterval : option nat;
  addressRefreshInterval : option nat;
  btcChannel : Channel;
  bep20Channel : Channel;
  quickPollInterval : option nat
}.

Definition initial : Process :=
  {| runtime := Runtime.initial;
     monitoringInterval := None; addressRefreshInterval := None;
     btcChannel := {| wsConnection := None; wsReconnectTimeout := None |};
     bep20Channel := {| wsConnection := None; wsReconnectTimeout := None |};
     quickPollInterval := None |}.

Definition channel (svc : Service) (p : Process) : Channel :=
  match svc with Btc => btcChannel p | Bep20 => bep20Channel p end.

Definition withChannel (svc : Service) (ch : Channel) (rt : Runtime.T)
    (p : Process) : Process :=
  match svc with
  | Btc =>
      {| runtime := rt; monitoringInterval := monitoringInterval p;
         addressRefreshInterval := addressRefreshInterval p;
         btcChannel := ch; bep20Channel := bep20Channel p;
         quickPollInterval := quickPollInterval p |}
  | Bep20 =>
      {| runtime := rt; monitoringInterval := monitoringInterval p;
         addressRefreshInterval := addressRefreshInterval p;
         btcChannel := btcChannel p; bep20Channel := ch;
         quickPollInterval := quickPollInterval p |}
  end.

(** [reconnectWebSocket()], the same text in both services. *)
Definition reconnectWebSocket (svc : Service) (p : Process) : Process :=
  let ch := channel svc p in
  let rt1 := Runtime.clearIfSet (wsReconnectTimeout ch) (runtime p) in
  let '(h, rt2) := Runtime.setTimeout (Reconnect svc) WS_RECONNECT_DELAY rt1 in
  withChannel svc {| wsConnection := wsConnection ch;
                     wsReconnectTimeout := Some h |} rt2 p.

(** Whether [startWebSocketMonitoring] opens a socket: always for BTC, for
    BEP20 when one of the two keys is set. *)
Definition opensSocket (env : Env) (svc : Service) : bool :=
  match svc with
  | Btc => true
  | Bep20 => orb (Js.truthy (MORALIS_API_KEY env)) (Js.truthy (BSCSCAN_WS_KEY env))
  end.

(** [startWebSocketMonitoring()]; [throws] tells whether [new WebSocket]
    raises, which the [catch] answers with [reconnectWebSocket()]. *)
Definition startWebSocketMonitoring (env : Env) (throws : bool) (svc : Service)
    (p : Process) : Process :=
  let ch := channel svc p in
  let rt1 := Runtime.dropIfSet (wsConnection ch) (runtime p) in
  let rt2 := Runtime.clearIfSet (wsReconnectTimeout ch) rt1 in
  let ch2 :=
    match wsReconnectTimeout ch with
    | Some _ => {| wsConnection := wsConnection ch; wsReconnectTimeout := None |}
    | None => ch
    end in
  if opensSocket env svc then
    if throws then reconnectWebSocket svc (withChannel svc ch2 rt2 p)
    else
      let '(c, rt3) := Runtime.connect svc rt2 in
      withChannel svc {| wsConnection := Some c;
                         wsReconnectTimeout := wsReconnectTimeout ch2 |} rt3 p
  else withChannel svc ch2 rt2 p.

(** trc20Service.js: [startRealTimeMonitoring()] and [stop()] *)
Definition trc20_clearQuickPoll (p : Process) : Process :=
  match quickPollInterval p with
  | Some h =>
      {| runtime := Runtime.clear h (runtime p);
         monitoringInterval := monitoringInterval p;
         addressRefreshInterval := addressRefreshInterval p;
         btcChannel := btcChannel p; bep20Channel := bep20Channel p;
         quickPollInterval := None |}
  | None => p
  end.

Definition trc20_startRealTimeMonitoring (env : Env) (p : Process) : Process :=
  let p1 := trc20_clearQuickPoll p in
  if Js.truthy (TRONGRID_API_KEY env) then
    let '(h, rt) := Runtime.setInterval QuickPoll (QUICK_POLL_INTERVAL env) (runtime p1) in
    {| runtime := rt;
       monitoringInterval := monitoringInterval p1;
       addressRefreshInterval := addressRefreshInterval p1;
       btcChannel := btcChannel p1; bep20Channel := bep20Channel p1;
       quickPollInterval := Some h |}
  else p1.

Definition trc20_stop : Process → Process := trc20_clearQuickPoll.

(** The [stop] property of each default export: only trc20Service has one. *)
Definition bep20Service_stop : option (Process → Process) := None.
Definition trc20Service_stop : option (Process → Process) := Some trc20_stop.
Definition btcService_stop : option (Process → Process) := None.

(** [if (typeof svc.stop === 'function') svc.stop();] *)
Definition callIfFunction (f : option (Process → Process)) (p : Process) : Process :=
  match f with Some g => g p | None => p end.

(** [startMonitoring()]: the two [setInterval] calls; the [init] calls of its
    [then] callback are the events [Init] and [Trc20Init] below. *)
Definition startMonitoring (env : Env) (p : Process) : Process :=
  let '(h1, rt1) := Runtime.setInterval CheckDeposits (CHECK_INTERVAL env) (runtime p) in
  let '(h2, rt2) := Runtime.setInterval RefreshAddresses (ADDRESS_REFRESH_INTERVAL env) rt1 in
  {| runtime := rt2;
     monitoringInterval := Some h1; addressRefreshInterval := Some h2;
     btcChannel := btcChannel p; bep20Channel := bep20Channel p;
     quickPollInterval := quickPollInterval p |}.

Definition clearMonitoringInterval (p : Process) : Process :=
  match monitoringInterval p with
  | Some h =>
      {| runtime := Runtime.clear h (runtime p);
         monitoringInterval := None;
         addressRefreshInterval := addressRefreshInterval p;
         btcChannel := btcChannel p; bep20Channel := bep20Channel p;
         quickPollInterval := quickPollInterval p |}
  | None => p
  end.

Definition clearAddressRefreshInterval (p : Process) : Process :=
  match addressRefreshInterval p with
  | Some h =>
      {| runtime := Runtime.clear h (runtime p);
         monitoringInterval := monitoringInterval p;
         addressRefreshInterval := None;
         btcChannel := btcChannel p; bep20Channel := bep20Channel p;
         quickPollInterval := quickPollInterval p |}
  | None => p
  end.

(** [stopMonitoring()] *)
Definition stopMonitoring (p : Process) : Process :=
  let p1 := clearMonitoringInterval p in
  let p2 := clearAddressRefreshInterval p1 in
  let p3 := callIfFunction bep20Service_stop p2 in
  let p4 := callIfFunction trc20Service_stop p3 in
  callIfFunction btcService_stop p4.

(** What happens to the process. *)
Inductive Event : Type :=
| StartMonitoring
| StopMonitoring
| Init (svc : Service) (throws : bool)
| Trc20Init
| SocketError (svc : Service)
| SocketClose (svc : Service) (c : nat)
| Fire (h : nat) (throws : bool).

Definition withRuntime (rt : Runtime.T) (p : Process) : Process :=
  {| runtime := rt;
     monitoringInterval := monitoringInterval p;
     addressRefreshInterval := addressRefreshInterval p;
     btcChannel := btcChannel p; bep20Channel := bep20Channel p;
     quickPollInterval := quickPollInterval p |}.

(** A due timer leaves the table unless it repeats, then runs its callback.
    The callbacks of the three intervals act on the watchers' sets and on
    the directory; the [init] calls a refresh makes once an address list
    changed are the events [Init] and [Trc20Init]. *)
Definition fire (env : Env) (h : nat) (throws : bool) (p : Process) : Process :=
  match Runtime.lookup h (runtime p) with
  | None => p
  | Some t =>
      let p1 := if repeats t then p
                else withRuntime (Runtime.clear h (runtime p)) p in
      match callback t with
      | Reconnect svc => startWebSocketMonitoring env throws svc p1
      | _ => p1
      end
  end.

Definition step (env : Env) (e : Event) (p : Process) : Process :=
  match e with
  | StartMonitoring => startMonitoring env p
  | StopMonitoring => stopMonitoring p
  | Init svc throws => startWebSocketMonitoring env throws svc p
  | Trc20Init => trc20_startRealTimeMonitoring env p
  | SocketError svc => reconnectWebSocket svc p
  | SocketClose svc c => reconnectWebSocket svc (withRuntime (Runtime.drop c (runtime p)) p)
  | Fire h throws => fire env h throws p
  end.

Definition run (env : Env) (events : list Event) (p : Process) : Process :=
  fold_left (fun q e => step env e q) events p.

(** The reconnect timers of a service that are scheduled. *)
Definition pending (svc : Service) (p : Process) : list Timer :=
  List.filter (fun t => bool_decide (callback t = Reconnect svc))
              (timers (runtime p)).

(** The sockets of a service that are open. *)
Definition openSockets (svc : Service) (p : Process) : list Socket :=
  List.filter (fun s => bool_decide (owner s = svc)) (sockets (runtime p)).

(** An [error] or [close] event of a socket of [svc]. *)
Definition isDisconnect (svc : Service) (e : Event) : bool :=
  match e with
  | SocketError svc' => bool_decide (svc' = svc)
  | SocketClose svc' _ => bool_decide (svc' = svc)
  | _ => false
  end.

(** The handles the three interval variables hold. *)
Definition intervalHandles (p : Process) : list nat :=
  omap id [monitoringInterval p; addressRefreshInterval p; quickPollInterval p].

(** What every reachable process satisfies: handles are unique and below
    the next unused one; a scheduled reconnect timer of a service is the one
    its [wsReconnectTimeout] holds; the interval variables hold handles that
    were handed out, none of them the handle of a reconnect timer. *)
Definition wellFormed (p : Process) : Prop :=
  NoDup (map handle (timers (runtime p)))
  ∧ (∀ t, t ∈ timers (runtime p) → (handle t < next (runtime p))%nat)
  ∧ (∀ svc t, t ∈ timers (runtime p) → callback t = Reconnect svc →
       wsReconnectTimeout (channel svc p) = Some (handle t))
  ∧ (∀ h, h ∈ intervalHandles p →
       (h < next (runtime p))%nat
       ∧ ∀ t svc, t ∈ timers (runtime p) → handle t = h →
           callback t ≠ Reconnect svc).

(** The timers that run the deposit check or the address refresh, and
    those that run the quick poll. *)
Definition isInterval (t : Timer) : bool :=
  orb (bool_decide (callback t = CheckDeposits))
      (bool_decide (callback t = RefreshAddresses)).

Definition intervals (p : Process) : list Timer :=
  List.filter isInterval (timers (runtime p)).

Definition quickPolls (p : Process) : list Timer :=
  List.filter (fun t => bool_decide (callback t = QuickPoll))
              (timers (runtime p)).

(** The runs in which [startMonitoring] is only called while no deposit
    check and no address refresh is scheduled. *)
Fixpoint startsIdle (env : Env) (events : list Event) (p : Process) : bool :=
  match events with
  | [] => true
  | e :: rest =>
      andb match e with
           | StartMonitoring =>
               match intervals p with [] => true | _ :: _ => false end
           | _ => true
           end
           (startsIdle env rest (step env e p))
  end.

(** Every scheduled deposit check or address refresh is held by
    [monitoringInterval] or [addressRefreshInterval]. *)
Definition intervalsHeld (p : Process) : Prop :=
  ∀ t, t ∈ timers (runtime p) → isInterval t = true →
       monitoringInterval p = Some (handle t)
       ∨ addressRefreshInterval p = Some (handle t).

(** [q] has no deposit check or address refresh scheduled that [p] has
    not, and holds the same two handles. *)
Definition keepsIntervals (p q : Process) : Prop :=
  (∀ t, t ∈ timers (runtime q) → isInterval t = true → t ∈ timers (runtime p))
  ∧ monitoringInterval q = monitoringInterval p
  ∧ addressRefreshInterval q = addressRefreshInterval p.

(** Every scheduled quick-poll timer is the one [quickPollInterval] holds,
    and the handle [quickPollInterval] holds is the handle of no other kind
    of timer. *)
Definition quickTracked (p : Process) : Prop :=
  ∀ t, t ∈ timers (runtime p) → callback t = QuickPoll →
       quickPollInterval p = Some (handle t).

Definition quickOwned (p : Process) : Prop :=
  ∀ h t, quickPollInterval p = Some h → t ∈ timers (runtime p) →
         handle t = h → callback t = QuickPoll.

(** Sockets have handles of their own, all handed out already, and an open
    socket of a service is the one its [wsConnection] holds. *)
Definition socketsTracked (p : Process) : Prop :=
  NoDup (map socket (sockets (runtime p)))
  ∧ (∀ s, s ∈ sockets (runtime p) → (socket s < next (runtime p))%nat)
  ∧ (∀ s, s ∈ sockets (runtime p) →
          wsConnection (channel (owner s) p) = Some (socket s)).

End Lifecycle.
(** ** Concrete inputs used by the examples below *)
Module Scenario.

Definition alice : AddressService.Wallet :=
  {| AddressService.w_userId := "alice";
     AddressService.w_addresses :=
       Some {| AddressService.w_bep20 := Some "0xAbC1";
               AddressService.w_trc20 := Some "TAlice";
               AddressService.w_btc := Some "bc1alice" |} |}.

(** A directory that watches Alice's addresses and knows their owner. *)
Definition owned : AddressService.State :=
  {| AddressService.addresses :=
       {| AddressService.bep20 := Some ["0xabc1"];
          AddressService.trc20 := Some ["TAlice"];
          AddressService.btc := Some ["bc1alice"; "bc1bob"] |};
     AddressService.addressDetails := Some [alice] |}.

(** The same watch lists before the detailed records arrive. *)
Definition ownerless : AddressService.State :=
  {| AddressService.addresses := AddressService.addresses owned;
     AddressService.addressDetails := Some [] |}.

(** A body of the identity authority that reports success but carries no
    TRC20 list and no detailed record. *)
Definition truncated : AddressService.Body :=
  {| AddressService.success := true;
     AddressService.data :=
       Some {| AddressService.grouped :=
                 Some {| AddressService.bep20Addresses := Some ["0xabc1"];
                         AddressService.trc20Addresses := None;
                         AddressService.btcAddresses := Some ["bc1alice"] |};
               AddressService.detailed := Some [] |} |}.

(** T1 pays 1.5 BTC to Alice in two outputs, and something to a stranger. *)
Definition T1 : BtcService.Tx :=
  {| BtcService.hash := "T1";
     BtcService.outputs :=
       Some [ {| BtcService.o_addresses := Some ["bc1alice"];
                 BtcService.o_value := 100000000 |};
              {| BtcService.o_addresses := Some ["bc1stranger"];
                 BtcService.o_value := 7 |};
              {| BtcService.o_addresses := Some ["bc1alice"];
                 BtcService.o_value := 50000000 |} ];
     BtcService.inputs :=
       Some [ {| BtcService.i_addresses := Some ["bc1payer"] |} ];
     BtcService.received := Some 1700000000000%Z;
     BtcService.tx_confirmations := Some 3%Z |}.

Definition history : Js.Http (option (list BtcService.Tx)) :=
  Js.Resolved (Some [T1]).

(** T9 pays Alice as well, but the provider gives a time of receipt one
    millisecond past the last instant a [Date] can hold. *)
Definition T9 : BtcService.Tx :=
  {| BtcService.hash := "T9";
     BtcService.outputs :=
       Some [ {| BtcService.o_addresses := Some ["bc1alice"];
                 BtcService.o_value := 2000 |} ];
     BtcService.inputs :=
       Some [ {| BtcService.i_addresses := Some ["bc1payer"] |} ];
     BtcService.received := Some 8640000000000001%Z;
     BtcService.tx_confirmations := Some 2%Z |}.

(** An answer with T1 followed by T9. *)
Definition spoiled : Js.Http (option (list BtcService.Tx)) :=
  Js.Resolved (Some [T1; T9]).

Definition price : Js.Http Q := Js.Resolved (50000 # 1).

(** The same transaction as the push channel announces it. *)
Definition T1_pushed : BtcServiceWs.RtTx :=
  {| BtcServiceWs.rt_hash := "T1";
     BtcServiceWs.out :=
       Some [ {| BtcServiceWs.addr := Some "bc1alice";
                 BtcServiceWs.value := 150000000 |} ];
     BtcServiceWs.rt_from := Some "bc1payer" |}.

(** A USDT transfer on TRON whose metadata gives [decimals]. *)
Definition transfer (decimals : option Z) (value : Z) : Trc20Service.Tx :=
  {| Trc20Service.transaction_id := "T2";
     Trc20Service.token_info :=
       Some {| Trc20Service.ti_address := Trc20Service.USDT_CONTRACT;
               Trc20Service.ti_decimals := decimals;
               Trc20Service.ti_symbol := "USDT" |};
     Trc20Service.tx_from := "TPayer";
     Trc20Service.tx_to := "TAlice";
     Trc20Service.tx_value := value;
     Trc20Service.block_timestamp := Some 1700000000000%Z;
     Trc20Service.tx_confirmations := None |}.

Definition transfers (decimals : option Z) (value : Z)
  : Js.Http (option Trc20Service.Body) :=
  Js.Resolved (Some {| Trc20Service.success := true;
                       Trc20Service.data := Some [transfer decimals value] |}).

(** A USDT transfer on BSC as the push channel announces it. *)
Definition T3_pushed : Bep20Service.Event :=
  {| Bep20Service.e_hash := "T3";
     Bep20Service.e_from := "0xpayer";
     Bep20Service.e_to := Some "0xabc1";
     Bep20Service.e_contractAddress := Some Bep20Service.USDT_CONTRACT;
     Bep20Service.e_value := 2 * 10 ^ 18 |}.

(** The same transfer in the history BscScan returns. *)
Definition T3 : Bep20Service.Tx :=
  {| Bep20Service.hash := "T3";
     Bep20Service.tx_from := "0xpayer";
     Bep20Service.tx_to := Some "0xABC1";
     Bep20Service.contractAddress :=
       Some "0x55D398326F99059FF775485246999027B3197955";
     Bep20Service.tx_value := 2 * 10 ^ 18;
     Bep20Service.timeStamp := Some 1700000000%Z;
     Bep20Service.tx_confirmations := 12 |}.

Definition bscHistory : Js.Http Bep20Service.Body :=
  Js.Resolved {| Bep20Service.status := "1"; Bep20Service.result := Some [T3] |}.

(** Providers that know T1 for Alice's BTC address, T3 for her BSC address
    and nothing else, with bitcoin at 50000 USD; and the world of a process
    that has just fetched the directory. *)
Definition providers : Cycle.Providers :=
  {| Cycle.bscscan := fun a =>
       if String.eqb a "0xabc1" then bscHistory
       else Js.Resolved {| Bep20Service.status := "0"; Bep20Service.result := None |};
     Cycle.trongrid := fun _ => Js.Rejected;
     Cycle.blockcypher := fun a =>
       if String.eqb a "bc1alice" then history else Js.Resolved (Some []);
     Cycle.coingecko := price |}.

Definition world : Cycle.World :=
  {| Cycle.directory := owned;
     Cycle.bep20Processed := ∅; Cycle.trc20Processed := ∅;
     Cycle.btcProcessed := ∅; Cycle.requests := [] |}.

(** A deployment with the Moralis and TronGrid keys set. *)
Definition env : Lifecycle.Env :=
  {| Lifecycle.MORALIS_API_KEY := Some "moralis-key";
     Lifecycle.BSCSCAN_WS_KEY := None;
     Lifecycle.TRONGRID_API_KEY := Some "trongrid-key";
     Lifecycle.CHECK_INTERVAL_env := None;
     Lifecycle.ADDRESS_REFRESH_INTERVAL_env := None;
     Lifecycle.TRC20_QUICK_POLL_INTERVAL_env := None |}.

(** Monitoring starts, the three services are initialised (sockets 3 and 4
    open, the quick poll is timer 5), then the BEP20 socket reports an error
    and closes. *)
Definition running : list Lifecycle.Event :=
  [ Lifecycle.StartMonitoring;
    Lifecycle.Init Runtime.Btc false;
    Lifecycle.Init Runtime.Bep20 false;
    Lifecycle.Trc20Init ].

Definition disconnect : list Lifecycle.Event :=
  [ Lifecycle.SocketError Runtime.Bep20;
    Lifecycle.SocketClose Runtime.Bep20 4 ].

End Scenario.


(** ** The deposits the scenarios are expected to produce *)
Module Expected.

(** T1 as the polling-only BTC watcher reports it: 1.5 BTC. *)
Definition T1_deposit : Deposit :=
  {| userId := "alice"; type := "deposit"; asset := "btc"; network := "btc";
     amount := (inject_Z 150000000 / BtcService.satoshisPerBtc)%Q;
     txHash := "T1"; from := "bc1payer"; to := "bc1alice";
     timestamp := 1700000000000; confirmations := 3 |}.

(** T1 as the BTC watcher with the price lookup reports it at 50000 USD. *)
Definition T1_priced : Deposit :=
  {| userId := "alice"; type := "deposit"; asset := "btc"; network := "btc";
     amount := (inject_Z 150000000 / BtcService.satoshisPerBtc * (50000 # 1))%Q;
     txHash := "T1"; from := "bc1payer"; to := "bc1alice";
     timestamp := 1700000000000; confirmations := 3 |}.

(** T1 as the BTC push handler would build it at instant [5], were
    [btcPrice] bound to 50000. *)
Definition T1_pushed : Deposit :=
  {| userId := "alice"; type := "deposit"; asset := "btc"; network := "btc";
     amount := (inject_Z 150000000 / BtcService.satoshisPerBtc * (50000 # 1))%Q;
     txHash := "T1"; from := "bc1payer"; to := "bc1alice";
     timestamp := 5; confirmations := 0 |}.

(** The TRC20 transfer of [value] base units under [decimals]. *)
Definition T2_deposit (decimals value : Z) : Deposit :=
  {| userId := "alice"; type := "deposit"; asset := "usdt"; network := "trc20";
     amount := (inject_Z value / Js.pow10 decimals)%Q;
     txHash := "T2"; from := "TPayer"; to := "TAlice";
     timestamp := 1700000000000; confirmations := 1 |}.

(** T3 as the BEP20 push handler reports it at instant [5]. *)
Definition T3_pushed : Deposit :=
  {| userId := "alice"; type := "deposit"; asset := "usdt"; network := "bep20";
     amount := (inject_Z (2 * 10 ^ 18) / Bep20Service.weiPerUnit)%Q;
     txHash := "T3"; from := "0xpayer"; to := "0xabc1";
     timestamp := 5; confirmations := 1 |}.

End Expected.


(** * Properties *)

Set Warnings "-clear-no-such-hyp".

(** ** The shared shape of the polling loops *)
Section ScanFacts.
Context {T : Type} (key : T → string) (guard : T → Js.Completion bool)
        (select : T → Js.Completion (option Deposit)).
Hypothesis select_key : ∀ tx d, select tx = Js.Normal (Some d) → txHash d = key tx.

Lemma scan_acc (txs : list T) : ∀ acc s,
  Watcher.scan key guard select txs acc s =
  {| pushed := acc ++ pushed (Watcher.scan key guard select txs [] s);
     marked := marked (Watcher.scan key guard select txs [] s);
     raised := raised (Watcher.scan key guard select txs [] s) |}.
Proof.
  clear select_key.
  induction txs as [|tx rest IH]; intros acc s; simpl.
  - unfold finished. simpl. by rewrite app_nil_r.
  - destruct (guard tx) as [[|]|e]; [|apply IH|unfold raise; simpl; by rewrite app_nil_r].
    destruct (decide (key tx ∈ s)); [apply IH|].
    destruct (select tx) as [[d|]|e];
      [|apply IH|unfold raise; simpl; by rewrite app_nil_r].
    rewrite (IH (acc ++ [d])), (IH ([] ++ [d])). simpl.
    by rewrite <- app_assoc.
Qed.

Lemma scan_seen (txs : list T) : ∀ s,
  marked (Watcher.scan key guard select txs [] s) =
  list_to_set (map txHash (pushed (Watcher.scan key guard select txs [] s))) ∪ s.
Proof.
  induction txs as [|tx rest IH]; intros s; simpl.
  - set_solver.
  - destruct (guard tx) as [[|]|e]; [|apply IH|simpl; set_solver].
    destruct (decide (key tx ∈ s)); [apply IH|].
    destruct (select tx) as [[d|]|e] eqn:E; [|apply IH|simpl; set_solver].
    rewrite scan_acc. simpl. rewrite IH.
    rewrite (select_key _ _ E). set_solver.
Qed.

Lemma scan_origin (txs : list T) : ∀ s d,
  d ∈ pushed (Watcher.scan key guard select txs [] s) →
  ∃ tx, tx ∈ txs ∧ guard tx = Js.Normal true
        ∧ select tx = Js.Normal (Some d) ∧ key tx ∉ s.
Proof.
  clear select_key.
  induction txs as [|tx rest IH]; intros s d; simpl.
  - intros H. by apply elem_of_nil in H.
  - assert (∀ s', s ⊆ s' →
              d ∈ pushed (Watcher.scan key guard select rest [] s') →
              ∃ tx0, tx0 ∈ tx :: rest ∧ guard tx0 = Js.Normal true
                     ∧ select tx0 = Js.Normal (Some d) ∧ key tx0 ∉ s) as Hrest.
    { intros s' Hs H. destruct (IH _ _ H) as (tx' & ? & ? & ? & Hk).
      exists tx'. split; [by right|]. repeat split; try done. set_solver. }
    destruct (guard tx) as [[|]|e] eqn:Eg;
      [|by apply Hrest|intros H; by apply elem_of_nil in H].
    destruct (decide (key tx ∈ s)) as [Hin|Hout]; [by apply Hrest|].
    destruct (select tx) as [[d0|]|e] eqn:E;
      [|by apply Hrest|intros H; by apply elem_of_nil in H].
    rewrite scan_acc. simpl. intros H.
    apply elem_of_cons in H as [->|H].
    + exists tx. split; [by left|done].
    + apply (Hrest ({[key tx]} ∪ s)); [set_solver|done].
Qed.

Lemma scan_fresh (txs : list T) (s : gset string) (d : Deposit) :
  d ∈ pushed (Watcher.scan key guard select txs [] s) → txHash d ∉ s.
Proof.
  intros H. destruct (scan_origin _ _ _ H) as (tx & _ & _ & E & Hk).
  by rewrite (select_key _ _ E).
Qed.

Lemma scan_nodup (txs : list T) : ∀ s,
  NoDup (map txHash (pushed (Watcher.scan key guard select txs [] s))).
Proof.
  induction txs as [|tx rest IH]; intros s; simpl.
  - constructor.
  - destruct (guard tx) as [[|]|e]; [|apply IH|constructor].
    destruct (decide (key tx ∈ s)); [apply IH|].
    destruct (select tx) as [[d|]|e] eqn:E; [|apply IH|constructor].
    rewrite scan_acc. simpl. apply NoDup_cons. split; [|done].
    intros Hin. apply list_elem_of_fmap in Hin as (d' & Heq & Hd').
    apply scan_fresh in Hd'. rewrite <- Heq, (select_key _ _ E) in Hd'.
    set_solver.
Qed.



(** The loop is left by an exception exactly when it reaches a transaction
    on which the filter or the selector raises. *)
Lemma scan_calm (txs : list T) : ∀ s,
  (∀ tx, tx ∈ txs → (∀ e, guard tx ≠ Js.Throw e) ∧ (∀ e, select tx ≠ Js.Throw e)) →
  raised (Watcher.scan key guard select txs [] s) = None.
Proof.
  clear select_key.
  induction txs as [|tx rest IH]; intros s Hcalm; simpl; [done|].
  assert (∀ tx, tx ∈ rest →
            (∀ e, guard tx ≠ Js.Throw e) ∧ (∀ e, select tx ≠ Js.Throw e)) as Hrest
    by (intros tx' ?; apply Hcalm; by right).
  destruct (Hcalm tx ltac:(by left)) as [Hg Hs].
  destruct (guard tx) as [[|]|e]; [|by apply IH|by destruct (Hg e)].
  destruct (decide (key tx ∈ s)); [by apply IH|].
  destruct (select tx) as [[d|]|e]; [|by apply IH|by destruct (Hs e)].
  rewrite scan_acc. simpl. by apply IH.
Qed.

End ScanFacts.

(** What [returned] keeps of a pass. *)
Lemma returned_set (pass : Pass) : (returned pass).2 = marked pass.
Proof. unfold returned. by destruct (raised pass). Qed.

Lemma returned_deposits (pass : Pass) :
  (returned pass).1 = pushed pass ∨ (returned pass).1 = [].
Proof. unfold returned. destruct (raised pass); [by right|by left]. Qed.


Lemma returned_elem (pass : Pass) d : d ∈ (returned pass).1 → d ∈ pushed pass.
Proof.
  destruct (returned_deposits pass) as [-> | ->]; [done|].
  intros H. by apply elem_of_nil in H.
Qed.

(** ** Each polling loop is an instance of the shared shape *)

Lemma btc_loop_cons state address tx rest acc s :
  BtcService.loop state address (tx :: rest) acc s =
  match Normalizer.btc_guard tx with
  | Js.Throw e => raise acc s e
  | Js.Normal false => BtcService.loop state address rest acc s
  | Js.Normal true =>
      if decide (BtcService.hash tx ∈ s) then BtcService.loop state address rest acc s
      else match Normalizer.btc state address tx with
           | Js.Throw e => raise acc s e
           | Js.Normal None => BtcService.loop state address rest acc s
           | Js.Normal (Some d) =>
               BtcService.loop state address rest (acc ++ [d])
                 ({[BtcService.hash tx]} ∪ s)
           end
  end.
Proof.
  cbn [BtcService.loop]. unfold Normalizer.btc_guard, Normalizer.btc.
  destruct (decide (BtcService.hash tx ∈ s)); [done|].
  destruct (BtcService.outputs tx) as [outs|]; [|done]. cbv zeta.
  destruct (Nat.eqb _ 0); [done|].
  destruct (AddressService.getUserIdForAddress state address "btc")
    as [[u|]|e]; [|done|done].
  destruct (Js.truthy_string u); [|done].
  destruct (Js.toISOString _) as [time|e]; [|done].
  by destruct (BtcService.inputs tx) as [ins|].
Qed.

Lemma btc_loop_scan state address txs : ∀ acc s,
  BtcService.loop state address txs acc s =
  Watcher.scan BtcService.hash Normalizer.btc_guard
    (Normalizer.btc state address) txs acc s.
Proof.
  induction txs as [|tx rest IH]; intros acc s; [done|].
  rewrite btc_loop_cons. cbn [Watcher.scan].
  destruct (Normalizer.btc_guard tx) as [[|]|e]; [|apply IH|done].
  destruct (decide (BtcService.hash tx ∈ s)); [apply IH|].
  destruct (Normalizer.btc state address tx) as [[d|]|e];
    [apply IH|apply IH|done].
Qed.

Lemma btcWs_loop_cons state address price tx rest acc s :
  BtcServiceWs.loop state address price (tx :: rest) acc s =
  match Normalizer.btc_guard tx with
  | Js.Throw e => raise acc s e
  | Js.Normal false => BtcServiceWs.loop state address price rest acc s
  | Js.Normal true =>
      if decide (BtcService.hash tx ∈ s)
      then BtcServiceWs.loop state address price rest acc s
      else match Normalizer.btcWs state address price tx with
           | Js.Throw e => raise acc s e
           | Js.Normal None => BtcServiceWs.loop state address price rest acc s
           | Js.Normal (Some d) =>
               BtcServiceWs.loop state address price rest (acc ++ [d])
                 ({[BtcService.hash tx]} ∪ s)
           end
  end.
Proof.
  cbn [BtcServiceWs.loop]. unfold Normalizer.btc_guard, Normalizer.btcWs.
  destruct (decide (BtcService.hash tx ∈ s)); [done|].
  destruct (BtcService.outputs tx) as [outs|]; [|done]. cbv zeta.
  destruct (Nat.eqb _ 0); [done|].
  destruct (AddressService.getUserIdForAddress state address "btc")
    as [[u|]|e]; [|done|done].
  destruct (Js.truthy_string u); [|done].
  destruct (Js.toISOString _) as [time|e]; [|done].
  by destruct (BtcService.inputs tx) as [ins|].
Qed.

Lemma btcWs_loop_scan state address price txs : ∀ acc s,
  BtcServiceWs.loop state address price txs acc s =
  Watcher.scan BtcService.hash Normalizer.btc_guard
    (Normalizer.btcWs state address price) txs acc s.
Proof.
  induction txs as [|tx rest IH]; intros acc s; [done|].
  rewrite btcWs_loop_cons. cbn [Watcher.scan].
  destruct (Normalizer.btc_guard tx) as [[|]|e]; [|apply IH|done].
  destruct (decide (BtcService.hash tx ∈ s)); [apply IH|].
  destruct (Normalizer.btcWs state address price tx) as [[d|]|e];
    [apply IH|apply IH|done].
Qed.

Lemma trc20_loop_cons state address tx rest acc s :
  Trc20Service.loop state address (tx :: rest) acc s =
  match Normalizer.trc20_guard address tx with
  | Js.Throw e => raise acc s e
  | Js.Normal false => Trc20Service.loop state address rest acc s
  | Js.Normal true =>
      if decide (Trc20Service.transaction_id tx ∈ s)
      then Trc20Service.loop state address rest acc s
      else match Normalizer.trc20 state address tx with
           | Js.Throw e => raise acc s e
           | Js.Normal None => Trc20Service.loop state address rest acc s
           | Js.Normal (Some d) =>
               Trc20Service.loop state address rest (acc ++ [d])
                 ({[Trc20Service.transaction_id tx]} ∪ s)
           end
  end.
Proof.
  cbn [Trc20Service.loop]. unfold Normalizer.trc20_guard, Normalizer.trc20.
  destruct (Trc20Service.token_info tx) as [info|]; [|done].
  destruct (String.eqb (Trc20Service.ti_address info) _); simpl; [|done].
  destruct (String.eqb (Trc20Service.tx_to tx) address); simpl; [|done].
  destruct (decide (Trc20Service.transaction_id tx ∈ s)) as [Hin|Hout].
  - by rewrite (bool_decide_eq_true_2 _ Hin).
  - rewrite (bool_decide_eq_false_2 _ Hout). simpl.
    destruct (AddressService.getUserIdForAddress state address "trc20")
      as [[u|]|e]; [|done|done].
    destruct (Js.truthy_string u); [|done].
    by destruct (Js.toISOString _) as [time|e].
Qed.

Lemma trc20_loop_scan state address txs : ∀ acc s,
  Trc20Service.loop state address txs acc s =
  Watcher.scan Trc20Service.transaction_id (Normalizer.trc20_guard address)
    (Normalizer.trc20 state address) txs acc s.
Proof.
  induction txs as [|tx rest IH]; intros acc s; [done|].
  rewrite trc20_loop_cons. cbn [Watcher.scan].
  destruct (Normalizer.trc20_guard address tx) as [[|]|e]; [|apply IH|done].
  destruct (decide (Trc20Service.transaction_id tx ∈ s)); [apply IH|].
  destruct (Normalizer.trc20 state address tx) as [[d|]|e];
    [apply IH|apply IH|done].
Qed.

Lemma bep20_loop_cons state address tx rest acc s :
  Bep20Service.loop state address (tx :: rest) acc s =
  match Normalizer.bep20_guard address tx with
  | Js.Throw e => raise acc s e
  | Js.Normal false => Bep20Service.loop state address rest acc s
  | Js.Normal true =>
      if decide (Bep20Service.hash tx ∈ s)
      then Bep20Service.loop state address rest acc s
      else match Normalizer.bep20 state address tx with
           | Js.Throw e => raise acc s e
           | Js.Normal None => Bep20Service.loop state address rest acc s
           | Js.Normal (Some d) =>
               Bep20Service.loop state address rest (acc ++ [d])
                 ({[Bep20Service.hash tx]} ∪ s)
           end
  end.
Proof.
  cbn [Bep20Service.loop]. unfold Normalizer.bep20_guard, Normalizer.bep20.
  destruct (Bep20Service.contractAddress tx) as [contract|]; [|done].
  destruct (String.eqb (Js.toLowerCase contract) _); [|done].
  destruct (Bep20Service.tx_to tx) as [to_|]; [|done].
  destruct (String.eqb (Js.toLowerCase to_) _); simpl; [|done].
  destruct (decide (Bep20Service.hash tx ∈ s)) as [Hin|Hout].
  - by rewrite (bool_decide_eq_true_2 _ Hin).
  - rewrite (bool_decide_eq_false_2 _ Hout). simpl.
    destruct (AddressService.getUserIdForAddress state address "bep20")
      as [[u|]|e]; [|done|done].
    destruct (Js.truthy_string u); [|done].
    by destruct (Js.toISOString _) as [time|e].
Qed.

Lemma bep20_loop_scan state address txs : ∀ acc s,
  Bep20Service.loop state address txs acc s =
  Watcher.scan Bep20Service.hash (Normalizer.bep20_guard address)
    (Normalizer.bep20 state address) txs acc s.
Proof.
  induction txs as [|tx rest IH]; intros acc s; [done|].
  rewrite bep20_loop_cons. cbn [Watcher.scan].
  destruct (Normalizer.bep20_guard address tx) as [[|]|e]; [|apply IH|done].
  destruct (decide (Bep20Service.hash tx ∈ s)); [apply IH|].
  destruct (Normalizer.bep20 state address tx) as [[d|]|e];
    [apply IH|apply IH|done].
Qed.

Lemma normalizer_btc_key state address tx d :
  Normalizer.btc state address tx = Js.Normal (Some d) →
  txHash d = BtcService.hash tx.
Proof.
  unfold Normalizer.btc. intros H.
  repeat (case_match; try discriminate). by inversion H.
Qed.

Lemma normalizer_btcWs_key state address price tx d :
  Normalizer.btcWs state address price tx = Js.Normal (Some d) →
  txHash d = BtcService.hash tx.
Proof.
  unfold Normalizer.btcWs. intros H.
  repeat (case_match; try discriminate). by inversion H.
Qed.

Lemma normalizer_trc20_key state address tx d :
  Normalizer.trc20 state address tx = Js.Normal (Some d) →
  txHash d = Trc20Service.transaction_id tx.
Proof.
  unfold Normalizer.trc20. intros H.
  repeat (case_match; try discriminate). by inversion H.
Qed.

Lemma normalizer_bep20_key state address tx d :
  Normalizer.bep20 state address tx = Js.Normal (Some d) →
  txHash d = Bep20Service.hash tx.
Proof.
  unfold Normalizer.bep20. intros H.
  repeat (case_match; try discriminate). by inversion H.
Qed.

(** ** Handlers that keep the set and the returned deposits in step *)

Lemma dedups_nothing : Watcher.dedups (fun s => ([], s)).
Proof.
  intros s. simpl. split; [constructor|]. split; [|set_solver].
  intros d H. by apply elem_of_nil in H.
Qed.

Lemma dedups_scan {T : Type} (key : T → string) (guard : T → Js.Completion bool)
    (select : T → Js.Completion (option Deposit)) (txs : list T) :
  (∀ tx d, select tx = Js.Normal (Some d) → txHash d = key tx) →
  Watcher.dedups (λ s, returned (Watcher.scan key guard select txs [] s)).
Proof.
  intros Hkey s. cbv beta. rewrite returned_set.
  pose proof (scan_seen key guard select Hkey txs s) as Hseen.
  destruct (returned_deposits (Watcher.scan key guard select txs [] s))
    as [-> | ->].
  - split; [by apply scan_nodup|].
    split; [intros d; by apply scan_fresh|]. by rewrite Hseen.
  - split; [constructor|]. split; [intros d H; by apply elem_of_nil in H|].
    rewrite Hseen. set_solver.
Qed.

Lemma dedups_ext f g : (∀ s, f s = g s) → Watcher.dedups g → Watcher.dedups f.
Proof. intros E H s. rewrite E. apply H. Qed.

Lemma btc_checkAddress_dedups state address response :
  Watcher.dedups (BtcService.checkAddress state address response).
Proof.
  intros s. unfold BtcService.checkAddress.
  destruct response as [|[txs|]]; try apply (dedups_nothing s).
  rewrite btc_loop_scan.
  apply (dedups_scan _ _ _ txs (normalizer_btc_key state address) s).
Qed.

Lemma btcWs_checkAddress_dedups state address response price :
  Watcher.dedups (BtcServiceWs.checkAddress state address response price).
Proof.
  intros s. unfold BtcServiceWs.checkAddress.
  destruct response as [|[txs|]]; try apply (dedups_nothing s).
  cbv zeta. rewrite btcWs_loop_scan.
  apply (dedups_scan _ _ _ txs (normalizer_btcWs_key state address _) s).
Qed.

Lemma trc20_checkAddress_dedups state address response :
  Watcher.dedups (Trc20Service.checkAddress state address response).
Proof.
  intros s. unfold Trc20Service.checkAddress.
  destruct response as [|[body|]]; try apply (dedups_nothing s).
  destruct (negb (Trc20Service.success body)); [apply (dedups_nothing s)|].
  cbv zeta. rewrite trc20_loop_scan.
  apply (dedups_scan _ _ _ _ (normalizer_trc20_key state address) s).
Qed.

Lemma bep20_checkAddress_dedups state address response :
  Watcher.dedups (Bep20Service.checkAddress state address response).
Proof.
  intros s. unfold Bep20Service.checkAddress.
  destruct response as [|body]; try apply (dedups_nothing s).
  destruct (negb (String.eqb (Bep20Service.status body) "1"));
    [apply (dedups_nothing s)|].
  cbv zeta. rewrite bep20_loop_scan.
  apply (dedups_scan _ _ _ _ (normalizer_bep20_key state address) s).
Qed.

(** ** The push handlers *)

(** Without a binding for [btcPrice] the output loop never builds a
    deposit: it returns the deposits it was given, or it raises. *)
Lemma rt_loop_unbound state now tx outs : ∀ acc,
  BtcServiceWs.rt_loop None state now tx outs acc = Js.Normal acc
  ∨ ∃ e, BtcServiceWs.rt_loop None state now tx outs acc = Js.Throw e.
Proof.
  induction outs as [|o rest IH]; intros acc; simpl; [by left|].
  destruct (BtcServiceWs.watched state o) as [[a|]|e]; [|apply IH|right; by eexists].
  destruct (AddressService.getUserIdForAddress state a "btc") as [[u|]|e];
    [|apply IH|right; by eexists].
  destruct (Js.truthy_string u); [right; by eexists|apply IH].
Qed.


Lemma btcWs_push_nothing state now tx s :
  BtcServiceWs.processRealTimeTransaction state now tx s = ([], s).
Proof.
  unfold BtcServiceWs.processRealTimeTransaction,
    BtcServiceWs.processRealTimeTransaction_in, BtcServiceWs.btcPrice_in_scope.
  destruct (decide (BtcServiceWs.rt_hash tx ∈ s)); [done|].
  destruct (BtcServiceWs.out tx) as [outs|]; [|done].
  destruct (rt_loop_unbound state now tx outs []) as [-> | [e ->]]; done.
Qed.

Lemma bep20_push_dedups state now tx :
  Watcher.dedups (Bep20Service.processRealTimeTransaction state now tx).
Proof.
  intros s. unfold Bep20Service.processRealTimeTransaction.
  destruct (decide (Bep20Service.e_hash tx ∈ s)) as [Hin|Hout];
    [apply (dedups_nothing s)|].
  repeat (case_match; try apply (dedups_nothing s)).
  simpl. split; [apply NoDup_singleton|].
  split; [|set_solver].
  intros d Hd. apply list_elem_of_singleton in Hd. by subst d.
Qed.

(** ** Runs of a watcher *)

Lemma run_dedups {E : Type} (handle : Watcher.Handler E) :
  (∀ e, Watcher.dedups (handle e)) →
  ∀ events, Watcher.dedups (Watcher.run handle events).
Proof.
  intros Hstep events. induction events as [|e rest IH]; intros s.
  - apply (dedups_nothing s).
  - simpl. destruct (Hstep e s) as (Hnd & Hfresh & Hset).
    destruct (handle e s) as [ds s1] eqn:E1. simpl in *.
    destruct (IH s1) as (Hnd' & Hfresh' & Hset').
    destruct (Watcher.run handle rest s1) as [later s2] eqn:E2. simpl in *.
    split; [|split].
    + rewrite map_app. apply NoDup_app. split; [done|]. split; [|done].
      intros h Hh Hh'. apply list_elem_of_fmap in Hh' as (d' & -> & Hd').
      apply Hfresh' in Hd'. set_solver.
    + intros d Hd. apply elem_of_app in Hd as [Hd|Hd]; [by apply Hfresh|].
      apply Hfresh' in Hd. set_solver.
    + rewrite map_app, list_to_set_app_L. set_solver.
Qed.

Lemma carrying_absent (h : string) (ds : list Deposit) :
  h ∉ map txHash ds → Watcher.carrying h ds = [].
Proof.
  induction ds as [|d rest IH]; simpl; [done|].
  intros Hnotin. apply not_elem_of_cons in Hnotin as [Hne Hrest].
  destruct (String.eqb (txHash d) h) eqn:E; [|by apply IH].
  apply String.eqb_eq in E. congruence.
Qed.

Lemma carrying_at_most_one (h : string) (ds : list Deposit) :
  NoDup (map txHash ds) → (List.length (Watcher.carrying h ds) ≤ 1)%nat.
Proof.
  induction ds as [|d rest IH]; simpl; [lia|].
  intros Hnd. apply NoDup_cons in Hnd as [Hnotin Hnd].
  destruct (String.eqb (txHash d) h) eqn:E; [|by apply IH].
  apply String.eqb_eq in E. subst h. simpl.
  rewrite carrying_absent by done. simpl. lia.
Qed.

Lemma emitted_at_most_once {E : Type} (handle : Watcher.Handler E) :
  (∀ e, Watcher.dedups (handle e)) →
  ∀ events h, (List.length (Watcher.carrying h (Watcher.emitted handle events)) ≤ 1)%nat.
Proof.
  intros Hstep events h. apply carrying_at_most_one.
  apply (run_dedups handle Hstep events ∅).
Qed.

Lemma btcWs_dedups e : Watcher.dedups (Watcher.btcWs e).
Proof.
  destruct e as [state address response price|state now tx].
  - apply btcWs_checkAddress_dedups.
  - eapply dedups_ext; [|apply dedups_nothing].
    intros s. apply btcWs_push_nothing.
Qed.

Lemma btc_dedups e : Watcher.dedups (Watcher.btc e).
Proof. destruct e. apply btc_checkAddress_dedups. Qed.

Lemma trc20_dedups e : Watcher.dedups (Watcher.trc20 e).
Proof. destruct e. apply trc20_checkAddress_dedups. Qed.

Lemma bep20_dedups e : Watcher.dedups (Watcher.bep20 e).
Proof.
  destruct e; [apply bep20_checkAddress_dedups|apply bep20_push_dedups].
Qed.

(** C1. For each watcher -- BTC (polling only, and polling with the push
    channel), BEP20 (polling and push) and TRC20 (polling) -- and for every
    sequence of detections, in any order and with any provider answers and
    directory snapshots, at most one of the deposits the watcher returns
    during the process lifetime carries a given transaction hash. *)
Theorem C1_at_most_one_deposit_per_hash :
  (∀ events h, (List.length (Watcher.carrying h (Watcher.emitted Watcher.btc events)) ≤ 1)%nat)
  ∧ (∀ events h, (List.length (Watcher.carrying h (Watcher.emitted Watcher.btcWs events)) ≤ 1)%nat)
  ∧ (∀ events h, (List.length (Watcher.carrying h (Watcher.emitted Watcher.bep20 events)) ≤ 1)%nat)
  ∧ (∀ events h, (List.length (Watcher.carrying h (Watcher.emitted Watcher.trc20 events)) ≤ 1)%nat).
Proof.
  repeat split; intros events h; apply emitted_at_most_once.
  - apply btc_dedups.
  - apply btcWs_dedups.
  - apply bep20_dedups.
  - apply trc20_dedups.
Qed.

(** T1 is worth 1.5 BTC to Alice; polled a second time with the same
    provider answer it is not returned again. *)
Example poll_twice :
  Watcher.emitted Watcher.btc
    [ Watcher.BtcPoll Scenario.owned "bc1alice" Scenario.history;
      Watcher.BtcPoll Scenario.owned "bc1bob" (Js.Resolved (Some []));
      Watcher.BtcPoll Scenario.owned "bc1alice" Scenario.history ]
  = [Expected.T1_deposit]
  ∧ (amount Expected.T1_deposit == 3 # 2)%Q.
Proof. split; [vm_compute; reflexivity|reflexivity]. Qed.

(** T3 announced by the push channel and then seen by the poll, or the
    other way round, is returned once. *)
Example push_then_poll :
  map txHash
    (Watcher.emitted Watcher.bep20
       [ Watcher.Bep20Push Scenario.owned 5 Scenario.T3_pushed;
         Watcher.Bep20Poll Scenario.owned "0xabc1" Scenario.bscHistory ])
  = ["T3"]
  ∧ map txHash
      (Watcher.emitted Watcher.bep20
         [ Watcher.Bep20Poll Scenario.owned "0xabc1" Scenario.bscHistory;
           Watcher.Bep20Push Scenario.owned 5 Scenario.T3_pushed ])
    = ["T3"].
Proof. split; vm_compute; reflexivity. Qed.



(** ** Amounts *)

(** [reduce] from the left with [+] is the sum of the values. *)
Lemma totalReceived_sum (l : list BtcService.Output) :
  BtcService.totalReceived l = foldr Z.add 0%Z (map BtcService.o_value l).
Proof.
  unfold BtcService.totalReceived.
  assert (∀ a, fold_left (λ sum o, (sum + BtcService.o_value o)%Z) l a
               = (a + foldr Z.add 0 (map BtcService.o_value l))%Z) as H.
  { induction l as [|o rest IH]; intros a; simpl; [lia|]. rewrite IH. lia. }
  rewrite H. lia.
Qed.

Lemma btc_checkAddress_origin state address response s d :
  d ∈ (BtcService.checkAddress state address response s).1 →
  ∃ txs tx, response = Js.Resolved (Some txs) ∧ tx ∈ txs
            ∧ Normalizer.btc state address tx = Js.Normal (Some d).
Proof.
  unfold BtcService.checkAddress.
  destruct response as [|[txs|]]; simpl; try (intros H; by apply elem_of_nil in H).
  rewrite btc_loop_scan. intros H. apply returned_elem in H.
  apply scan_origin in H as (tx & ? & _ & ? & _). by exists txs, tx.
Qed.

Lemma btcWs_checkAddress_origin state address response price s d :
  d ∈ (BtcServiceWs.checkAddress state address response price s).1 →
  ∃ txs tx, response = Js.Resolved (Some txs) ∧ tx ∈ txs
            ∧ Normalizer.btcWs state address (BtcServiceWs.getBtcPrice price) tx
              = Js.Normal (Some d).
Proof.
  unfold BtcServiceWs.checkAddress.
  destruct response as [|[txs|]]; simpl; try (intros H; by apply elem_of_nil in H).
  rewrite btcWs_loop_scan. intros H. apply returned_elem in H.
  apply scan_origin in H as (tx & ? & _ & ? & _). by exists txs, tx.
Qed.

(** Two selectors that raise on the same transactions and turn the same
    transactions into deposits, with the same hashes, give the same hashes,
    the same set and the same exception. *)
Lemma scan_hashes_ext {T : Type} (key : T → string) (guard : T → Js.Completion bool)
    (sel1 sel2 : T → Js.Completion (option Deposit)) :
  (∀ tx, Watcher.sameHashes (sel1 tx) (sel2 tx)) →
  ∀ txs s,
    map txHash (pushed (Watcher.scan key guard sel1 txs [] s))
    = map txHash (pushed (Watcher.scan key guard sel2 txs [] s))
    ∧ marked (Watcher.scan key guard sel1 txs [] s)
      = marked (Watcher.scan key guard sel2 txs [] s)
    ∧ raised (Watcher.scan key guard sel1 txs [] s)
      = raised (Watcher.scan key guard sel2 txs [] s).
Proof.
  intros Hext txs. induction txs as [|tx rest IH]; intros s; simpl; [done|].
  destruct (guard tx) as [[|]|e]; [|apply IH|done].
  destruct (decide (key tx ∈ s)); [apply IH|].
  specialize (Hext tx). unfold Watcher.sameHashes in Hext.
  destruct (sel1 tx) as [[d1|]|e1], (sel2 tx) as [[d2|]|e2]; try done;
    [|by subst].
  rewrite (scan_acc key guard sel1 rest [d1]), (scan_acc key guard sel2 rest [d2]).
  simpl. destruct (IH ({[key tx]} ∪ s)) as (-> & -> & ->). by rewrite Hext.
Qed.

(** The answer to the price request changes neither which transactions
    become deposits nor where the loop raises. *)
Lemma normalizer_btcWs_price state address p1 p2 tx :
  Watcher.sameHashes (Normalizer.btcWs state address p1 tx)
             (Normalizer.btcWs state address p2 tx).
Proof.
  unfold Watcher.sameHashes, Normalizer.btcWs.
  destruct (BtcService.outputs tx) as [outs|]; [|done]. cbv zeta.
  destruct (Nat.eqb _ 0); [done|].
  destruct (AddressService.getUserIdForAddress state address "btc")
    as [[u|]|e]; [|done|done].
  destruct (Js.truthy_string u); [|done].
  destruct (Js.toISOString _) as [time|e]; [|done].
  by destruct (BtcService.inputs tx).
Qed.

Lemma normalizer_btc_amount state address tx d :
  Normalizer.btc state address tx = Js.Normal (Some d) →
  ∃ outs, BtcService.outputs tx = Some outs
    ∧ amount d = (inject_Z (foldr Z.add 0%Z
                    (map BtcService.o_value
                       (List.filter (BtcService.paysTo address) outs)))
                  / BtcService.satoshisPerBtc)%Q.
Proof.
  unfold Normalizer.btc. intros H.
  destruct (BtcService.outputs tx) as [outs|]; [|done]. exists outs.
  split; [done|]. cbv zeta in H.
  repeat (case_match; try discriminate). inversion H. simpl.
  by rewrite totalReceived_sum.
Qed.

Lemma normalizer_btcWs_amount state address usd tx d :
  Normalizer.btcWs state address (Some usd) tx = Js.Normal (Some d) →
  ∃ outs, BtcService.outputs tx = Some outs
    ∧ amount d = (inject_Z (foldr Z.add 0%Z
                    (map BtcService.o_value
                       (List.filter (BtcService.paysTo address) outs)))
                  / BtcService.satoshisPerBtc * usd)%Q.
Proof.
  unfold Normalizer.btcWs. intros H.
  destruct (BtcService.outputs tx) as [outs|]; [|done]. exists outs.
  split; [done|]. cbv zeta in H.
  repeat (case_match; try discriminate). inversion H. simpl.
  by rewrite totalReceived_sum.
Qed.

(** C2, as stated, fails for the watcher with the price lookup: T1 pays
    1.5 BTC to the watched address, and the deposit carries 75000 when the
    price is 50000 and 0 when the price request fails. *)
Lemma C2_counterexample :
  ∃ d1 d2 outs,
    (BtcServiceWs.checkAddress Scenario.owned "bc1alice" Scenario.history
       Scenario.price ∅).1 = [d1]
    ∧ (BtcServiceWs.checkAddress Scenario.owned "bc1alice" Scenario.history
         Js.Rejected ∅).1 = [d2]
    ∧ BtcService.outputs Scenario.T1 = Some outs
    ∧ ¬ (amount d1 ==
         inject_Z (BtcService.totalReceived
                     (List.filter (BtcService.paysTo "bc1alice") outs))
         / BtcService.satoshisPerBtc)%Q
    ∧ ¬ (amount d2 ==
         inject_Z (BtcService.totalReceived
                     (List.filter (BtcService.paysTo "bc1alice") outs))
         / BtcService.satoshisPerBtc)%Q
    ∧ (amount d1 == 75000 # 1)%Q ∧ (amount d2 == 0)%Q.
Proof.
  eexists. eexists. eexists.
  split; [vm_compute; reflexivity|].
  split; [vm_compute; reflexivity|].
  split; [reflexivity|].
  repeat split; vm_compute; congruence.
Qed.

(** C2 (amended). A deposit of the polling-only BTC watcher carries the sum
    of the outputs paying the watched address, in satoshis, over 10^8.  A
    deposit of the watcher with the price lookup carries that quotient times
    the price when the lookup returns one.  The answer to the price request
    never blocks a deposit: the hashes returned and the set afterwards do
    not depend on it. *)
Theorem C2_btc_poll_amount :
  (∀ state address response s d,
     d ∈ (BtcService.checkAddress state address response s).1 →
     ∃ txs tx outs, response = Js.Resolved (Some txs) ∧ tx ∈ txs
       ∧ txHash d = BtcService.hash tx
       ∧ BtcService.outputs tx = Some outs
       ∧ amount d =
         (inject_Z (foldr Z.add 0%Z
            (map BtcService.o_value
               (List.filter (BtcService.paysTo address) outs)))
          / BtcService.satoshisPerBtc)%Q)
  ∧ (∀ state address response usd s d,
       d ∈ (BtcServiceWs.checkAddress state address response (Js.Resolved usd) s).1 →
       ∃ txs tx outs, response = Js.Resolved (Some txs) ∧ tx ∈ txs
         ∧ txHash d = BtcService.hash tx
         ∧ BtcService.outputs tx = Some outs
         ∧ amount d =
           (inject_Z (foldr Z.add 0%Z
              (map BtcService.o_value
                 (List.filter (BtcService.paysTo address) outs)))
            / BtcService.satoshisPerBtc * usd)%Q)
  ∧ (∀ state address response price1 price2 s,
       map txHash (BtcServiceWs.checkAddress state address response price1 s).1
       = map txHash (BtcServiceWs.checkAddress state address response price2 s).1
       ∧ (BtcServiceWs.checkAddress state address response price1 s).2
         = (BtcServiceWs.checkAddress state address response price2 s).2).
Proof.
  split; [|split].
  - intros state address response s d Hd.
    apply btc_checkAddress_origin in Hd as (txs & tx & -> & Hin & Hsel).
    destruct (normalizer_btc_amount _ _ _ _ Hsel) as (outs & Ho & Ha).
    exists txs, tx, outs. repeat split; try done.
    by eapply normalizer_btc_key.
  - intros state address response usd s d Hd.
    apply btcWs_checkAddress_origin in Hd as (txs & tx & -> & Hin & Hsel).
    destruct (normalizer_btcWs_amount _ _ _ _ _ Hsel) as (outs & Ho & Ha).
    exists txs, tx, outs. repeat split; try done.
    by eapply normalizer_btcWs_key.
  - intros state address response price1 price2 s.
    unfold BtcServiceWs.checkAddress.
    destruct response as [|[txs|]]; try done. cbv zeta.
    rewrite !btcWs_loop_scan.
    destruct (scan_hashes_ext BtcService.hash Normalizer.btc_guard
                (Normalizer.btcWs state address (BtcServiceWs.getBtcPrice price1))
                (Normalizer.btcWs state address (BtcServiceWs.getBtcPrice price2))
                (λ tx, normalizer_btcWs_price state address _ _ tx) txs s)
      as (Hp & Hm & Hr).
    unfold returned. rewrite Hr, Hm. clear Hr Hm.
    destruct (raised _); simpl; [done|by rewrite Hp].
Qed.

(** Both watchers return a deposit for T1: 1.5 without the price lookup,
    1.5 times 50000 with it. *)
Lemma C2_witness :
  (Expected.T1_deposit
     ∈ (BtcService.checkAddress Scenario.owned "bc1alice" Scenario.history ∅).1
   ∧ ∃ txs tx outs, Scenario.history = Js.Resolved (Some txs) ∧ tx ∈ txs
       ∧ txHash Expected.T1_deposit = BtcService.hash tx
       ∧ BtcService.outputs tx = Some outs
       ∧ amount Expected.T1_deposit =
         (inject_Z (foldr Z.add 0%Z
            (map BtcService.o_value
               (List.filter (BtcService.paysTo "bc1alice") outs)))
          / BtcService.satoshisPerBtc)%Q)
  ∧ (Expected.T1_priced
       ∈ (BtcServiceWs.checkAddress Scenario.owned "bc1alice" Scenario.history
            Scenario.price ∅).1
     ∧ ∃ txs tx outs, Scenario.history = Js.Resolved (Some txs) ∧ tx ∈ txs
         ∧ txHash Expected.T1_priced = BtcService.hash tx
         ∧ BtcService.outputs tx = Some outs
         ∧ amount Expected.T1_priced =
           (inject_Z (foldr Z.add 0%Z
              (map BtcService.o_value
                 (List.filter (BtcService.paysTo "bc1alice") outs)))
            / BtcService.satoshisPerBtc * (50000 # 1))%Q).
Proof.
  assert (Expected.T1_deposit
          ∈ (BtcService.checkAddress Scenario.owned "bc1alice" Scenario.history ∅).1)
    as H1 by (apply list_elem_of_In; vm_compute; left; reflexivity).
  assert (Expected.T1_priced
          ∈ (BtcServiceWs.checkAddress Scenario.owned "bc1alice" Scenario.history
               Scenario.price ∅).1)
    as H2 by (apply list_elem_of_In; vm_compute; left; reflexivity).
  split; (split; [assumption|]).
  - exact (proj1 C2_btc_poll_amount _ _ _ _ _ H1).
  - exact (proj1 (proj2 C2_btc_poll_amount) _ _ _ _ _ _ H2).
Defined.

(** ** What the push handlers put into a deposit *)

Lemma rt_loop_fields binding state now tx outs : ∀ acc ds,
  (∀ d, d ∈ acc → confirmations d = 0%Z ∧ timestamp d = now) →
  BtcServiceWs.rt_loop binding state now tx outs acc = Js.Normal ds →
  ∀ d, d ∈ ds → confirmations d = 0%Z ∧ timestamp d = now.
Proof.
  induction outs as [|o rest IH]; intros acc ds Hacc; simpl.
  - intros [= <-]. exact Hacc.
  - destruct (BtcServiceWs.watched state o) as [[a|]|e];
      [|by apply IH|discriminate].
    destruct (AddressService.getUserIdForAddress state a "btc") as [[u|]|e];
      [|by apply IH|discriminate].
    destruct (Js.truthy_string u); [|by apply IH].
    destruct (BtcServiceWs.resolve_btcPrice binding) as [p|e]; [|discriminate].
    apply IH. intros d Hd. apply elem_of_app in Hd as [Hd|Hd]; [by apply Hacc|].
    apply list_elem_of_singleton in Hd. by subst d.
Qed.

(** C3, as stated, fails for the BEP20 push handler: the deposit it returns
    for [Scenario.T3_pushed] carries one confirmation. *)
Lemma C3_counterexample :
  ∃ d, (Bep20Service.processRealTimeTransaction Scenario.owned 5
          Scenario.T3_pushed ∅).1 = [d]
       ∧ confirmations d = 1%Z ∧ confirmations d ≠ 0%Z.
Proof.
  eexists. split; [vm_compute; reflexivity|]. by split.
Qed.

(** C3 (amended). Every deposit a push handler builds carries the instant
    of receipt as its timestamp; the deposits of the BEP20 handler carry
    [confirmations = 1], and the deposits the BTC handler builds carry
    [confirmations = 0], whatever [btcPrice] is bound to. *)
Theorem C3_push_deposit_fields :
  (∀ state now tx s d,
     d ∈ (Bep20Service.processRealTimeTransaction state now tx s).1 →
     confirmations d = 1%Z ∧ timestamp d = now ∧ txHash d = Bep20Service.e_hash tx)
  ∧ (∀ binding state now tx s d,
       d ∈ (BtcServiceWs.processRealTimeTransaction_in binding state now tx s).1 →
       confirmations d = 0%Z ∧ timestamp d = now).
Proof.
  split.
  - intros state now tx s d. unfold Bep20Service.processRealTimeTransaction.
    repeat (case_match; try (intros Hd; by apply elem_of_nil in Hd)).
    intros Hd. apply list_elem_of_singleton in Hd. by subst d.
  - intros binding state now tx s d.
    unfold BtcServiceWs.processRealTimeTransaction_in.
    destruct (decide (BtcServiceWs.rt_hash tx ∈ s));
      [intros H; by apply elem_of_nil in H|].
    destruct (BtcServiceWs.out tx) as [outs|].
    + destruct (BtcServiceWs.rt_loop binding state now tx outs []) as [ds|e] eqn:E;
        [|intros H; by apply elem_of_nil in H].
      intros Hd. eapply (rt_loop_fields _ _ _ _ _ [] ds); [|exact E|].
      * intros d' H. by apply elem_of_nil in H.
      * by destruct (Nat.ltb 0 (List.length ds)).
    + simpl. intros H. by apply elem_of_nil in H.
Qed.

(** The BEP20 handler returns a deposit for T3, and so would the BTC
    handler for T1 under a binding of [btcPrice]. *)
Lemma C3_witness :
  (Expected.T3_pushed
     ∈ (Bep20Service.processRealTimeTransaction Scenario.owned 5
          Scenario.T3_pushed ∅).1
   ∧ confirmations Expected.T3_pushed = 1%Z
   ∧ timestamp Expected.T3_pushed = 5%Z
   ∧ txHash Expected.T3_pushed = Bep20Service.e_hash Scenario.T3_pushed)
  ∧ (Expected.T1_pushed
       ∈ (BtcServiceWs.processRealTimeTransaction_in (Some (Some (50000 # 1)))
            Scenario.owned 5 Scenario.T1_pushed ∅).1
     ∧ confirmations Expected.T1_pushed = 0%Z
     ∧ timestamp Expected.T1_pushed = 5%Z).
Proof.
  assert (Expected.T3_pushed
          ∈ (Bep20Service.processRealTimeTransaction Scenario.owned 5
               Scenario.T3_pushed ∅).1)
    as H1 by (apply list_elem_of_In; vm_compute; left; reflexivity).
  assert (Expected.T1_pushed
          ∈ (BtcServiceWs.processRealTimeTransaction_in (Some (Some (50000 # 1)))
               Scenario.owned 5 Scenario.T1_pushed ∅).1)
    as H2 by (apply list_elem_of_In; vm_compute; left; reflexivity).
  split; (split; [assumption|]).
  - exact (proj1 C3_push_deposit_fields _ _ _ _ _ H1).
  - exact (proj2 C3_push_deposit_fields _ _ _ _ _ _ H2).
Defined.

(** ** TRC20 amounts *)

Lemma trc20_checkAddress_origin state address response s d :
  d ∈ (Trc20Service.checkAddress state address response s).1 →
  ∃ body tx, response = Js.Resolved (Some body)
             ∧ Trc20Service.success body = true
             ∧ tx ∈ match Trc20Service.data body with Some l => l | None => [] end
             ∧ Normalizer.trc20 state address tx = Js.Normal (Some d).
Proof.
  unfold Trc20Service.checkAddress.
  destruct response as [|[body|]]; try (intros H; by apply elem_of_nil in H).
  destruct (Trc20Service.success body) eqn:Es; simpl;
    [|intros H; by apply elem_of_nil in H].
  rewrite trc20_loop_scan. intros H. apply returned_elem in H.
  apply scan_origin in H as (tx & ? & _ & ? & _). by exists body, tx.
Qed.

Lemma normalizer_trc20_amount state address tx d :
  Normalizer.trc20 state address tx = Js.Normal (Some d) →
  ∃ info, Trc20Service.token_info tx = Some info
    ∧ amount d =
      (inject_Z (Trc20Service.tx_value tx)
       / Js.pow10 match Trc20Service.ti_decimals info with
                  | Some n => if Z.eqb n 0 then 6 else n
                  | None => 6
                  end)%Q.
Proof.
  unfold Normalizer.trc20.
  destruct (Trc20Service.token_info tx) as [info|]; [|discriminate].
  intros H. exists info. split; [done|].
  destruct (AddressService.getUserIdForAddress state address "trc20")
    as [[u|]|e]; try discriminate.
  destruct (Js.truthy_string u); [|discriminate].
  destruct (Js.toISOString _); [|discriminate].
  by inversion H.
Qed.

(** C7, as stated, fails when the metadata gives [decimals = 0]: the
    provider does not omit it, yet the amount is [value / 10^6] and not
    [value / 10^0]. *)
Lemma C7_counterexample :
  ∃ d, (Trc20Service.checkAddress Scenario.owned "TAlice"
          (Scenario.transfers (Some 0%Z) 5) ∅).1 = [d]
       ∧ ¬ (amount d == inject_Z 5 / Js.pow10 0)%Q
       ∧ (amount d == inject_Z 5 / Js.pow10 6)%Q.
Proof.
  eexists. split; [vm_compute; reflexivity|].
  split; vm_compute; congruence.
Qed.

(** C7 (amended). The amount of a TRC20 deposit is the raw value over
    [10^decimals], where [decimals] is the one of the transaction's token
    metadata, and 6 when the metadata omits it or gives 0. *)
Theorem C7_trc20_amount state address response s d :
  d ∈ (Trc20Service.checkAddress state address response s).1 →
  ∃ body tx info, response = Js.Resolved (Some body)
    ∧ tx ∈ match Trc20Service.data body with Some l => l | None => [] end
    ∧ txHash d = Trc20Service.transaction_id tx
    ∧ Trc20Service.token_info tx = Some info
    ∧ amount d =
      (inject_Z (Trc20Service.tx_value tx)
       / Js.pow10 match Trc20Service.ti_decimals info with
                  | Some n => if Z.eqb n 0 then 6 else n
                  | None => 6
                  end)%Q.
Proof.
  intros Hd.
  apply trc20_checkAddress_origin in Hd as (body & tx & -> & _ & Hin & Hsel).
  destruct (normalizer_trc20_amount _ _ _ _ Hsel) as (info & Hi & Ha).
  exists body, tx, info. repeat split; try done.
  by eapply normalizer_trc20_key.
Qed.

(** A transfer of 1000000 base units under 6 decimals is a deposit of 1. *)
Lemma C7_witness :
  Expected.T2_deposit 6 1000000
    ∈ (Trc20Service.checkAddress Scenario.owned "TAlice"
         (Scenario.transfers (Some 6%Z) 1000000) ∅).1
  ∧ (amount (Expected.T2_deposit 6 1000000) == 1)%Q
  ∧ ∃ body tx info,
      Scenario.transfers (Some 6%Z) 1000000 = Js.Resolved (Some body)
      ∧ tx ∈ match Trc20Service.data body with Some l => l | None => [] end
      ∧ txHash (Expected.T2_deposit 6 1000000) = Trc20Service.transaction_id tx
      ∧ Trc20Service.token_info tx = Some info
      ∧ amount (Expected.T2_deposit 6 1000000) =
        (inject_Z (Trc20Service.tx_value tx)
         / Js.pow10 match Trc20Service.ti_decimals info with
                    | Some n => if Z.eqb n 0 then 6 else n
                    | None => 6
                    end)%Q.
Proof.
  assert (Expected.T2_deposit 6 1000000
          ∈ (Trc20Service.checkAddress Scenario.owned "TAlice"
               (Scenario.transfers (Some 6%Z) 1000000) ∅).1)
    as H by (apply list_elem_of_In; vm_compute; left; reflexivity).
  split; [assumption|]. split; [reflexivity|].
  exact (C7_trc20_amount _ _ _ _ _ H).
Defined.

(** ** The directory refresh *)

(** C6. A refresh that fails -- the request fails, or the body's success
    flag is false -- returns [false] and leaves both the grouped lists and
    the detailed records as they were, so that [getAddresses] returns the
    snapshot it returned before.  In general a refresh either changes
    nothing and returns [false], or replaces both structures from the one
    payload; in that case it returns [true] when the payload carries the
    three lists, and [false] when one of them is missing. *)
Theorem C6_failed_refresh_keeps_snapshot state response :
  (AddressService.failed response = true →
   AddressService.fetchAddresses response state = (false, state)
   ∧ AddressService.getAddresses (AddressService.fetchAddresses response state).2
     = AddressService.getAddresses state
   ∧ AddressService.addressDetails (AddressService.fetchAddresses response state).2
     = AddressService.addressDetails state)
  ∧ (AddressService.fetchAddresses response state = (false, state)
     ∨ ∃ body d g, response = Js.Resolved body
         ∧ AddressService.success body = true
         ∧ AddressService.data body = Some d
         ∧ AddressService.grouped d = Some g
         ∧ AddressService.getAddresses (AddressService.fetchAddresses response state).2
           = {| AddressService.bep20 := AddressService.bep20Addresses g;
                AddressService.trc20 := AddressService.trc20Addresses g;
                AddressService.btc := AddressService.btcAddresses g |}
         ∧ AddressService.addressDetails (AddressService.fetchAddresses response state).2
           = AddressService.detailed d
         ∧ (AddressService.fetchAddresses response state).1
           = match AddressService.bep20Addresses g,
                   AddressService.trc20Addresses g,
                   AddressService.btcAddresses g with
             | Some _, Some _, Some _ => true
             | _, _, _ => false
             end).
Proof.
  split.
  - intros Hfail.
    assert (AddressService.fetchAddresses response state = (false, state)) as E.
    { destruct response as [|body]; [done|]. simpl in *. by rewrite Hfail. }
    by rewrite E.
  - destruct response as [|body]; [by left|]. simpl.
    destruct (AddressService.success body) eqn:Es; simpl; [|by left].
    destruct (AddressService.data body) as [d|] eqn:Ed; [|by left].
    destruct (AddressService.grouped d) as [g|] eqn:Eg; [|by left].
    right. exists body, d, g.
    destruct (AddressService.bep20Addresses g),
      (AddressService.trc20Addresses g), (AddressService.btcAddresses g);
      by repeat split.
Qed.

(** A rejected request and a body with [success: false] both leave the
    snapshot of [Scenario.owned] in place. *)
Lemma C6_witness :
  (AddressService.fetchAddresses Js.Rejected Scenario.owned = (false, Scenario.owned)
   ∧ AddressService.getAddresses
       (AddressService.fetchAddresses Js.Rejected Scenario.owned).2
     = AddressService.getAddresses Scenario.owned
   ∧ AddressService.addressDetails
       (AddressService.fetchAddresses Js.Rejected Scenario.owned).2
     = AddressService.addressDetails Scenario.owned)
  ∧ AddressService.fetchAddresses
      (Js.Resolved {| AddressService.success := false; AddressService.data := None |})
      Scenario.owned = (false, Scenario.owned).
Proof.
  split.
  - apply (proj1 (C6_failed_refresh_keeps_snapshot Scenario.owned Js.Rejected)).
    reflexivity.
  - apply (proj1 (C6_failed_refresh_keeps_snapshot Scenario.owned
                    (Js.Resolved {| AddressService.success := false;
                                    AddressService.data := None |}))).
    reflexivity.
Defined.

(** A body with [success: true] whose payload lacks the TRC20 list: the
    refresh returns [false], and the directory has been replaced -- its
    TRC20 list is now undefined and its detailed records are those of the
    payload. *)
Example refresh_without_a_list :
  AddressService.fetchAddresses (Js.Resolved Scenario.truncated) Scenario.owned
  = (false,
     {| AddressService.addresses :=
          {| AddressService.bep20 := Some ["0xabc1"];
             AddressService.trc20 := None;
             AddressService.btc := Some ["bc1alice"] |};
        AddressService.addressDetails := Some [] |}).
Proof. reflexivity. Qed.

(** ** The set records a hash only next to a deposit *)



Section PollingContract.
Context {T : Type} (network : string) (key : T → string)
        (eligible : string → T → bool)
        (guard : string → T → Js.Completion bool)
        (select : AddressService.State → string → T
                  → Js.Completion (option Deposit)).
Hypothesis select_key : ∀ state address tx d,
  select state address tx = Js.Normal (Some d) → txHash d = key tx.
Hypothesis select_owner : ∀ state address tx d,
  select state address tx = Js.Normal (Some d) →
  AddressService.owns state address network (userId d).
Hypothesis eligible_guard : ∀ address tx,
  eligible address tx = true → guard address tx = Js.Normal true.
Hypothesis select_owned : ∀ state address tx u,
  AddressService.owns state address network u →
  eligible address tx = true → select state address tx ≠ Js.Normal None.





End PollingContract.

Lemma normalizer_btc_owner state address tx d :
  Normalizer.btc state address tx = Js.Normal (Some d) →
  AddressService.owns state address "btc" (userId d).
Proof.
  unfold Normalizer.btc, AddressService.owns.
  destruct (BtcService.outputs tx) as [outs|]; [|done]. cbv zeta.
  destruct (Nat.eqb _ 0); [done|].
  destruct (AddressService.getUserIdForAddress state address "btc")
    as [[u|]|e]; [|done|done].
  destruct (Js.truthy_string u) eqn:Eu; [|done].
  destruct (Js.toISOString _); [|done].
  destruct (BtcService.inputs tx); [|done]. by intros [= <-].
Qed.



Lemma normalizer_btcWs_owner price state address tx d :
  Normalizer.btcWs state address price tx = Js.Normal (Some d) →
  AddressService.owns state address "btc" (userId d).
Proof.
  unfold Normalizer.btcWs, AddressService.owns.
  destruct (BtcService.outputs tx) as [outs|]; [|done]. cbv zeta.
  destruct (Nat.eqb _ 0); [done|].
  destruct (AddressService.getUserIdForAddress state address "btc")
    as [[u|]|e]; [|done|done].
  destruct (Js.truthy_string u) eqn:Eu; [|done].
  destruct (Js.toISOString _); [|done].
  destruct (BtcService.inputs tx); [|done]. by intros [= <-].
Qed.


Lemma normalizer_trc20_owner state address tx d :
  Normalizer.trc20 state address tx = Js.Normal (Some d) →
  AddressService.owns state address "trc20" (userId d).
Proof.
  unfold Normalizer.trc20, AddressService.owns.
  destruct (Trc20Service.token_info tx) as [info|]; [|done].
  destruct (AddressService.getUserIdForAddress state address "trc20")
    as [[u|]|e]; [|done|done].
  destruct (Js.truthy_string u) eqn:Eu; [|done].
  destruct (Js.toISOString _); [|done]. by intros [= <-].
Qed.



Lemma normalizer_bep20_owner state address tx d :
  Normalizer.bep20 state address tx = Js.Normal (Some d) →
  AddressService.owns state address "bep20" (userId d).
Proof.
  unfold Normalizer.bep20, AddressService.owns.
  destruct (Bep20Service.tx_to tx) as [to_|]; [|done].
  destruct (AddressService.getUserIdForAddress state address "bep20")
    as [[u|]|e]; [|done|done].
  destruct (Js.truthy_string u) eqn:Eu; [|done].
  destruct (Js.toISOString _); [|done]. by intros [= <-].
Qed.










(** ** The check cycle *)

Section CycleFacts.
Context (P : Cycle.Providers).

Lemma onBep20_frame f w :
  Cycle.requests (Cycle.onBep20 f w).2 = Cycle.requests w
  ∧ Cycle.directory (Cycle.onBep20 f w).2 = Cycle.directory w.
Proof. unfold Cycle.onBep20. by destruct (f _). Qed.

Lemma onTrc20_frame f w :
  Cycle.requests (Cycle.onTrc20 f w).2 = Cycle.requests w
  ∧ Cycle.directory (Cycle.onTrc20 f w).2 = Cycle.directory w.
Proof. unfold Cycle.onTrc20. by destruct (f _). Qed.

Lemma onBtc_frame f w :
  Cycle.requests (Cycle.onBtc f w).2 = Cycle.requests w
  ∧ Cycle.directory (Cycle.onBtc f w).2 = Cycle.directory w.
Proof. unfold Cycle.onBtc. by destruct (f _). Qed.

Lemma bep20_checkAddress_sends :
  Cycle.sends (Cycle.bep20_checkAddress P) (λ a, [Cycle.GetBscScan a]).
Proof.
  intros a w. unfold Cycle.bep20_checkAddress, Cycle.bind, Cycle.send,
    Cycle.getDirectory. cbv beta iota zeta.
  match goal with
  | |- context [Cycle.onBep20 ?f ?w'] => destruct (onBep20_frame f w') as [-> ->]
  end. done.
Qed.

Lemma trc20_checkAddress_sends :
  Cycle.sends (Cycle.trc20_checkAddress P) (λ a, [Cycle.GetTronGrid a]).
Proof.
  intros a w. unfold Cycle.trc20_checkAddress, Cycle.bind, Cycle.send,
    Cycle.getDirectory. cbv beta iota zeta.
  match goal with
  | |- context [Cycle.onTrc20 ?f ?w'] => destruct (onTrc20_frame f w') as [-> ->]
  end. done.
Qed.

Lemma btc_checkAddress_sends :
  Cycle.sends (Cycle.btc_checkAddress P) (Cycle.btc_requests P).
Proof.
  intros a w. unfold Cycle.btc_checkAddress, Cycle.btc_requests, Cycle.bind,
    Cycle.send, Cycle.getDirectory, Cycle.ret.
  destruct (Cycle.blockcypher P a) as [|[txs|]]; cbv beta iota zeta;
    match goal with
    | |- context [Cycle.onBtc ?f ?w'] => destruct (onBtc_frame f w') as [-> ->]
    end; simpl; by rewrite <- ?app_assoc.
Qed.

Lemma each_sends check req :
  Cycle.sends check req →
  ∀ addresses acc w,
    Cycle.requests (Cycle.each check addresses acc w).2
    = Cycle.requests w ++ flat_map req addresses
    ∧ Cycle.directory (Cycle.each check addresses acc w).2 = Cycle.directory w.
Proof.
  intros Hs addresses. induction addresses as [|a rest IH]; intros acc w; simpl.
  - by rewrite app_nil_r.
  - unfold Cycle.bind. destruct (Hs a w) as [Hr Hd].
    destruct (check a w) as [ds w1]. simpl in *.
    destruct (IH (acc ++ ds) w1) as [Hr' Hd'].
    rewrite Hr', Hr, Hd', Hd. by rewrite <- app_assoc.
Qed.

Lemma checkAllAddresses_sends check req pick :
  Cycle.sends check req →
  ∀ w,
    Cycle.requests (Cycle.checkAllAddresses check pick w).2
    = Cycle.requests w
      ++ flat_map req
           (Cycle.listed (pick (AddressService.getAddresses (Cycle.directory w))))
    ∧ Cycle.directory (Cycle.checkAllAddresses check pick w).2 = Cycle.directory w.
Proof.
  intros Hs w. unfold Cycle.checkAllAddresses, Cycle.bind, Cycle.getDirectory,
    Cycle.ret, Cycle.listed.
  destruct (pick (AddressService.getAddresses (Cycle.directory w)))
    as [[|a rest]|] eqn:E.
  - simpl. by rewrite app_nil_r.
  - change (Nat.eqb (List.length (a :: rest)) 0) with false. cbv iota.
    apply (each_sends check req Hs).
  - simpl. by rewrite app_nil_r.
Qed.

Lemma flat_map_singleton {A B : Type} (f : A → B) (l : list A) :
  flat_map (λ a, [f a]) l = map f l.
Proof. induction l as [|a rest IH]; simpl; [done|]. by rewrite IH. Qed.

Lemma posts_app (l1 l2 : list Cycle.Request) :
  Cycle.posts (l1 ++ l2) = Cycle.posts l1 ++ Cycle.posts l2.
Proof. unfold Cycle.posts. apply flat_map_app. Qed.

Lemma posts_gets {A : Type} (f : A → list Cycle.Request) (l : list A) :
  (∀ a r, r ∈ f a → ∀ ds, r ≠ Cycle.PostDeposits ds) →
  Cycle.posts (flat_map f l) = [].
Proof.
  intros Hf. induction l as [|a rest IH]; simpl; [done|].
  rewrite posts_app, IH, app_nil_r.
  specialize (Hf a). induction (f a) as [|r rs IHr]; simpl; [done|].
  rewrite IHr by (intros r' Hr'; apply Hf; by right).
  destruct r; try done. exfalso. by eapply (Hf _ ltac:(by left)).
Qed.

(** C9. [checkDeposits] runs the watchers in the order BEP20, TRC20, BTC --
    its requests are those to BscScan for the BEP20 addresses, then those to
    TronGrid for the TRC20 addresses, then those of the BTC watcher, each in
    the order of the address list (a watcher whose list the directory lacks
    sends none) --, returns the three results concatenated
    in that order, and posts the batch to the main server once when it is
    non-empty and not at all when it is empty. *)
Theorem C9_checkDeposits_order_and_single_post (w : Cycle.World) :
  (Cycle.checkDeposits P w).1
  = (Cycle.bep20_checkAllAddresses P w).1
    ++ (Cycle.trc20_checkAllAddresses P (Cycle.bep20_checkAllAddresses P w).2).1
    ++ (Cycle.btc_checkAllAddresses P
          (Cycle.trc20_checkAllAddresses P
             (Cycle.bep20_checkAllAddresses P w).2).2).1
  ∧ Cycle.requests (Cycle.checkDeposits P w).2
    = Cycle.requests w
      ++ map Cycle.GetBscScan
           (Cycle.listed
              (AddressService.bep20 (AddressService.getAddresses (Cycle.directory w))))
      ++ map Cycle.GetTronGrid
           (Cycle.listed
              (AddressService.trc20 (AddressService.getAddresses (Cycle.directory w))))
      ++ flat_map (Cycle.btc_requests P)
           (Cycle.listed
              (AddressService.btc (AddressService.getAddresses (Cycle.directory w))))
      ++ match (Cycle.checkDeposits P w).1 with
         | [] => []
         | _ :: _ => [Cycle.PostDeposits (Cycle.checkDeposits P w).1]
         end
  ∧ Cycle.posts (Cycle.requests (Cycle.checkDeposits P w).2)
    = Cycle.posts (Cycle.requests w)
      ++ match (Cycle.checkDeposits P w).1 with
         | [] => []
         | _ :: _ => [(Cycle.checkDeposits P w).1]
         end.
Proof.
  pose proof (checkAllAddresses_sends _ _ AddressService.bep20
                bep20_checkAddress_sends w) as [Hr1 Hd1].
  fold (Cycle.bep20_checkAllAddresses P) in Hr1, Hd1.
  set (r1 := Cycle.bep20_checkAllAddresses P w) in *.
  pose proof (checkAllAddresses_sends _ _ AddressService.trc20
                trc20_checkAddress_sends r1.2) as [Hr2 Hd2].
  fold (Cycle.trc20_checkAllAddresses P) in Hr2, Hd2.
  set (r2 := Cycle.trc20_checkAllAddresses P r1.2) in *.
  pose proof (checkAllAddresses_sends _ _ AddressService.btc
                btc_checkAddress_sends r2.2) as [Hr3 Hd3].
  fold (Cycle.btc_checkAllAddresses P) in Hr3, Hd3.
  set (r3 := Cycle.btc_checkAllAddresses P r2.2) in *.
  rewrite Hd2, Hd1 in Hr3. rewrite Hd1 in Hr2.
  rewrite !flat_map_singleton in *.
  assert (Cycle.checkDeposits P w =
          (r1.1 ++ r2.1 ++ r3.1,
           if Nat.ltb 0 (List.length (r1.1 ++ r2.1 ++ r3.1))
           then (Cycle.processDeposits (r1.1 ++ r2.1 ++ r3.1) r3.2).2
           else r3.2)) as E.
  { unfold Cycle.checkDeposits, Cycle.bind, Cycle.ret. subst r1 r2 r3.
    destruct (Cycle.bep20_checkAllAddresses P w) as [b w1]. simpl.
    destruct (Cycle.trc20_checkAllAddresses P w1) as [t w2]. simpl.
    destruct (Cycle.btc_checkAllAddresses P w2) as [c w3]. simpl.
    destruct (Nat.ltb 0 (List.length (b ++ t ++ c))); [|done].
    by destruct (Cycle.processDeposits (b ++ t ++ c) w3). }
  rewrite E. simpl.
  assert (Cycle.requests
            (if Nat.ltb 0 (List.length (r1.1 ++ r2.1 ++ r3.1))
             then (Cycle.processDeposits (r1.1 ++ r2.1 ++ r3.1) r3.2).2
             else r3.2)
          = Cycle.requests r3.2
            ++ match r1.1 ++ r2.1 ++ r3.1 with
               | [] => []
               | _ :: _ => [Cycle.PostDeposits (r1.1 ++ r2.1 ++ r3.1)]
               end) as Hpost.
  { destruct (r1.1 ++ r2.1 ++ r3.1) as [|d ds]; simpl; [by rewrite app_nil_r|].
    done. }
  split; [done|]. rewrite Hpost, Hr3, Hr2, Hr1. split.
  - by rewrite <- !app_assoc.
  - rewrite !posts_app.
    rewrite <- (flat_map_singleton Cycle.GetBscScan),
            <- (flat_map_singleton Cycle.GetTronGrid).
    rewrite !posts_gets.
    + rewrite !app_nil_r. by destruct (r1.1 ++ r2.1 ++ r3.1).
    + intros a r Hr ds. unfold Cycle.btc_requests in Hr.
      destruct (Cycle.blockcypher P a) as [|[txs|]];
        repeat (apply elem_of_cons in Hr as [->|Hr]; [done|]);
        by apply elem_of_nil in Hr.
    + intros a r Hr ds. apply list_elem_of_singleton in Hr. by subst r.
    + intros a r Hr ds. apply list_elem_of_singleton in Hr. by subst r.
Qed.

End CycleFacts.

(** A first cycle finds T3 and T1 and posts them in one batch, BEP20 first;
    a second cycle with the same provider answers finds nothing and posts
    nothing. *)
Example two_cycles :
  map txHash (Cycle.checkDeposits Scenario.providers Scenario.world).1
  = ["T3"; "T1"]
  ∧ map (map txHash)
      (Cycle.posts
         (Cycle.requests
            (Cycle.checkDeposits Scenario.providers
               (Cycle.checkDeposits Scenario.providers Scenario.world).2).2))
    = [["T3"; "T1"]]
  ∧ (Cycle.checkDeposits Scenario.providers
       (Cycle.checkDeposits Scenario.providers Scenario.world).2).1 = [].
Proof. repeat split; vm_compute; reflexivity. Qed.

(** ** Timers and sockets *)

Section LifecycleFacts.
Import Runtime Lifecycle.

Lemma elem_of_timers_clear h rt t :
  t ∈ timers (Runtime.clear h rt) ↔ t ∈ timers rt ∧ handle t ≠ h.
Proof.
  unfold Runtime.clear. simpl. rewrite !list_elem_of_In, List.filter_In.
  rewrite negb_true_iff, Nat.eqb_neq. done.
Qed.

Lemma channel_withChannel svc svc' ch rt p :
  channel svc (withChannel svc' ch rt p)
  = if decide (svc = svc') then ch else channel svc p.
Proof. by destruct svc, svc'. Qed.

Lemma runtime_withChannel svc ch rt p : runtime (withChannel svc ch rt p) = rt.
Proof. by destruct svc. Qed.

Lemma intervalHandles_withChannel svc ch rt p :
  intervalHandles (withChannel svc ch rt p) = intervalHandles p.
Proof. by destruct svc. Qed.

(** Removing timers, handing out handles and dropping interval handles
    keep a process well-formed, provided each service keeps its
    [wsReconnectTimeout] or has no reconnect timer left. *)
Lemma wellFormed_filter p q f :
  wellFormed p →
  timers (runtime q) = List.filter f (timers (runtime p)) →
  (next (runtime p) ≤ next (runtime q))%nat →
  (∀ svc, wsReconnectTimeout (channel svc q) = wsReconnectTimeout (channel svc p)
          ∨ ∀ t, t ∈ timers (runtime q) → callback t ≠ Reconnect svc) →
  (∀ h, h ∈ intervalHandles q → h ∈ intervalHandles p) →
  wellFormed q.
Proof.
  intros (Hnd & Hlt & Hrec & Hint) Ht Hn Hch Hih.
  assert (∀ t, t ∈ timers (runtime q) → t ∈ timers (runtime p)) as Hsub.
  { intros t. rewrite Ht, !list_elem_of_In, List.filter_In. tauto. }
  split; [|split; [|split]].
  - rewrite Ht. clear -Hnd. induction (timers (runtime p)) as [|t l IH]; simpl.
    + constructor.
    + simpl in Hnd. apply NoDup_cons in Hnd as [Hnotin Hnd].
      destruct (f t); simpl; [|by apply IH].
      apply NoDup_cons. split; [|by apply IH].
      intros Hin. apply Hnotin. apply list_elem_of_fmap in Hin as (t' & -> & Hin).
      apply list_elem_of_fmap. exists t'. split; [done|].
      apply list_elem_of_In in Hin. apply List.filter_In in Hin as [Hin _].
      by apply list_elem_of_In.
  - intros t Hin. specialize (Hlt t (Hsub t Hin)). lia.
  - intros svc t Hin Hcb. destruct (Hch svc) as [->|Hnone].
    + by apply Hrec; [apply Hsub|].
    + by destruct (Hnone t Hin).
  - intros h Hh. destruct (Hint h (Hih h Hh)) as [Hb Hnr]. split; [lia|].
    intros t svc Hin. apply Hnr. by apply Hsub.
Qed.

Lemma wellFormed_same p q :
  wellFormed p →
  timers (runtime q) = timers (runtime p) →
  (next (runtime p) ≤ next (runtime q))%nat →
  (∀ svc, wsReconnectTimeout (channel svc q) = wsReconnectTimeout (channel svc p)) →
  (∀ h, h ∈ intervalHandles q → h ∈ intervalHandles p) →
  wellFormed q.
Proof.
  intros Hwf Ht Hn Hch Hih.
  apply (wellFormed_filter p q (λ _, true)); try done.
  - rewrite Ht. clear. induction (timers (runtime p)) as [|t l IH]; simpl; congruence.
  - intros svc. by left.
Qed.

Lemma wellFormed_add p q cb ms again :
  wellFormed p →
  timers (runtime q)
  = timers (runtime p) ++ [{| handle := next (runtime p); callback := cb;
                              delay := ms; repeats := again |}] →
  next (runtime q) = S (next (runtime p)) →
  (∀ svc, if decide (cb = Reconnect svc)
          then wsReconnectTimeout (channel svc q) = Some (next (runtime p))
               ∧ ∀ t, t ∈ timers (runtime p) → callback t ≠ Reconnect svc
          else wsReconnectTimeout (channel svc q)
               = wsReconnectTimeout (channel svc p)) →
  (∀ h, h ∈ intervalHandles q →
        h ∈ intervalHandles p
        ∨ (h = next (runtime p) ∧ ∀ svc, cb ≠ Reconnect svc)) →
  wellFormed q.
Proof.
  intros (Hnd & Hlt & Hrec & Hint) Ht Hn Hch Hih.
  split; [|split; [|split]].
  - rewrite Ht, map_app. simpl. apply NoDup_app. split; [done|].
    split; [|apply NoDup_singleton].
    intros h Hh Hh'. apply list_elem_of_singleton in Hh'. subst h.
    apply list_elem_of_fmap in Hh as (t & Heq & Hin).
    specialize (Hlt t Hin). lia.
  - intros t. rewrite Ht, Hn, elem_of_app, list_elem_of_singleton.
    intros [Hin| ->]; [specialize (Hlt t Hin); lia|simpl; lia].
  - intros svc t. rewrite Ht, elem_of_app, list_elem_of_singleton.
    specialize (Hch svc). intros [Hin| ->] Hcb.
    + destruct (decide (cb = Reconnect svc)) as [_|_].
      * destruct Hch as [_ Hnone]. by destruct (Hnone t Hin).
      * rewrite Hch. by apply Hrec.
    + simpl in *. destruct (decide (cb = Reconnect svc)); [by destruct Hch|done].
  - intros h Hh. destruct (Hih h Hh) as [Hold|[-> Hcb]].
    + destruct (Hint h Hold) as [Hb Hnr]. split; [lia|].
      intros t svc. rewrite Ht, elem_of_app, list_elem_of_singleton.
      intros [Hin| ->] Heq; [by eapply Hnr|]. simpl in Heq. lia.
    + split; [lia|]. intros t svc. rewrite Ht, elem_of_app, list_elem_of_singleton.
      intros [Hin| ->] Heq; [specialize (Hlt t Hin); lia|]. simpl. apply Hcb.
Qed.

Lemma wellFormed_initial : wellFormed Lifecycle.initial.
Proof.
  split; [constructor|]. split; [intros t H; by apply elem_of_nil in H|].
  split; [intros svc t H; by apply elem_of_nil in H|].
  intros h H. by apply elem_of_nil in H.
Qed.

End LifecycleFacts.

Section LifecycleSteps.
Import Runtime Lifecycle.

Lemma timers_clearIfSet o rt :
  timers (Runtime.clearIfSet o rt)
  = List.filter (λ t, match o with
                      | Some h => negb (Nat.eqb (handle t) h)
                      | None => true
                      end) (timers rt).
Proof.
  destruct o as [h|]; simpl; [done|].
  induction (timers rt) as [|t l IH]; simpl; congruence.
Qed.

Lemma next_clearIfSet o rt : next (Runtime.clearIfSet o rt) = next rt.
Proof. by destruct o. Qed.

Lemma timers_dropIfSet o rt : timers (Runtime.dropIfSet o rt) = timers rt.
Proof. by destruct o. Qed.

Lemma next_dropIfSet o rt : next (Runtime.dropIfSet o rt) = next rt.
Proof. by destruct o. Qed.

(** Once the handle a service holds is cleared, none of its reconnect
    timers is left. *)
Lemma no_reconnect_after_clear p svc t :
  wellFormed p →
  t ∈ timers (Runtime.clearIfSet (wsReconnectTimeout (channel svc p)) (runtime p)) →
  callback t ≠ Reconnect svc.
Proof.
  intros (_ & _ & Hrec & _) Hin Hcb.
  rewrite timers_clearIfSet, list_elem_of_In, List.filter_In in Hin.
  destruct Hin as [Hin Hf]. apply list_elem_of_In in Hin.
  rewrite (Hrec svc t Hin Hcb) in Hf.
  by rewrite Nat.eqb_refl in Hf.
Qed.

Lemma reconnectWebSocket_wellFormed svc p :
  wellFormed p → wellFormed (reconnectWebSocket svc p).
Proof.
  intros Hwf.
  set (rt1 := Runtime.clearIfSet (wsReconnectTimeout (channel svc p)) (runtime p)).
  assert (wellFormed (withRuntime rt1 p)) as Hwf1.
  { eapply (wellFormed_filter p); [done|apply timers_clearIfSet| | |done].
    - simpl. subst rt1. by rewrite next_clearIfSet.
    - intros svc'. left. by destruct svc'. }
  eapply (wellFormed_add (withRuntime rt1 p) _ (Reconnect svc) WS_RECONNECT_DELAY false);
    [done| | | |].
  - unfold reconnectWebSocket, Runtime.setTimeout, Runtime.schedule.
    cbv zeta beta iota. by rewrite runtime_withChannel.
  - unfold reconnectWebSocket, Runtime.setTimeout, Runtime.schedule.
    cbv zeta beta iota. by rewrite runtime_withChannel.
  - intros svc'. unfold reconnectWebSocket, Runtime.setTimeout, Runtime.schedule.
    cbv zeta beta iota. rewrite channel_withChannel.
    destruct (decide (Reconnect svc = Reconnect svc')) as [[= <-]|Hne].
    + rewrite decide_True by done. split; [done|].
      intros t Hin. by apply (no_reconnect_after_clear p svc t).
    + rewrite decide_False by congruence. by destruct svc'.
  - intros h Hh. left. unfold reconnectWebSocket, Runtime.setTimeout,
      Runtime.schedule in Hh. cbv zeta beta iota in Hh.
    by rewrite intervalHandles_withChannel in Hh.
Qed.

Lemma startWebSocketMonitoring_wellFormed env throws svc p :
  wellFormed p → wellFormed (startWebSocketMonitoring env throws svc p).
Proof.
  intros Hwf. unfold startWebSocketMonitoring. cbv zeta.
  set (ch := channel svc p).
  set (rt2 := Runtime.clearIfSet (wsReconnectTimeout ch)
                (Runtime.dropIfSet (wsConnection ch) (runtime p))).
  set (ch2 := match wsReconnectTimeout ch with
              | Some _ => {| wsConnection := wsConnection ch;
                             wsReconnectTimeout := None |}
              | None => ch
              end).
  assert (timers rt2
          = timers (Runtime.clearIfSet (wsReconnectTimeout ch) (runtime p))) as Ht.
  { subst rt2. by rewrite !timers_clearIfSet, timers_dropIfSet. }
  assert (wellFormed (withChannel svc ch2 rt2 p)) as Hwf2.
  { eapply (wellFormed_filter p); [done| | | |].
    - rewrite runtime_withChannel, Ht. apply timers_clearIfSet.
    - rewrite runtime_withChannel. subst rt2.
      by rewrite next_clearIfSet, next_dropIfSet.
    - intros svc'. rewrite channel_withChannel, runtime_withChannel.
      destruct (decide (svc' = svc)) as [->|Hne]; [|by left].
      subst ch2. fold ch. destruct (wsReconnectTimeout ch) eqn:E; [|by left].
      right. intros t Hin. rewrite Ht in Hin. rewrite <- E in Hin.
      by apply (no_reconnect_after_clear p svc t).
    - intros h. by rewrite intervalHandles_withChannel. }
  destruct (opensSocket env svc); [|done].
  destruct throws; [by apply reconnectWebSocket_wellFormed|].
  unfold Runtime.connect. cbv zeta beta iota.
  eapply (wellFormed_same (withChannel svc ch2 rt2 p)); [done| | | |].
  - by rewrite !runtime_withChannel.
  - rewrite !runtime_withChannel. simpl. lia.
  - intros svc'. rewrite !channel_withChannel. by destruct (decide (svc' = svc)).
  - intros h. by rewrite !intervalHandles_withChannel.
Qed.

Lemma withRuntime_clear_wellFormed h p :
  wellFormed p → wellFormed (withRuntime (Runtime.clear h (runtime p)) p).
Proof.
  intros Hwf. eapply (wellFormed_filter p); [done|reflexivity| | |done].
  - simpl. lia.
  - intros svc. left. by destruct svc.
Qed.

Lemma withRuntime_drop_wellFormed c p :
  wellFormed p → wellFormed (withRuntime (Runtime.drop c (runtime p)) p).
Proof.
  intros Hwf. eapply (wellFormed_same p); [done|reflexivity| | |done].
  - simpl. lia.
  - intros svc. by destruct svc.
Qed.

Lemma clearMonitoringInterval_wellFormed p :
  wellFormed p → wellFormed (clearMonitoringInterval p).
Proof.
  intros Hwf. unfold clearMonitoringInterval.
  destruct (monitoringInterval p) as [h|] eqn:E; [|done].
  eapply (wellFormed_filter p); [done|reflexivity| | |].
  - simpl. lia.
  - intros svc. left. by destruct svc.
  - intros h'. unfold intervalHandles. simpl. rewrite E. simpl.
    intros H. by right.
Qed.

Lemma clearAddressRefreshInterval_wellFormed p :
  wellFormed p → wellFormed (clearAddressRefreshInterval p).
Proof.
  intros Hwf. unfold clearAddressRefreshInterval.
  destruct (addressRefreshInterval p) as [h|] eqn:E; [|done].
  eapply (wellFormed_filter p); [done|reflexivity| | |].
  - simpl. lia.
  - intros svc. left. by destruct svc.
  - intros h'. unfold intervalHandles. simpl. rewrite E.
    destruct (monitoringInterval p); simpl; set_solver.
Qed.

Lemma trc20_clearQuickPoll_wellFormed p :
  wellFormed p → wellFormed (trc20_clearQuickPoll p).
Proof.
  intros Hwf. unfold trc20_clearQuickPoll.
  destruct (quickPollInterval p) as [h|] eqn:E; [|done].
  eapply (wellFormed_filter p); [done|reflexivity| | |].
  - simpl. lia.
  - intros svc. left. by destruct svc.
  - intros h'. unfold intervalHandles. simpl. rewrite E.
    destruct (monitoringInterval p), (addressRefreshInterval p); simpl; set_solver.
Qed.

Lemma stopMonitoring_wellFormed p :
  wellFormed p → wellFormed (stopMonitoring p).
Proof.
  intros Hwf. unfold stopMonitoring, callIfFunction, bep20Service_stop,
    trc20Service_stop, btcService_stop, trc20_stop. cbv zeta.
  by apply trc20_clearQuickPoll_wellFormed,
    clearAddressRefreshInterval_wellFormed, clearMonitoringInterval_wellFormed.
Qed.

End LifecycleSteps.

Section LifecycleRuns.
Import Runtime Lifecycle.

Ltac interval_cases p :=
  unfold intervalHandles; simpl;
  destruct (monitoringInterval p), (addressRefreshInterval p),
    (quickPollInterval p); simpl.

Ltac handle_cases H :=
  repeat (apply elem_of_cons in H as [->|H]);
  try (by apply elem_of_nil in H);
  first [by right | left; set_solver].

Lemma startMonitoring_wellFormed env p :
  wellFormed p → wellFormed (startMonitoring env p).
Proof.
  intros Hwf. unfold startMonitoring, Runtime.setInterval, Runtime.schedule.
  cbv zeta beta iota.
  set (rt1 := {| timers := timers (runtime p)
                   ++ [{| handle := next (runtime p); callback := CheckDeposits;
                          delay := CHECK_INTERVAL env; repeats := true |}];
                 sockets := sockets (runtime p);
                 next := S (next (runtime p)) |}).
  assert (wellFormed {| runtime := rt1;
                        monitoringInterval := Some (next (runtime p));
                        addressRefreshInterval := addressRefreshInterval p;
                        btcChannel := btcChannel p; bep20Channel := bep20Channel p;
                        quickPollInterval := quickPollInterval p |}) as Hwf1.
  { eapply (wellFormed_add p _ CheckDeposits); [done|reflexivity|reflexivity| |].
    - intros svc. rewrite decide_False by done. by destruct svc.
    - intros h. interval_cases p; intros Hh; handle_cases Hh. }
  eapply (wellFormed_add _ _ RefreshAddresses);
    [exact Hwf1|reflexivity|reflexivity| |].
  - intros svc. rewrite decide_False by done. by destruct svc.
  - intros h. interval_cases p; intros Hh; handle_cases Hh.
Qed.

Lemma trc20_startRealTimeMonitoring_wellFormed env p :
  wellFormed p → wellFormed (trc20_startRealTimeMonitoring env p).
Proof.
  intros Hwf. unfold trc20_startRealTimeMonitoring. cbv zeta.
  pose proof (trc20_clearQuickPoll_wellFormed p Hwf) as Hwf1.
  destruct (Js.truthy (TRONGRID_API_KEY env)); [|done].
  unfold Runtime.setInterval, Runtime.schedule. cbv zeta beta iota.
  eapply (wellFormed_add _ _ QuickPoll); [exact Hwf1|reflexivity|reflexivity| |].
  - intros svc. rewrite decide_False by done. by destruct svc.
  - intros h. interval_cases (trc20_clearQuickPoll p); intros Hh; handle_cases Hh.
Qed.

Lemma fire_wellFormed env h throws p :
  wellFormed p → wellFormed (fire env h throws p).
Proof.
  intros Hwf. unfold fire. destruct (Runtime.lookup h (runtime p)) as [t|]; [|done].
  assert (wellFormed (if repeats t then p
                      else withRuntime (Runtime.clear h (runtime p)) p)) as Hwf1.
  { destruct (repeats t); [done|by apply withRuntime_clear_wellFormed]. }
  destruct (callback t); try done.
  by apply startWebSocketMonitoring_wellFormed.
Qed.

Lemma step_wellFormed env e p : wellFormed p → wellFormed (step env e p).
Proof.
  intros Hwf. destruct e; simpl.
  - by apply startMonitoring_wellFormed.
  - by apply stopMonitoring_wellFormed.
  - by apply startWebSocketMonitoring_wellFormed.
  - by apply trc20_startRealTimeMonitoring_wellFormed.
  - by apply reconnectWebSocket_wellFormed.
  - by apply reconnectWebSocket_wellFormed, withRuntime_drop_wellFormed.
  - by apply fire_wellFormed.
Qed.

Lemma run_wellFormed env events : ∀ p,
  wellFormed p → wellFormed (run env events p).
Proof.
  induction events as [|e rest IH]; intros p Hwf; [done|].
  apply IH. by apply step_wellFormed.
Qed.

Lemma run_app env l1 l2 p : run env (l1 ++ l2) p = run env l2 (run env l1 p).
Proof. unfold run. apply fold_left_app. Qed.

(** In a well-formed process a service has at most one reconnect timer. *)
Lemma pending_at_most_one svc p :
  wellFormed p → (List.length (pending svc p) ≤ 1)%nat.
Proof.
  intros (Hnd & _ & Hrec & _). unfold pending.
  assert (∀ t, t ∈ timers (runtime p) → callback t = Reconnect svc →
               Some (handle t) = wsReconnectTimeout (channel svc p)) as Hh.
  { intros t Hin Hcb. by rewrite (Hrec svc t Hin Hcb). }
  clear Hrec. revert Hnd Hh.
  generalize (wsReconnectTimeout (channel svc p)) as o.
  induction (timers (runtime p)) as [|t l IH]; intros o Hnd Hh; simpl; [lia|].
  simpl in Hnd. apply NoDup_cons in Hnd as [Hnotin Hnd].
  destruct (bool_decide (callback t = Reconnect svc)) eqn:E.
  - apply bool_decide_eq_true in E. simpl.
    assert (List.filter (λ t0, bool_decide (callback t0 = Reconnect svc)) l = [])
      as ->; [|simpl; lia].
    clear IH. induction l as [|t' l IH]; simpl; [done|].
    destruct (bool_decide (callback t' = Reconnect svc)) eqn:E'.
    + apply bool_decide_eq_true in E'. exfalso. apply Hnotin.
      pose proof (Hh t ltac:(by left) E) as H1.
      pose proof (Hh t' ltac:(right; by left) E') as H2.
      assert (handle t = handle t') as -> by congruence.
      simpl. by left.
    + apply IH.
      * intros Hin. apply Hnotin. simpl. by right.
      * by apply NoDup_cons in Hnd as [_ Hnd].
      * intros t0 Hin. apply elem_of_cons in Hin as [->|Hin];
          [apply Hh; by left|apply Hh; right; by right].
  - apply (IH o); [done|]. intros t0 Hin. apply Hh. by right.
Qed.

(** After [reconnectWebSocket] exactly one reconnect timer of the service
    is scheduled: a one-shot timer with the fixed delay, held by
    [wsReconnectTimeout]. *)
Lemma reconnectWebSocket_pending svc p :
  wellFormed p →
  pending svc (reconnectWebSocket svc p)
  = [{| handle := next (runtime p); callback := Reconnect svc;
        delay := WS_RECONNECT_DELAY; repeats := false |}]
  ∧ wsReconnectTimeout (channel svc (reconnectWebSocket svc p))
    = Some (next (runtime p)).
Proof.
  intros Hwf. unfold pending, reconnectWebSocket, Runtime.setTimeout,
    Runtime.schedule. cbv zeta beta iota.
  rewrite runtime_withChannel, channel_withChannel, decide_True by done.
  split; [|by rewrite next_clearIfSet]. simpl.
  rewrite List.filter_app. simpl. rewrite bool_decide_eq_true_2 by done.
  rewrite next_clearIfSet.
  assert (List.filter (λ t, bool_decide (callback t = Reconnect svc))
            (timers (Runtime.clearIfSet (wsReconnectTimeout (channel svc p))
                       (runtime p))) = []) as ->; [|done].
  pose proof (no_reconnect_after_clear p svc) as Hnone.
  induction (timers _) as [|t l IH]; simpl; [done|].
  rewrite bool_decide_eq_false_2 by (apply Hnone; [done|by left]).
  apply IH. intros t' Hwf' Hin. apply Hnone; [done|by right].
Qed.

End LifecycleRuns.

Section ReconnectAndStop.
Import Runtime Lifecycle.

Lemma lookup_unique p t :
  wellFormed p → t ∈ timers (runtime p) →
  Runtime.lookup (handle t) (runtime p) = Some t.
Proof.
  intros (Hnd & _) Hin. unfold Runtime.lookup.
  induction (timers (runtime p)) as [|t0 l IH]; [by apply elem_of_nil in Hin|].
  simpl in *. apply NoDup_cons in Hnd as [Hnotin Hnd].
  apply elem_of_cons in Hin as [->|Hin]; [by rewrite Nat.eqb_refl|].
  destruct (Nat.eqb (handle t0) (handle t)) eqn:E; [|by apply IH].
  apply Nat.eqb_eq in E. exfalso. apply Hnotin. rewrite E.
  apply list_elem_of_fmap. by exists t.
Qed.

Lemma no_reconnect_filter svc (l : list Timer) :
  (∀ t, t ∈ l → callback t ≠ Reconnect svc) →
  List.filter (λ t, bool_decide (callback t = Reconnect svc)) l = [].
Proof.
  induction l as [|t l IH]; intros H; simpl; [done|].
  rewrite bool_decide_eq_false_2 by (apply H; by left).
  apply IH. intros t' Hin. apply H. by right.
Qed.

(** [startWebSocketMonitoring] that does not raise leaves no reconnect
    timer of the service. *)
Lemma startWebSocketMonitoring_pending env svc p :
  wellFormed p → pending svc (startWebSocketMonitoring env false svc p) = [].
Proof.
  intros Hwf. unfold pending. apply no_reconnect_filter.
  assert (timers (runtime (startWebSocketMonitoring env false svc p))
          = timers (Runtime.clearIfSet (wsReconnectTimeout (channel svc p))
                      (runtime p))) as ->.
  { unfold startWebSocketMonitoring. cbv zeta.
    destruct (opensSocket env svc); unfold Runtime.connect; cbv beta iota zeta;
      rewrite runtime_withChannel; simpl;
      by rewrite !timers_clearIfSet, timers_dropIfSet. }
  intros t. by apply no_reconnect_after_clear.
Qed.

Lemma pending_elem svc p t :
  t ∈ pending svc p ↔ t ∈ timers (runtime p) ∧ callback t = Reconnect svc.
Proof.
  unfold pending. rewrite !list_elem_of_In, List.filter_In.
  by rewrite bool_decide_eq_true.
Qed.

(** C8. Over every run of the process each service has at most one
    reconnect timer scheduled.  After any non-empty burst of [error] and
    [close] events of a service's sockets -- one of them, or both in either
    order -- exactly one is scheduled: a one-shot timer with the delay of
    5000 ms, the one [wsReconnectTimeout] holds.  When it is due it makes
    one reconnect attempt and leaves no reconnect timer behind. *)
Theorem C8_one_pending_reconnect env :
  (∀ events svc,
     (List.length (pending svc (run env events Lifecycle.initial)) ≤ 1)%nat)
  ∧ (∀ events disconnects svc,
       disconnects ≠ [] →
       forallb (isDisconnect svc) disconnects = true →
       ∃ t, pending svc (run env (events ++ disconnects) Lifecycle.initial) = [t]
            ∧ delay t = WS_RECONNECT_DELAY ∧ WS_RECONNECT_DELAY = 5000%Z
            ∧ repeats t = false
            ∧ wsReconnectTimeout
                (channel svc (run env (events ++ disconnects) Lifecycle.initial))
              = Some (handle t)
            ∧ pending svc
                (fire env (handle t) false
                   (run env (events ++ disconnects) Lifecycle.initial)) = []).
Proof.
  split.
  - intros events svc. apply pending_at_most_one, run_wellFormed,
      wellFormed_initial.
  - intros events disconnects svc Hne Hall.
    destruct (exists_last Hne) as (front & e & ->).
    rewrite forallb_app in Hall. apply andb_true_iff in Hall as [_ Hlast].
    simpl in Hlast. rewrite andb_true_r in Hlast.
    rewrite app_assoc, run_app. simpl.
    pose proof (run_wellFormed env (events ++ front) _ wellFormed_initial) as Hwf.
    set (p := run env (events ++ front) Lifecycle.initial) in *.
    assert (∃ q, wellFormed q ∧ step env e p = reconnectWebSocket svc q)
      as (q & Hq & ->).
    { destruct e; simpl in Hlast; try discriminate;
        apply bool_decide_eq_true in Hlast; subst svc0; simpl.
      - by exists p.
      - eexists. split; [|reflexivity]. by apply withRuntime_drop_wellFormed. }
    destruct (reconnectWebSocket_pending svc q Hq) as [Hp Hv].
    eexists. split; [exact Hp|]. repeat split; try done.
    pose proof (reconnectWebSocket_wellFormed svc q Hq) as Hwf'.
    unfold fire. rewrite lookup_unique;
      [|done|apply (pending_elem svc); rewrite Hp; by left].
    simpl. apply startWebSocketMonitoring_pending.
    by apply withRuntime_clear_wellFormed.
Qed.

(** The BEP20 socket of the running deployment reports an error and then
    closes: one reconnect timer is scheduled, not two. *)
Lemma C8_witness :
  Scenario.disconnect ≠ []
  ∧ forallb (isDisconnect Bep20) Scenario.disconnect = true
  ∧ ∃ t, pending Bep20
           (run Scenario.env (Scenario.running ++ Scenario.disconnect)
              Lifecycle.initial) = [t]
         ∧ delay t = WS_RECONNECT_DELAY ∧ WS_RECONNECT_DELAY = 5000%Z
         ∧ repeats t = false
         ∧ wsReconnectTimeout
             (channel Bep20
                (run Scenario.env (Scenario.running ++ Scenario.disconnect)
                   Lifecycle.initial))
           = Some (handle t)
         ∧ pending Bep20
             (fire Scenario.env (handle t) false
                (run Scenario.env (Scenario.running ++ Scenario.disconnect)
                   Lifecycle.initial)) = [].
Proof.
  split; [discriminate|]. split; [reflexivity|].
  apply (proj2 (C8_one_pending_reconnect Scenario.env)).
  - discriminate.
  - reflexivity.
Defined.

End ReconnectAndStop.

Section Stop.
Import Runtime Lifecycle.

Lemma pending_withRuntime_clear svc h p :
  (∀ t, t ∈ timers (runtime p) → callback t = Reconnect svc → handle t ≠ h) →
  List.filter (λ t, bool_decide (callback t = Reconnect svc))
    (timers (Runtime.clear h (runtime p)))
  = pending svc p.
Proof.
  unfold pending. simpl. induction (timers (runtime p)) as [|t l IH];
    intros H; simpl; [done|].
  destruct (bool_decide (callback t = Reconnect svc)) eqn:E.
  - apply bool_decide_eq_true in E.
    assert (Nat.eqb (handle t) h = false) as ->
      by (apply Nat.eqb_neq, H; [by left|done]).
    simpl. rewrite bool_decide_eq_true_2 by done. f_equal.
    apply IH. intros t' Hin. apply H. by right.
  - destruct (negb (Nat.eqb (handle t) h)); simpl; rewrite ?E;
      apply IH; intros t' Hin; apply H; by right.
Qed.

Lemma interval_not_reconnect p h svc t :
  wellFormed p → h ∈ intervalHandles p →
  t ∈ timers (runtime p) → callback t = Reconnect svc → handle t ≠ h.
Proof.
  intros (_ & _ & _ & Hint) Hh Hin Hcb Heq.
  destruct (Hint h Hh) as [_ Hnr]. by apply (Hnr t svc).
Qed.

Lemma clearMonitoringInterval_pending svc p :
  wellFormed p → pending svc (clearMonitoringInterval p) = pending svc p.
Proof.
  intros Hwf. unfold clearMonitoringInterval.
  destruct (monitoringInterval p) as [h|] eqn:E; [|done].
  apply pending_withRuntime_clear. intros t. apply interval_not_reconnect; [done|].
  unfold intervalHandles. rewrite E. simpl. by left.
Qed.

Lemma clearAddressRefreshInterval_pending svc p :
  wellFormed p → pending svc (clearAddressRefreshInterval p) = pending svc p.
Proof.
  intros Hwf. unfold clearAddressRefreshInterval.
  destruct (addressRefreshInterval p) as [h|] eqn:E; [|done].
  apply pending_withRuntime_clear. intros t. apply interval_not_reconnect; [done|].
  unfold intervalHandles. rewrite E.
  destruct (monitoringInterval p); simpl; set_solver.
Qed.

Lemma trc20_clearQuickPoll_pending svc p :
  wellFormed p → pending svc (trc20_clearQuickPoll p) = pending svc p.
Proof.
  intros Hwf. unfold trc20_clearQuickPoll.
  destruct (quickPollInterval p) as [h|] eqn:E; [|done].
  apply pending_withRuntime_clear. intros t. apply interval_not_reconnect; [done|].
  unfold intervalHandles. rewrite E.
  destruct (monitoringInterval p), (addressRefreshInterval p); simpl; set_solver.
Qed.

Lemma elem_of_filter_handle (l : list Timer) h t :
  t ∈ List.filter (λ t, negb (Nat.eqb (handle t) h)) l ↔ t ∈ l ∧ handle t ≠ h.
Proof.
  rewrite !list_elem_of_In, List.filter_In, negb_true_iff, Nat.eqb_neq. done.
Qed.

Lemma stopMonitoring_timers p t :
  t ∈ timers (runtime (stopMonitoring p))
  ↔ t ∈ timers (runtime p) ∧ handle t ∉ intervalHandles p.
Proof.
  unfold stopMonitoring, callIfFunction, bep20Service_stop,
    trc20Service_stop, btcService_stop, trc20_stop, trc20_clearQuickPoll,
    clearAddressRefreshInterval, clearMonitoringInterval, intervalHandles.
  cbv zeta.
  destruct (monitoringInterval p) as [h1|] eqn:E1;
    destruct (addressRefreshInterval p) as [h2|] eqn:E2;
    destruct (quickPollInterval p) as [h3|] eqn:E3;
    simpl; rewrite ?E1, ?E2, ?E3; simpl; rewrite ?E1, ?E2, ?E3; simpl;
    rewrite ?elem_of_filter_handle; set_solver.
Qed.


Lemma elem_of_timers_clearIfSet o rt t :
  t ∈ timers (Runtime.clearIfSet o rt)
  ↔ t ∈ timers rt ∧ Some (handle t) ≠ o.
Proof.
  destruct o as [h|]; simpl.
  - rewrite elem_of_filter_handle. split; intros [? ?]; split; congruence.
  - split; [by intros ?|by intros [? _]].
Qed.

(** What each function does to the timer table. *)
Lemma timers_reconnectWebSocket svc p t :
  t ∈ timers (runtime (reconnectWebSocket svc p))
  ↔ (t ∈ timers (runtime p)
     ∧ Some (handle t) ≠ wsReconnectTimeout (channel svc p))
    ∨ t = {| handle := next (runtime p); callback := Reconnect svc;
             delay := WS_RECONNECT_DELAY; repeats := false |}.
Proof.
  unfold reconnectWebSocket, Runtime.setTimeout, Runtime.schedule.
  cbv zeta beta iota. rewrite runtime_withChannel. simpl.
  rewrite elem_of_app, list_elem_of_singleton, elem_of_timers_clearIfSet.
  by rewrite next_clearIfSet.
Qed.

Lemma timers_startWebSocketMonitoring env throws svc p t :
  t ∈ timers (runtime (startWebSocketMonitoring env throws svc p)) →
  t ∈ timers (runtime p)
  ∨ (handle t = next (runtime p) ∧ callback t = Reconnect svc).
Proof.
  unfold startWebSocketMonitoring. cbv zeta.
  destruct (opensSocket env svc); [destruct throws|].
  - rewrite timers_reconnectWebSocket, runtime_withChannel.
    intros [[Hin _]| ->].
    + apply elem_of_timers_clearIfSet in Hin as [Hin _].
      rewrite timers_dropIfSet in Hin. by left.
    + right. simpl. by rewrite next_clearIfSet, next_dropIfSet.
  - unfold Runtime.connect. cbv beta iota zeta. rewrite runtime_withChannel.
    simpl. intros Hin. apply elem_of_timers_clearIfSet in Hin as [Hin _].
    rewrite timers_dropIfSet in Hin. by left.
  - rewrite runtime_withChannel. intros Hin.
    apply elem_of_timers_clearIfSet in Hin as [Hin _].
    rewrite timers_dropIfSet in Hin. by left.
Qed.

(** The three interval variables belong to no channel. *)
Lemma variables_withChannel svc ch rt p :
  monitoringInterval (withChannel svc ch rt p) = monitoringInterval p
  ∧ addressRefreshInterval (withChannel svc ch rt p) = addressRefreshInterval p
  ∧ quickPollInterval (withChannel svc ch rt p) = quickPollInterval p.
Proof. by destruct svc. Qed.

Lemma variables_reconnectWebSocket svc p :
  monitoringInterval (reconnectWebSocket svc p) = monitoringInterval p
  ∧ addressRefreshInterval (reconnectWebSocket svc p) = addressRefreshInterval p
  ∧ quickPollInterval (reconnectWebSocket svc p) = quickPollInterval p.
Proof.
  unfold reconnectWebSocket, Runtime.setTimeout, Runtime.schedule.
  cbv zeta beta iota. apply variables_withChannel.
Qed.

Lemma variables_startWebSocketMonitoring env throws svc p :
  monitoringInterval (startWebSocketMonitoring env throws svc p)
  = monitoringInterval p
  ∧ addressRefreshInterval (startWebSocketMonitoring env throws svc p)
    = addressRefreshInterval p
  ∧ quickPollInterval (startWebSocketMonitoring env throws svc p)
    = quickPollInterval p.
Proof.
  unfold startWebSocketMonitoring. cbv zeta.
  destruct (opensSocket env svc); [destruct throws|];
    unfold Runtime.connect; cbv beta iota zeta.
  - destruct (variables_reconnectWebSocket svc
                (withChannel svc
                   match wsReconnectTimeout (channel svc p) with
                   | Some _ => {| wsConnection := wsConnection (channel svc p);
                                  wsReconnectTimeout := None |}
                   | None => channel svc p
                   end
                   (Runtime.clearIfSet (wsReconnectTimeout (channel svc p))
                      (Runtime.dropIfSet (wsConnection (channel svc p)) (runtime p)))
                   p)) as (-> & -> & ->).
    apply variables_withChannel.
  - apply variables_withChannel.
  - apply variables_withChannel.
Qed.

(** ** The quick-poll interval is never duplicated *)

Lemma quickTracked_reconnectWebSocket svc p :
  quickTracked p → quickTracked (reconnectWebSocket svc p).
Proof.
  intros Hq t Hin Hcb.
  destruct (variables_reconnectWebSocket svc p) as (_ & _ & ->).
  apply timers_reconnectWebSocket in Hin as [[Hin _]| ->]; [by apply Hq|done].
Qed.

Lemma quickTracked_startWebSocketMonitoring env throws svc p :
  quickTracked p → quickTracked (startWebSocketMonitoring env throws svc p).
Proof.
  intros Hq t Hin Hcb.
  destruct (variables_startWebSocketMonitoring env throws svc p) as (_ & _ & ->).
  apply timers_startWebSocketMonitoring in Hin as [Hin|[_ Hr]];
    [by apply Hq|congruence].
Qed.

Lemma quickTracked_withRuntime_clear h p :
  quickTracked p → quickTracked (withRuntime (Runtime.clear h (runtime p)) p).
Proof.
  intros Hq t Hin Hcb. simpl in *.
  apply elem_of_filter_handle in Hin as [Hin _]. by apply Hq.
Qed.

Lemma quickTracked_startMonitoring env p :
  quickTracked p → quickTracked (startMonitoring env p).
Proof.
  intros Hq t. unfold startMonitoring, Runtime.setInterval, Runtime.schedule.
  cbv zeta beta iota. simpl.
  rewrite !elem_of_app, !list_elem_of_singleton.
  intros [[Hin| ->]| ->] Hcb; [by apply Hq|done|done].
Qed.

Lemma quickTracked_clearQuickPoll p :
  quickTracked p →
  quickTracked (trc20_clearQuickPoll p)
  ∧ ∀ t, t ∈ timers (runtime (trc20_clearQuickPoll p)) → callback t ≠ QuickPoll.
Proof.
  intros Hq. unfold trc20_clearQuickPoll.
  destruct (quickPollInterval p) as [h|] eqn:E.
  - assert (∀ t, t ∈ timers (Runtime.clear h (runtime p)) → callback t ≠ QuickPoll)
      as Hnone.
    { intros t Hin Hcb. apply elem_of_filter_handle in Hin as [Hin Hne].
      specialize (Hq t Hin Hcb). congruence. }
    split; [|done]. intros t Hin Hcb. by destruct (Hnone t Hin).
  - split; [done|]. intros t Hin Hcb. specialize (Hq t Hin Hcb). congruence.
Qed.

Lemma stopMonitoring_no_quickPoll p t :
  quickTracked p → t ∈ timers (runtime (stopMonitoring p)) →
  callback t ≠ QuickPoll.
Proof.
  intros Hq Hin Hcb. apply stopMonitoring_timers in Hin as [Hin Hnot].
  specialize (Hq t Hin Hcb). apply Hnot. unfold intervalHandles. rewrite Hq.
  destruct (monitoringInterval p), (addressRefreshInterval p); simpl; set_solver.
Qed.

Lemma quickTracked_stopMonitoring p :
  quickTracked p → quickTracked (stopMonitoring p).
Proof.
  intros Hq t Hin Hcb. by destruct (stopMonitoring_no_quickPoll p t Hq Hin).
Qed.

Lemma quickTracked_startRealTimeMonitoring env p :
  quickTracked p → quickTracked (trc20_startRealTimeMonitoring env p).
Proof.
  intros Hq. unfold trc20_startRealTimeMonitoring. cbv zeta.
  destruct (quickTracked_clearQuickPoll p Hq) as [Hq1 Hnone].
  destruct (Js.truthy (TRONGRID_API_KEY env)); [|done].
  unfold Runtime.setInterval, Runtime.schedule. cbv zeta beta iota.
  intros t. simpl. rewrite elem_of_app, list_elem_of_singleton.
  intros [Hin| ->] Hcb; [by destruct (Hnone t Hin)|done].
Qed.

Lemma quickTracked_step env e p : quickTracked p → quickTracked (step env e p).
Proof.
  intros Hq. destruct e; simpl.
  - by apply quickTracked_startMonitoring.
  - by apply quickTracked_stopMonitoring.
  - by apply quickTracked_startWebSocketMonitoring.
  - by apply quickTracked_startRealTimeMonitoring.
  - by apply quickTracked_reconnectWebSocket.
  - apply quickTracked_reconnectWebSocket. intros t Hin Hcb. by apply Hq.
  - unfold fire. destruct (Runtime.lookup h (runtime p)) as [t|]; [|done].
    assert (quickTracked (if repeats t then p
                          else withRuntime (Runtime.clear h (runtime p)) p)) as Hq1.
    { destruct (repeats t); [done|by apply quickTracked_withRuntime_clear]. }
    destruct (callback t); try done.
    by apply quickTracked_startWebSocketMonitoring.
Qed.

Lemma quickTracked_run env events : ∀ p,
  quickTracked p → quickTracked (run env events p).
Proof.
  induction events as [|e rest IH]; intros p Hq; [done|].
  apply IH. by apply quickTracked_step.
Qed.

Lemma quickTracked_reachable env events :
  quickTracked (run env events Lifecycle.initial).
Proof.
  apply quickTracked_run. intros t Hin. by apply elem_of_nil in Hin.
Qed.

Lemma quickPolls_stopMonitoring p :
  quickTracked p → quickPolls (stopMonitoring p) = [].
Proof.
  intros Hq. unfold quickPolls.
  pose proof (stopMonitoring_no_quickPoll p) as Hnone.
  induction (timers (runtime (stopMonitoring p))) as [|t l IH]; simpl; [done|].
  rewrite bool_decide_eq_false_2 by (apply Hnone; [done|by left]).
  apply IH. intros t' Hq' Hin. apply Hnone; [done|by right].
Qed.

Lemma quick_handle_lt p h :
  wellFormed p → quickPollInterval p = Some h → (h < next (runtime p))%nat.
Proof.
  intros (_ & _ & _ & Hi) E. apply Hi. unfold intervalHandles. rewrite E.
  destruct (monitoringInterval p), (addressRefreshInterval p); simpl;
    set_solver.
Qed.

Lemma quickOwned_reconnectWebSocket svc p :
  wellFormed p → quickOwned p → quickOwned (reconnectWebSocket svc p).
Proof.
  intros Hwf Hq h t.
  destruct (variables_reconnectWebSocket svc p) as (_ & _ & ->).
  intros E Hin Hh. pose proof (quick_handle_lt p h Hwf E) as Hlt.
  apply timers_reconnectWebSocket in Hin as [[Hin _]| ->];
    [by apply (Hq h)|simpl in Hh; lia].
Qed.

Lemma quickOwned_startWebSocketMonitoring env throws svc p :
  wellFormed p → quickOwned p →
  quickOwned (startWebSocketMonitoring env throws svc p).
Proof.
  intros Hwf Hq h t.
  destruct (variables_startWebSocketMonitoring env throws svc p) as (_ & _ & ->).
  intros E Hin Hh. pose proof (quick_handle_lt p h Hwf E) as Hlt.
  apply timers_startWebSocketMonitoring in Hin as [Hin|[Hn _]];
    [by apply (Hq h)|lia].
Qed.

Lemma quickOwned_startMonitoring env p :
  wellFormed p → quickOwned p → quickOwned (startMonitoring env p).
Proof.
  intros Hwf Hq h t. unfold startMonitoring, Runtime.setInterval,
    Runtime.schedule. cbv zeta beta iota. simpl.
  intros E. pose proof (quick_handle_lt p h Hwf E) as Hlt.
  rewrite !elem_of_app, !list_elem_of_singleton.
  intros [[Hin| ->]| ->] Hh; [by apply (Hq h)|simpl in Hh; lia|simpl in Hh; lia].
Qed.

Lemma quickOwned_startRealTimeMonitoring env p :
  wellFormed p → quickOwned p → quickOwned (trc20_startRealTimeMonitoring env p).
Proof.
  intros Hwf Hq. unfold trc20_startRealTimeMonitoring. cbv zeta.
  assert (quickOwned (trc20_clearQuickPoll p)) as Hq1.
  { unfold trc20_clearQuickPoll. by destruct (quickPollInterval p). }
  destruct (Js.truthy (TRONGRID_API_KEY env)); [|done].
  unfold Runtime.setInterval, Runtime.schedule. cbv zeta beta iota.
  intros h t. simpl. intros [= <-].
  rewrite elem_of_app, list_elem_of_singleton. intros [Hin| ->] Hh; [|done].
  exfalso. destruct Hwf as (_ & Hlt & _).
  unfold trc20_clearQuickPoll in Hin, Hh.
  destruct (quickPollInterval p); simpl in Hin, Hh.
  - apply elem_of_filter_handle in Hin as [Hin _]. specialize (Hlt t Hin). lia.
  - specialize (Hlt t Hin). lia.
Qed.

Lemma quickPollInterval_stopMonitoring p :
  quickPollInterval (stopMonitoring p) = None.
Proof.
  unfold stopMonitoring, callIfFunction, bep20Service_stop,
    trc20Service_stop, btcService_stop, trc20_stop, trc20_clearQuickPoll,
    clearAddressRefreshInterval, clearMonitoringInterval. cbv zeta.
  destruct (monitoringInterval p), (addressRefreshInterval p),
    (quickPollInterval p) eqn:E3; simpl; rewrite ?E3; done.
Qed.

Lemma quickOwned_step env e p :
  wellFormed p → quickOwned p → quickOwned (step env e p).
Proof.
  intros Hwf Hq. destruct e; simpl.
  - by apply quickOwned_startMonitoring.
  - intros h t E. by rewrite quickPollInterval_stopMonitoring in E.
  - by apply quickOwned_startWebSocketMonitoring.
  - by apply quickOwned_startRealTimeMonitoring.
  - by apply quickOwned_reconnectWebSocket.
  - apply quickOwned_reconnectWebSocket; [|intros h t E Hin; by apply (Hq h)].
    by apply withRuntime_drop_wellFormed.
  - unfold fire. destruct (Runtime.lookup h (runtime p)) as [t|]; [|done].
    assert (wellFormed (if repeats t then p
                        else withRuntime (Runtime.clear h (runtime p)) p)
            ∧ quickOwned (if repeats t then p
                          else withRuntime (Runtime.clear h (runtime p)) p))
      as [Hwf1 Hq1].
    { destruct (repeats t); [done|]. split.
      - by apply withRuntime_clear_wellFormed.
      - intros h' t' E Hin. simpl in *.
        apply elem_of_filter_handle in Hin as [Hin _]. by apply (Hq h'). }
    destruct (callback t); try done.
    by apply quickOwned_startWebSocketMonitoring.
Qed.

Lemma quickOwned_run env events : ∀ p,
  wellFormed p → quickOwned p → quickOwned (run env events p).
Proof.
  induction events as [|e rest IH]; intros p Hwf Hq; [done|].
  apply IH; [by apply step_wellFormed|by apply quickOwned_step].
Qed.

Lemma quickOwned_reachable env events :
  quickOwned (run env events Lifecycle.initial).
Proof.
  apply quickOwned_run; [apply wellFormed_initial|].
  intros h t _ Hin. by apply elem_of_nil in Hin.
Qed.

(** ** What [stopMonitoring] leaves of the deposit check and the refresh *)

Lemma filter_absorb {A} (f g : A → bool) (l : list A) :
  (∀ x, x ∈ l → f x = true → g x = true) →
  List.filter f (List.filter g l) = List.filter f l.
Proof.
  induction l as [|x l IH]; intros H; simpl; [done|].
  destruct (g x) eqn:Eg; simpl.
  - rewrite IH; [done|]. intros y Hy. apply H. by right.
  - destruct (f x) eqn:Ef.
    + rewrite H in Eg; [done|by left|done].
    + apply IH. intros y Hy. apply H. by right.
Qed.

Lemma filter_nothing {A} (f : A → bool) (l : list A) :
  (∀ x, x ∈ l → f x = false) → List.filter f l = [].
Proof.
  induction l as [|x l IH]; intros H; simpl; [done|].
  rewrite (H x) by by left. apply IH. intros y Hy. apply H. by right.
Qed.

(** [startMonitoring] overwrites the two handles without cancelling what
    they held: a stop right after it cancels the two intervals it created
    and leaves those of earlier starts as they were. *)
Lemma intervals_start_stop env p :
  wellFormed p → quickOwned p →
  intervals (stopMonitoring (startMonitoring env p)) = intervals p.
Proof.
  intros (_ & Hlt & _) Hq.
  unfold intervals, stopMonitoring, callIfFunction, bep20Service_stop,
    trc20Service_stop, btcService_stop, trc20_stop, trc20_clearQuickPoll,
    clearAddressRefreshInterval, clearMonitoringInterval, startMonitoring,
    Runtime.setInterval, Runtime.schedule.
  cbv zeta beta iota. simpl.
  assert (List.filter isInterval
            (List.filter (λ t, negb (Nat.eqb (handle t) (S (next (runtime p)))))
               (List.filter (λ t, negb (Nat.eqb (handle t) (next (runtime p))))
                  ((timers (runtime p) ++
                    [{| handle := next (runtime p); callback := CheckDeposits;
                        delay := CHECK_INTERVAL env; repeats := true |}]) ++
                   [{| handle := S (next (runtime p));
                       callback := RefreshAddresses;
                       delay := ADDRESS_REFRESH_INTERVAL env;
                       repeats := true |}])))
          = List.filter isInterval (timers (runtime p))) as Hcore.
  { rewrite !List.filter_app. cbn [List.filter handle].
    rewrite ?Nat.eqb_refl.
    replace (Nat.eqb (S (next (runtime p))) (next (runtime p))) with false
      by (symmetry; apply Nat.eqb_neq; lia).
    cbn [negb List.filter handle]. rewrite ?Nat.eqb_refl.
    cbn [negb List.filter]. rewrite ?app_nil_r.
    rewrite filter_absorb.
    - apply filter_absorb. intros t Hin _.
      apply negb_true_iff, Nat.eqb_neq. specialize (Hlt t Hin). lia.
    - intros t Hin _. apply negb_true_iff, Nat.eqb_neq.
      apply list_elem_of_In, List.filter_In in Hin as [Hin _].
      apply list_elem_of_In in Hin. specialize (Hlt t Hin). lia. }
  destruct (quickPollInterval p) as [hq|] eqn:E; simpl; [|done].
  rewrite filter_absorb; [done|].
  intros t Hin Hf. apply negb_true_iff, Nat.eqb_neq. intros Hh.
  assert (t ∈ timers (runtime p)) as Hin'.
  { apply list_elem_of_In, List.filter_In in Hin as [Hin Hne1].
    apply List.filter_In in Hin as [Hin Hne2].
    apply negb_true_iff, Nat.eqb_neq in Hne1, Hne2.
    apply list_elem_of_In in Hin.
    rewrite !elem_of_app, !list_elem_of_singleton in Hin.
    destruct Hin as [[Hin| ->]| ->]; [done|by simpl in *|by simpl in *]. }
  pose proof (Hq hq t E Hin' Hh) as Hcb.
  unfold isInterval in Hf. rewrite Hcb in Hf. done.
Qed.

(** Steps that schedule no deposit check and no refresh. *)
Lemma keepsIntervals_refl p : keepsIntervals p p.
Proof. by split. Qed.

Lemma keepsIntervals_trans p q r :
  keepsIntervals p q → keepsIntervals q r → keepsIntervals p r.
Proof.
  intros (H1 & H2 & H3) (H1' & H2' & H3'). split; [|split; congruence].
  intros t Hin Hi. apply H1; [|done]. by apply H1'.
Qed.

Lemma keepsIntervals_reconnectWebSocket svc p :
  keepsIntervals p (reconnectWebSocket svc p).
Proof.
  destruct (variables_reconnectWebSocket svc p) as (H1 & H2 & _).
  split; [|done]. intros t Hin Hi.
  apply timers_reconnectWebSocket in Hin as [[Hin _]| ->]; done.
Qed.

Lemma keepsIntervals_startWebSocketMonitoring env throws svc p :
  keepsIntervals p (startWebSocketMonitoring env throws svc p).
Proof.
  destruct (variables_startWebSocketMonitoring env throws svc p) as (H1 & H2 & _).
  split; [|done]. intros t Hin Hi.
  apply timers_startWebSocketMonitoring in Hin as [Hin|[_ Hcb]]; [done|].
  unfold isInterval in Hi. rewrite Hcb in Hi. done.
Qed.

Lemma keepsIntervals_withRuntime rt p :
  (∀ t, t ∈ timers rt → t ∈ timers (runtime p)) →
  keepsIntervals p (withRuntime rt p).
Proof. intros H. split; [|done]. intros t Hin _. by apply H. Qed.

Lemma keepsIntervals_startRealTimeMonitoring env p :
  keepsIntervals p (trc20_startRealTimeMonitoring env p).
Proof.
  unfold trc20_startRealTimeMonitoring, trc20_clearQuickPoll,
    Runtime.setInterval, Runtime.schedule. cbv zeta beta iota.
  destruct (quickPollInterval p), (Js.truthy (TRONGRID_API_KEY env));
    (split; [|done]); simpl; intros t;
    rewrite ?elem_of_app, ?list_elem_of_singleton, ?elem_of_filter_handle;
    intros Hin Hi; try (by destruct Hin as [[? _]| ->]); try done.
  - by destruct Hin.
  - by destruct Hin as [? | ->].
Qed.

Lemma keepsIntervals_fire env h throws p : keepsIntervals p (fire env h throws p).
Proof.
  unfold fire. destruct (Runtime.lookup h (runtime p)) as [t|];
    [|apply keepsIntervals_refl].
  assert (keepsIntervals p (if repeats t then p
                            else withRuntime (Runtime.clear h (runtime p)) p))
    as Hk.
  { destruct (repeats t); [apply keepsIntervals_refl|].
    apply keepsIntervals_withRuntime. intros t' Hin.
    by apply elem_of_filter_handle in Hin as [? _]. }
  destruct (callback t); try done.
  eapply keepsIntervals_trans; [exact Hk|].
  apply keepsIntervals_startWebSocketMonitoring.
Qed.

Lemma intervalsHeld_keeps p q :
  intervalsHeld p → keepsIntervals p q → intervalsHeld q.
Proof.
  intros Hh (H1 & H2 & H3) t Hin Hi. rewrite H2, H3.
  apply Hh; [|done]. by apply H1.
Qed.

Lemma intervals_none p t :
  intervals p = [] → t ∈ timers (runtime p) → isInterval t = false.
Proof.
  unfold intervals. intros E Hin.
  destruct (isInterval t) eqn:Hi; [|done].
  assert (t ∈ List.filter isInterval (timers (runtime p))) as H.
  { apply list_elem_of_In, List.filter_In. by rewrite <- list_elem_of_In. }
  rewrite E in H. by apply elem_of_nil in H.
Qed.

Lemma intervalsHeld_startMonitoring env p :
  intervals p = [] → intervalsHeld (startMonitoring env p).
Proof.
  intros E t. unfold startMonitoring, Runtime.setInterval, Runtime.schedule.
  cbv zeta beta iota. simpl.
  rewrite !elem_of_app, !list_elem_of_singleton.
  intros [[Hin| ->]| ->] Hi; [|by left|by right].
  by rewrite (intervals_none p t E Hin) in Hi.
Qed.

Lemma intervals_stopMonitoring p :
  intervalsHeld p → intervals (stopMonitoring p) = [].
Proof.
  intros Hh. unfold intervals. apply filter_nothing. intros t Hin.
  apply stopMonitoring_timers in Hin as [Hin Hnot].
  destruct (isInterval t) eqn:Hi; [|done]. exfalso. apply Hnot.
  unfold intervalHandles.
  destruct (Hh t Hin Hi) as [-> | ->]; simpl; [by left|].
  destruct (monitoringInterval p); simpl; set_solver.
Qed.

Lemma intervalsHeld_stopMonitoring p :
  intervalsHeld p → intervalsHeld (stopMonitoring p).
Proof.
  intros Hh t Hin Hi.
  by rewrite (intervals_none _ t (intervals_stopMonitoring p Hh) Hin) in Hi.
Qed.

Lemma startsIdle_held env events : ∀ p,
  intervalsHeld p → startsIdle env events p = true →
  intervalsHeld (run env events p).
Proof.
  induction events as [|e rest IH]; intros p Hh Hs; [done|].
  simpl in Hs. apply andb_true_iff in Hs as [He Hs].
  apply IH; [|done]. destruct e; simpl.
  - apply intervalsHeld_startMonitoring. by destruct (intervals p).
  - by apply intervalsHeld_stopMonitoring.
  - eapply intervalsHeld_keeps; [done|].
    apply keepsIntervals_startWebSocketMonitoring.
  - eapply intervalsHeld_keeps; [done|].
    apply keepsIntervals_startRealTimeMonitoring.
  - eapply intervalsHeld_keeps; [done|].
    apply keepsIntervals_reconnectWebSocket.
  - eapply intervalsHeld_keeps; [done|].
    eapply keepsIntervals_trans; [|apply keepsIntervals_reconnectWebSocket].
    by apply keepsIntervals_withRuntime.
  - eapply intervalsHeld_keeps; [done|]. apply keepsIntervals_fire.
Qed.

(** C5, as stated, fails: in the running deployment whose BEP20 socket has
    just disconnected, [stopMonitoring] leaves the BEP20 reconnect timer
    scheduled and the BTC socket open, and when that timer is due a BEP20
    socket is opened again. *)
Lemma C5_counterexample :
  ∃ t c,
    pending Bep20
      (run Scenario.env
         (Scenario.running ++ Scenario.disconnect ++ [StopMonitoring])
         Lifecycle.initial) = [t]
    ∧ openSockets Btc
        (run Scenario.env
           (Scenario.running ++ Scenario.disconnect ++ [StopMonitoring])
           Lifecycle.initial) ≠ []
    ∧ openSockets Bep20
        (run Scenario.env
           (Scenario.running ++ Scenario.disconnect ++ [StopMonitoring])
           Lifecycle.initial) = []
    ∧ openSockets Bep20
        (run Scenario.env
           (Scenario.running ++ Scenario.disconnect
            ++ [StopMonitoring; Fire (handle t) false])
           Lifecycle.initial) = [c].
Proof.
  eexists. eexists.
  split; [vm_compute; reflexivity|].
  split; [vm_compute; discriminate|].
  split; vm_compute; reflexivity.
Qed.

(** C5 (amended). [stopMonitoring] cancels the timers held by
    [monitoringInterval] and [addressRefreshInterval] and, through the
    [stop] of trc20Service, the quick-poll interval; the three variables are
    reset.  In every reachable process no quick poll is scheduled after the
    stop.  Where [startMonitoring] was only ever called while no deposit
    check and no refresh was scheduled, the two held timers are all there
    is of them, and none is scheduled after the stop; [startMonitoring]
    itself cancels nothing, so that a stop right after a start leaves the
    deposit checks and refreshes of earlier starts as they were.  The BTC
    and BEP20 services export no [stop]: their sockets, their
    [wsConnection] and [wsReconnectTimeout] and, in every reachable process,
    their scheduled reconnect timers are left as they are. *)
Theorem C5_stopMonitoring_cancels_intervals_only :
  (∀ p,
     monitoringInterval (stopMonitoring p) = None
     ∧ addressRefreshInterval (stopMonitoring p) = None
     ∧ quickPollInterval (stopMonitoring p) = None
     ∧ (∀ t, t ∈ timers (runtime (stopMonitoring p))
             ↔ t ∈ timers (runtime p) ∧ handle t ∉ intervalHandles p)
     ∧ sockets (runtime (stopMonitoring p)) = sockets (runtime p)
     ∧ btcChannel (stopMonitoring p) = btcChannel p
     ∧ bep20Channel (stopMonitoring p) = bep20Channel p)
  ∧ (∀ env events svc,
       pending svc (stopMonitoring (run env events Lifecycle.initial))
       = pending svc (run env events Lifecycle.initial)
       ∧ openSockets svc (stopMonitoring (run env events Lifecycle.initial))
         = openSockets svc (run env events Lifecycle.initial))
  ∧ (∀ env events,
       quickPolls (stopMonitoring (run env events Lifecycle.initial)) = []
       ∧ (startsIdle env events Lifecycle.initial = true →
          intervals (stopMonitoring (run env events Lifecycle.initial)) = [])
       ∧ intervals
           (stopMonitoring
              (startMonitoring env (run env events Lifecycle.initial)))
         = intervals (run env events Lifecycle.initial)).
Proof.
  split; [|split].
  - intros p.
    assert (monitoringInterval (stopMonitoring p) = None
            ∧ addressRefreshInterval (stopMonitoring p) = None
            ∧ quickPollInterval (stopMonitoring p) = None
            ∧ sockets (runtime (stopMonitoring p)) = sockets (runtime p)
            ∧ btcChannel (stopMonitoring p) = btcChannel p
            ∧ bep20Channel (stopMonitoring p) = bep20Channel p)
      as (H1 & H2 & H3 & H4 & H5 & H6).
    { unfold stopMonitoring, callIfFunction, bep20Service_stop,
        trc20Service_stop, btcService_stop, trc20_stop, trc20_clearQuickPoll,
        clearAddressRefreshInterval, clearMonitoringInterval.
      cbv zeta.
      destruct (monitoringInterval p) as [h1|] eqn:E1;
        destruct (addressRefreshInterval p) as [h2|] eqn:E2;
        destruct (quickPollInterval p) as [h3|] eqn:E3;
        simpl; rewrite ?E1, ?E2, ?E3; simpl; rewrite ?E1, ?E2, ?E3; done. }
    split; [done|]. split; [done|]. split; [done|].
    split; [intros t; apply stopMonitoring_timers|done].
  - intros env events svc.
    pose proof (run_wellFormed env events _ wellFormed_initial) as Hwf.
    set (p := run env events Lifecycle.initial) in *. split.
    + unfold stopMonitoring, callIfFunction, bep20Service_stop,
        trc20Service_stop, btcService_stop, trc20_stop. cbv zeta.
      rewrite trc20_clearQuickPoll_pending, clearAddressRefreshInterval_pending,
        clearMonitoringInterval_pending; try done.
      * by apply clearMonitoringInterval_wellFormed.
      * by apply clearAddressRefreshInterval_wellFormed,
          clearMonitoringInterval_wellFormed.
    + unfold openSockets, stopMonitoring, callIfFunction, bep20Service_stop,
        trc20Service_stop, btcService_stop, trc20_stop, trc20_clearQuickPoll,
        clearAddressRefreshInterval, clearMonitoringInterval.
      cbv zeta.
      destruct (monitoringInterval p) as [h1|] eqn:E1;
        destruct (addressRefreshInterval p) as [h2|] eqn:E2;
        destruct (quickPollInterval p) as [h3|] eqn:E3;
        simpl; rewrite ?E1, ?E2, ?E3; simpl; rewrite ?E1, ?E2, ?E3; done.
  - intros env events. split; [|split].
    + apply quickPolls_stopMonitoring, quickTracked_reachable.
    + intros Hs. apply intervals_stopMonitoring.
      apply (startsIdle_held env events); [|done].
      intros t Hin. by apply elem_of_nil in Hin.
    + apply intervals_start_stop;
        [apply run_wellFormed, wellFormed_initial|apply quickOwned_reachable].
Qed.

(** In the running deployment, started once, whose BEP20 socket has just
    disconnected, a stop leaves no deposit check, no address refresh and no
    quick poll scheduled.  Had monitoring been started twice, the stop
    would leave the deposit check and the refresh of the first start. *)
Lemma C5_witness :
  startsIdle Scenario.env (Scenario.running ++ Scenario.disconnect)
    Lifecycle.initial = true
  ∧ intervals
      (stopMonitoring
         (run Scenario.env (Scenario.running ++ Scenario.disconnect)
            Lifecycle.initial)) = []
  ∧ quickPolls
      (stopMonitoring
         (run Scenario.env (Scenario.running ++ Scenario.disconnect)
            Lifecycle.initial)) = []
  ∧ map callback
      (intervals
         (stopMonitoring
            (startMonitoring Scenario.env
               (run Scenario.env [StartMonitoring] Lifecycle.initial))))
    = [CheckDeposits; RefreshAddresses].
Proof.
  destruct (proj2 (proj2 C5_stopMonitoring_cancels_intervals_only)
              Scenario.env (Scenario.running ++ Scenario.disconnect))
    as (Hq & Hi & _).
  split; [reflexivity|]. split; [apply Hi; reflexivity|]. split; [exact Hq|].
  rewrite (proj2 (proj2 (proj2 (proj2 C5_stopMonitoring_cancels_intervals_only)
                           Scenario.env [StartMonitoring]))).
  reflexivity.
Defined.

End Stop.

(** * Further properties of the watchers *)

(** ** A second check with the same answer *)

Section ScanAgain.
Context {T : Type} (key : T → string) (guard : T → Js.Completion bool)
        (select : T → Js.Completion (option Deposit)).

Lemma scan_grows (txs : list T) : ∀ s,
  s ⊆ marked (Watcher.scan key guard select txs [] s).
Proof.
  induction txs as [|tx rest IH]; intros s; simpl; [done|].
  destruct (guard tx) as [[|]|e]; [|apply IH|done].
  destruct (decide (key tx ∈ s)); [apply IH|].
  destruct (select tx) as [[d|]|e]; [|apply IH|done].
  rewrite scan_acc. simpl. specialize (IH ({[key tx]} ∪ s)). set_solver.
Qed.

(** Run again from the set it left, the loop pushes nothing, records
    nothing, and is left by the same exception if it was left by one. *)
Lemma scan_again (txs : list T) : ∀ s,
  pushed (Watcher.scan key guard select txs []
            (marked (Watcher.scan key guard select txs [] s))) = []
  ∧ marked (Watcher.scan key guard select txs []
              (marked (Watcher.scan key guard select txs [] s)))
    = marked (Watcher.scan key guard select txs [] s)
  ∧ raised (Watcher.scan key guard select txs []
              (marked (Watcher.scan key guard select txs [] s)))
    = raised (Watcher.scan key guard select txs [] s).
Proof.
  induction txs as [|tx rest IH]; intros s; [done|].
  cbn [Watcher.scan].
  destruct (guard tx) as [[|]|e] eqn:Eg; [|apply IH|done].
  destruct (decide (key tx ∈ s)) as [Hin|Hout].
  - rewrite decide_True by (by apply (scan_grows rest s)). apply IH.
  - destruct (select tx) as [[d|]|e] eqn:Es.
    + rewrite scan_acc. cbn [marked pushed raised].
      rewrite decide_True
        by (apply (scan_grows rest ({[key tx]} ∪ s)); set_solver).
      destruct (IH ({[key tx]} ∪ s)) as (H1 & H2 & H3). done.
    + destruct (decide (key tx ∈ marked (Watcher.scan key guard select rest [] s)));
        [apply IH|]. rewrite ?Es. apply IH.
    + cbn [marked raise]. rewrite decide_False by done. by rewrite ?Es.
Qed.

Lemma returned_again (txs : list T) (s : gset string) :
  returned (Watcher.scan key guard select txs []
              (returned (Watcher.scan key guard select txs [] s)).2)
  = ([], (returned (Watcher.scan key guard select txs [] s)).2).
Proof.
  rewrite returned_set. destruct (scan_again txs s) as (Hp & Hm & Hr).
  unfold returned. rewrite Hp, Hm. by destruct (raised _).
Qed.

End ScanAgain.

(** X1. A polling [checkAddress] repeated with the same provider answer and
    the same directory, on the set the first call left, returns nothing and
    leaves the set as it is -- for the BTC watcher without and with the
    price lookup, the TRC20 and the BEP20 watcher.  So what a call returns
    is returned once, and a deposit that was built and then dropped by the
    [catch] is not returned by later calls either. *)
Theorem X1_repeated_check_returns_nothing :
  (∀ state address response s,
     BtcService.checkAddress state address response
       (BtcService.checkAddress state address response s).2
     = ([], (BtcService.checkAddress state address response s).2))
  ∧ (∀ state address response price s,
       BtcServiceWs.checkAddress state address response price
         (BtcServiceWs.checkAddress state address response price s).2
       = ([], (BtcServiceWs.checkAddress state address response price s).2))
  ∧ (∀ state address response s,
       Trc20Service.checkAddress state address response
         (Trc20Service.checkAddress state address response s).2
       = ([], (Trc20Service.checkAddress state address response s).2))
  ∧ (∀ state address response s,
       Bep20Service.checkAddress state address response
         (Bep20Service.checkAddress state address response s).2
       = ([], (Bep20Service.checkAddress state address response s).2)).
Proof.
  split; [|split; [|split]].
  - intros state address response s. unfold BtcService.checkAddress.
    destruct response as [|[txs|]]; try done.
    rewrite !btc_loop_scan. apply returned_again.
  - intros state address response price s. unfold BtcServiceWs.checkAddress.
    destruct response as [|[txs|]]; try done. cbv zeta.
    rewrite !btcWs_loop_scan. apply returned_again.
  - intros state address response s. unfold Trc20Service.checkAddress.
    destruct response as [|[body|]]; try done.
    destruct (negb (Trc20Service.success body)); [done|]. cbv zeta.
    rewrite !trc20_loop_scan. apply returned_again.
  - intros state address response s. unfold Bep20Service.checkAddress.
    destruct response as [|body]; try done.
    destruct (negb (String.eqb (Bep20Service.status body) "1")); [done|].
    cbv zeta. rewrite !bep20_loop_scan. apply returned_again.
Qed.

(** ** The count of processed transactions *)

Lemma dedups_size (f : gset string → list Deposit * gset string) s :
  Watcher.dedups f → (List.length (f s).1 ≤ size (f s).2)%nat.
Proof.
  intros H. destruct (H s) as (Hnd & _ & Hsub).
  rewrite <- (length_map txHash).
  rewrite <- (size_list_to_set (C := gset string)) by done.
  apply subseteq_size. set_solver.
Qed.

(** X2. Over any sequence of detections of a watcher, from the empty set,
    [getProcessedCount()] is at least the number of deposits the watcher
    has returned: every returned deposit has its own hash in the set.  (It
    can be more: the deposits dropped by a [catch] are counted too.) *)
Theorem X2_processed_count_bounds_deposits :
  (∀ events,
     (List.length (Watcher.emitted Watcher.btc events)
      ≤ BtcService.getProcessedCount (Watcher.run Watcher.btc events ∅).2)%nat)
  ∧ (∀ events,
       (List.length (Watcher.emitted Watcher.btcWs events)
        ≤ BtcService.getProcessedCount (Watcher.run Watcher.btcWs events ∅).2)%nat)
  ∧ (∀ events,
       (List.length (Watcher.emitted Watcher.trc20 events)
        ≤ Trc20Service.getProcessedCount (Watcher.run Watcher.trc20 events ∅).2)%nat)
  ∧ (∀ events,
       (List.length (Watcher.emitted Watcher.bep20 events)
        ≤ Bep20Service.getProcessedCount (Watcher.run Watcher.bep20 events ∅).2)%nat)
  ∧ BtcService.getProcessedCount
      (BtcService.checkAddress Scenario.owned "bc1alice" Scenario.spoiled ∅).2
    = 1%nat
  ∧ (BtcService.checkAddress Scenario.owned "bc1alice" Scenario.spoiled ∅).1 = [].
Proof.
  split; [|split; [|split; [|split; [|split]]]]; try intros events.
  - apply (dedups_size (Watcher.run Watcher.btc events)), run_dedups, btc_dedups.
  - apply (dedups_size (Watcher.run Watcher.btcWs events)), run_dedups,
      btcWs_dedups.
  - apply (dedups_size (Watcher.run Watcher.trc20 events)), run_dedups,
      trc20_dedups.
  - apply (dedups_size (Watcher.run Watcher.bep20 events)), run_dedups,
      bep20_dedups.
  - vm_compute. reflexivity.
  - vm_compute. reflexivity.
Qed.

(** ** What every returned deposit looks like *)

Lemma normalizer_btc_fields state address tx d :
  Normalizer.btc state address tx = Js.Normal (Some d) →
  type d = "deposit" ∧ asset d = "btc" ∧ network d = "btc" ∧ to d = address
  ∧ confirmations d ≠ 0%Z ∧ from d ≠ "".
Proof.
  unfold Normalizer.btc.
  destruct (BtcService.outputs tx) as [outs|]; [|done]. cbv zeta.
  destruct (Nat.eqb _ 0); [done|].
  destruct (AddressService.getUserIdForAddress state address "btc")
    as [[u|]|e]; [|done|done].
  destruct (Js.truthy_string u); [|done].
  destruct (Js.toISOString _); [|done].
  destruct (BtcService.inputs tx) as [ins|]; [|done]. intros [= <-]. simpl.
  repeat split.
  - unfold Js.or_number. destruct (BtcService.tx_confirmations tx) as [n|]; [|done].
    destruct (Z.eqb n 0) eqn:E; [done|]. by apply Z.eqb_neq.
  - unfold BtcService.firstInputAddress, Js.or_string.
    destruct ins as [|i ins']; [done|].
    destruct (BtcService.i_addresses i) as [[|sender others]|]; try done.
    destruct (Js.truthy_string sender) eqn:E; [|done]. by destruct sender.
Qed.

Lemma normalizer_btcWs_fields state address price tx d :
  Normalizer.btcWs state address price tx = Js.Normal (Some d) →
  type d = "deposit" ∧ asset d = "btc" ∧ network d = "btc" ∧ to d = address
  ∧ confirmations d ≠ 0%Z ∧ from d ≠ "".
Proof.
  unfold Normalizer.btcWs.
  destruct (BtcService.outputs tx) as [outs|]; [|done]. cbv zeta.
  destruct (Nat.eqb _ 0); [done|].
  destruct (AddressService.getUserIdForAddress state address "btc")
    as [[u|]|e]; [|done|done].
  destruct (Js.truthy_string u); [|done].
  destruct (Js.toISOString _); [|done].
  destruct (BtcService.inputs tx) as [ins|]; [|done]. intros [= <-]. simpl.
  repeat split.
  - unfold Js.or_number. destruct (BtcService.tx_confirmations tx) as [n|]; [|done].
    destruct (Z.eqb n 0) eqn:E; [done|]. by apply Z.eqb_neq.
  - unfold BtcService.firstInputAddress, Js.or_string.
    destruct ins as [|i ins']; [done|].
    destruct (BtcService.i_addresses i) as [[|sender others]|]; try done.
    destruct (Js.truthy_string sender) eqn:E; [|done]. by destruct sender.
Qed.

Lemma normalizer_trc20_fields state address tx d :
  Normalizer.trc20_guard address tx = Js.Normal true →
  Normalizer.trc20 state address tx = Js.Normal (Some d) →
  type d = "deposit" ∧ asset d = "usdt" ∧ network d = "trc20" ∧ to d = address
  ∧ confirmations d ≠ 0%Z.
Proof.
  unfold Normalizer.trc20_guard, Normalizer.trc20.
  destruct (Trc20Service.token_info tx) as [info|]; [|done].
  intros [= Hg]. apply andb_true_iff in Hg as [_ Hto].
  apply String.eqb_eq in Hto.
  destruct (AddressService.getUserIdForAddress state address "trc20")
    as [[u|]|e]; [|done|done].
  destruct (Js.truthy_string u); [|done].
  destruct (Js.toISOString _); [|done]. intros [= <-]. simpl.
  repeat split; [done|].
  unfold Js.or_number. destruct (Trc20Service.tx_confirmations tx) as [n|]; [|done].
  destruct (Z.eqb n 0) eqn:E; [done|]. by apply Z.eqb_neq.
Qed.

Lemma normalizer_bep20_fields state address tx d :
  Normalizer.bep20_guard address tx = Js.Normal true →
  Normalizer.bep20 state address tx = Js.Normal (Some d) →
  type d = "deposit" ∧ asset d = "usdt" ∧ network d = "bep20"
  ∧ Js.toLowerCase (to d) = Js.toLowerCase address
  ∧ amount d = (inject_Z (Bep20Service.tx_value tx) / Bep20Service.weiPerUnit)%Q
  ∧ confirmations d = Bep20Service.tx_confirmations tx.
Proof.
  unfold Normalizer.bep20_guard, Normalizer.bep20.
  destruct (Bep20Service.contractAddress tx) as [contract|]; [|done].
  destruct (String.eqb (Js.toLowerCase contract) _); [|done].
  destruct (Bep20Service.tx_to tx) as [to_|]; [|done].
  intros [= Hto]. apply String.eqb_eq in Hto.
  destruct (AddressService.getUserIdForAddress state address "bep20")
    as [[u|]|e]; [|done|done].
  destruct (Js.truthy_string u); [|done].
  destruct (Js.toISOString _); [|done]. by intros [= <-].
Qed.

Lemma bep20_checkAddress_origin state address response s d :
  d ∈ (Bep20Service.checkAddress state address response s).1 →
  ∃ body tx, response = Js.Resolved body
             ∧ tx ∈ match Bep20Service.result body with Some l => l | None => [] end
             ∧ Normalizer.bep20_guard address tx = Js.Normal true
             ∧ Normalizer.bep20 state address tx = Js.Normal (Some d).
Proof.
  unfold Bep20Service.checkAddress.
  destruct response as [|body]; try (intros H; by apply elem_of_nil in H).
  destruct (negb (String.eqb (Bep20Service.status body) "1"));
    [intros H; by apply elem_of_nil in H|].
  cbv zeta. rewrite bep20_loop_scan. intros H. apply returned_elem in H.
  apply scan_origin in H as (tx & ? & ? & ? & _). by exists body, tx.
Qed.

Lemma trc20_checkAddress_guard state address response s d :
  d ∈ (Trc20Service.checkAddress state address response s).1 →
  ∃ tx, Normalizer.trc20_guard address tx = Js.Normal true
        ∧ Normalizer.trc20 state address tx = Js.Normal (Some d).
Proof.
  unfold Trc20Service.checkAddress.
  destruct response as [|[body|]]; try (intros H; by apply elem_of_nil in H).
  destruct (negb (Trc20Service.success body));
    [intros H; by apply elem_of_nil in H|].
  cbv zeta. rewrite trc20_loop_scan. intros H. apply returned_elem in H.
  apply scan_origin in H as (tx & ? & ? & ? & _). by exists tx.
Qed.

(** X3. Every deposit a polling [checkAddress] returns is of type
    ["deposit"], names its network and asset, is addressed to the address
    that was checked (up to case for BEP20) and carries a user the directory
    gives for that address, never an empty one.  The deposits of the BTC
    and TRC20 watchers never carry [confirmations = 0] (a missing or zero
    count is reported as 1), and a BTC deposit never an empty sender
    (["unknown"] stands in). *)
Theorem X3_returned_deposits_are_canonical :
  (∀ state address response s d,
     d ∈ (BtcService.checkAddress state address response s).1 →
     type d = "deposit" ∧ asset d = "btc" ∧ network d = "btc" ∧ to d = address
     ∧ confirmations d ≠ 0%Z ∧ from d ≠ ""
     ∧ AddressService.owns state address "btc" (userId d))
  ∧ (∀ state address response price s d,
       d ∈ (BtcServiceWs.checkAddress state address response price s).1 →
       type d = "deposit" ∧ asset d = "btc" ∧ network d = "btc" ∧ to d = address
       ∧ confirmations d ≠ 0%Z ∧ from d ≠ ""
       ∧ AddressService.owns state address "btc" (userId d))
  ∧ (∀ state address response s d,
       d ∈ (Trc20Service.checkAddress state address response s).1 →
       type d = "deposit" ∧ asset d = "usdt" ∧ network d = "trc20"
       ∧ to d = address ∧ confirmations d ≠ 0%Z
       ∧ AddressService.owns state address "trc20" (userId d))
  ∧ (∀ state address response s d,
       d ∈ (Bep20Service.checkAddress state address response s).1 →
       type d = "deposit" ∧ asset d = "usdt" ∧ network d = "bep20"
       ∧ Js.toLowerCase (to d) = Js.toLowerCase address
       ∧ AddressService.owns state address "bep20" (userId d)).
Proof.
  split; [|split; [|split]].
  - intros state address response s d Hd.
    apply btc_checkAddress_origin in Hd as (txs & tx & _ & _ & Hsel).
    destruct (normalizer_btc_fields _ _ _ _ Hsel) as (? & ? & ? & ? & ? & ?).
    repeat split; try done; by apply (normalizer_btc_owner _ _ _ _ Hsel).
  - intros state address response price s d Hd.
    apply btcWs_checkAddress_origin in Hd as (txs & tx & _ & _ & Hsel).
    destruct (normalizer_btcWs_fields _ _ _ _ _ Hsel) as (? & ? & ? & ? & ? & ?).
    repeat split; try done; by apply (normalizer_btcWs_owner _ _ _ _ _ Hsel).
  - intros state address response s d Hd.
    apply trc20_checkAddress_guard in Hd as (tx & Hg & Hsel).
    destruct (normalizer_trc20_fields _ _ _ _ Hg Hsel) as (? & ? & ? & ? & ?).
    repeat split; try done; by apply (normalizer_trc20_owner _ _ _ _ Hsel).
  - intros state address response s d Hd.
    apply bep20_checkAddress_origin in Hd as (body & tx & _ & _ & Hg & Hsel).
    destruct (normalizer_bep20_fields _ _ _ _ Hg Hsel) as (? & ? & ? & ? & _).
    repeat split; try done; by apply (normalizer_bep20_owner _ _ _ _ Hsel).
Qed.

(** ** BEP20 amounts *)

Lemma weiPerUnit_quotient : (Bep20Service.weiPerUnit == Js.pow10 18)%Q.
Proof. vm_compute. reflexivity. Qed.

(** X4. The amount of a BEP20 deposit is the raw value over 10^18, on the
    polling path and on the push path alike, whatever the token's own
    decimals; a polled deposit carries the hash and the confirmation count
    of a transaction of the provider's answer. *)
Theorem X4_bep20_amount :
  (∀ state address response s d,
     d ∈ (Bep20Service.checkAddress state address response s).1 →
     ∃ body tx, response = Js.Resolved body
       ∧ tx ∈ match Bep20Service.result body with Some l => l | None => [] end
       ∧ txHash d = Bep20Service.hash tx
       ∧ (amount d == inject_Z (Bep20Service.tx_value tx) / Js.pow10 18)%Q
       ∧ confirmations d = Bep20Service.tx_confirmations tx)
  ∧ (∀ state now tx s d,
       d ∈ (Bep20Service.processRealTimeTransaction state now tx s).1 →
       (amount d == inject_Z (Bep20Service.e_value tx) / Js.pow10 18)%Q
       ∧ Bep20Service.e_to tx = Some (to d)).
Proof.
  split.
  - intros state address response s d Hd.
    apply bep20_checkAddress_origin in Hd as (body & tx & -> & Hin & Hg & Hsel).
    destruct (normalizer_bep20_fields _ _ _ _ Hg Hsel)
      as (_ & _ & _ & _ & Ha & Hc).
    exists body, tx. repeat split; try done.
    + by eapply normalizer_bep20_key.
    + rewrite Ha. by rewrite weiPerUnit_quotient.
  - intros state now tx s d. unfold Bep20Service.processRealTimeTransaction.
    repeat (case_match; try (intros Hd; by apply elem_of_nil in Hd)).
    intros Hd. apply list_elem_of_singleton in Hd. subst d. simpl.
    split; [by rewrite weiPerUnit_quotient|done].
Qed.

(** ** The owner lookup *)





(** * Further properties of the directory and the cycle *)

Section MissingLists.
Context (P : Cycle.Providers).

Lemma checkAllAddresses_missing check pick w :
  pick (AddressService.getAddresses (Cycle.directory w)) = None →
  Cycle.checkAllAddresses check pick w = ([], w).
Proof.
  intros E. unfold Cycle.checkAllAddresses, Cycle.bind, Cycle.getDirectory,
    Cycle.ret. by rewrite E.
Qed.

Lemma checkAllAddresses_empty check pick w :
  Cycle.listed (pick (AddressService.getAddresses (Cycle.directory w))) = [] →
  Cycle.checkAllAddresses check pick w = ([], w).
Proof.
  unfold Cycle.checkAllAddresses, Cycle.bind, Cycle.getDirectory, Cycle.ret,
    Cycle.listed.
  destruct (pick _) as [l|]; [|done]. by intros ->.
Qed.

(** X6. A refresh that returns [false] and yet changed the directory has
    left it without one of the three address lists.  A watcher whose list
    is missing goes through no address: its [checkAllAddresses] sends no
    request, returns nothing and changes nothing, whatever the providers
    would answer.  A whole cycle over a directory whose lists are all
    missing or empty sends nothing, posts nothing and returns nothing. *)
Theorem X6_missing_list_silences_watcher :
  (∀ response state,
     (AddressService.fetchAddresses response state).1 = false →
     (AddressService.fetchAddresses response state).2 ≠ state →
     AddressService.bep20
       (AddressService.getAddresses (AddressService.fetchAddresses response state).2)
     = None
     ∨ AddressService.trc20
         (AddressService.getAddresses (AddressService.fetchAddresses response state).2)
       = None
     ∨ AddressService.btc
         (AddressService.getAddresses (AddressService.fetchAddresses response state).2)
       = None)
  ∧ (∀ w,
       AddressService.bep20 (AddressService.getAddresses (Cycle.directory w)) = None →
       Cycle.bep20_checkAllAddresses P w = ([], w))
  ∧ (∀ w,
       AddressService.trc20 (AddressService.getAddresses (Cycle.directory w)) = None →
       Cycle.trc20_checkAllAddresses P w = ([], w))
  ∧ (∀ w,
       AddressService.btc (AddressService.getAddresses (Cycle.directory w)) = None →
       Cycle.btc_checkAllAddresses P w = ([], w))
  ∧ (∀ w,
       Cycle.listed
         (AddressService.bep20 (AddressService.getAddresses (Cycle.directory w))) = [] →
       Cycle.listed
         (AddressService.trc20 (AddressService.getAddresses (Cycle.directory w))) = [] →
       Cycle.listed
         (AddressService.btc (AddressService.getAddresses (Cycle.directory w))) = [] →
       Cycle.checkDeposits P w = ([], w)).
Proof.
  split; [|split; [|split; [|split]]].
  - intros response state. destruct response as [|body]; simpl; [done|].
    destruct (AddressService.success body); simpl; [|done].
    destruct (AddressService.data body) as [d|]; [|done].
    destruct (AddressService.grouped d) as [g|]; [|done].
    destruct (AddressService.bep20Addresses g); simpl; [|by left].
    destruct (AddressService.trc20Addresses g); simpl; [|by right; left].
    destruct (AddressService.btcAddresses g); simpl; [done|by right; right].
  - intros w. apply checkAllAddresses_missing.
  - intros w. apply checkAllAddresses_missing.
  - intros w. apply checkAllAddresses_missing.
  - intros w H1 H2 H3. unfold Cycle.checkDeposits, Cycle.bind,
      Cycle.bep20_checkAllAddresses, Cycle.trc20_checkAllAddresses,
      Cycle.btc_checkAllAddresses.
    rewrite (checkAllAddresses_empty _ AddressService.bep20 w H1).
    rewrite (checkAllAddresses_empty _ AddressService.trc20 w H2).
    by rewrite (checkAllAddresses_empty _ AddressService.btc w H3).
Qed.

End MissingLists.

(** * Further properties of timers and sockets *)

Section LifecycleMore.
Import Runtime Lifecycle.

Lemma filter_tracked_at_most_one {A} (key : A → nat) (f : A → bool)
    (o : option nat) (l : list A) :
  NoDup (map key l) →
  (∀ t, t ∈ l → f t = true → o = Some (key t)) →
  (List.length (List.filter f l) ≤ 1)%nat.
Proof.
  induction l as [|t l IH]; intros Hnd Hh; simpl; [lia|].
  simpl in Hnd. apply NoDup_cons in Hnd as [Hnotin Hnd].
  destruct (f t) eqn:E.
  - simpl. assert (List.filter f l = []) as ->; [|simpl; lia].
    clear IH. induction l as [|t' l IH]; simpl; [done|].
    destruct (f t') eqn:E'.
    + exfalso. apply Hnotin.
      pose proof (Hh t ltac:(by left) E) as H1.
      pose proof (Hh t' ltac:(right; by left) E') as H2.
      assert (key t = key t') as -> by congruence. simpl. by left.
    + apply IH.
      * intros Hin. apply Hnotin. simpl. by right.
      * by apply NoDup_cons in Hnd as [_ Hnd].
      * intros t0 Hin. apply elem_of_cons in Hin as [->|Hin];
          [apply Hh; by left|apply Hh; right; by right].
  - apply IH; [done|]. intros t0 Hin. apply Hh. by right.
Qed.

(** X7. Over every run of the process at most one quick-poll interval is
    scheduled, however often the TRC20 service is initialised again, and it
    is the one [quickPollInterval] holds: [startRealTimeMonitoring] cancels
    the interval it holds before it schedules the next. *)
Theorem X7_one_quick_poll env events :
  (List.length (quickPolls (run env events Lifecycle.initial)) ≤ 1)%nat
  ∧ (∀ t, t ∈ quickPolls (run env events Lifecycle.initial) →
          quickPollInterval (run env events Lifecycle.initial)
          = Some (handle t)).
Proof.
  pose proof (run_wellFormed env events _ wellFormed_initial) as Hwf.
  pose proof (quickTracked_reachable env events) as Hq.
  set (p := run env events Lifecycle.initial) in *.
  split.
  - unfold quickPolls. destruct Hwf as (Hnd & _).
    apply (filter_tracked_at_most_one handle _ (quickPollInterval p)); [done|].
    intros t Hin Hcb. apply bool_decide_eq_true in Hcb. by apply Hq.
  - intros t Hin. unfold quickPolls in Hin.
    apply list_elem_of_In, List.filter_In in Hin as [Hin Hcb].
    apply bool_decide_eq_true in Hcb. apply Hq; [by apply list_elem_of_In|done].
Qed.

Lemma sockets_clearIfSet o rt : sockets (Runtime.clearIfSet o rt) = sockets rt.
Proof. by destruct o. Qed.

Lemma elem_of_sockets_dropIfSet o rt s :
  s ∈ sockets (Runtime.dropIfSet o rt) ↔ s ∈ sockets rt ∧ Some (socket s) ≠ o.
Proof.
  destruct o as [c|]; simpl.
  - rewrite !list_elem_of_In, List.filter_In, negb_true_iff, Nat.eqb_neq.
    split; intros [? ?]; split; congruence.
  - split; [by intros ?|by intros [? _]].
Qed.

Lemma NoDup_sockets_dropIfSet o rt :
  NoDup (map socket (sockets rt)) →
  NoDup (map socket (sockets (Runtime.dropIfSet o rt))).
Proof.
  destruct o as [c|]; simpl; [|done].
  induction (sockets rt) as [|s l IH]; simpl; [done|].
  intros [Hnotin Hnd]%NoDup_cons.
  destruct (negb (Nat.eqb (socket s) c)); simpl; [|by apply IH].
  apply NoDup_cons. split; [|by apply IH].
  intros Hin. apply Hnotin.
  apply list_elem_of_fmap in Hin as (s' & -> & Hin).
  apply list_elem_of_In, List.filter_In in Hin as [Hin _].
  apply list_elem_of_fmap. exists s'. by rewrite list_elem_of_In.
Qed.

(** A step that opens no socket and assigns no [wsConnection]. *)
Lemma socketsTracked_kept p q :
  socketsTracked p →
  (∀ s, s ∈ sockets (runtime q) → s ∈ sockets (runtime p)) →
  NoDup (map socket (sockets (runtime q))) →
  (next (runtime p) ≤ next (runtime q))%nat →
  (∀ svc, wsConnection (channel svc q) = wsConnection (channel svc p)) →
  socketsTracked q.
Proof.
  intros (Hnd & Hlt & Htr) Hsub Hnd' Hn Hch. split; [done|]. split.
  - intros s Hin. specialize (Hlt s (Hsub s Hin)). lia.
  - intros s Hin. rewrite Hch. by apply Htr, Hsub.
Qed.

Lemma wsConnection_withChannel svc svc' ch rt p :
  wsConnection ch = wsConnection (channel svc' p) →
  wsConnection (channel svc (withChannel svc' ch rt p))
  = wsConnection (channel svc p).
Proof. intros E. by destruct svc, svc'. Qed.

Lemma socketsTracked_reconnectWebSocket svc p :
  socketsTracked p → socketsTracked (reconnectWebSocket svc p).
Proof.
  intros Hs. apply (socketsTracked_kept p); [done| | | |];
    unfold reconnectWebSocket, Runtime.setTimeout, Runtime.schedule;
    cbv zeta beta iota; rewrite ?runtime_withChannel; simpl;
    rewrite ?sockets_clearIfSet, ?next_clearIfSet.
  - done.
  - by destruct Hs.
  - lia.
  - intros svc'. by apply wsConnection_withChannel.
Qed.

(** What [startWebSocketMonitoring] leaves of the sockets: none of the
    service, and of the others what there was. *)
Lemma sockets_after_terminate svc p s :
  socketsTracked p →
  s ∈ sockets (Runtime.clearIfSet (wsReconnectTimeout (channel svc p))
                 (Runtime.dropIfSet (wsConnection (channel svc p)) (runtime p))) →
  s ∈ sockets (runtime p) ∧ owner s ≠ svc.
Proof.
  intros (_ & _ & Htr). rewrite sockets_clearIfSet, elem_of_sockets_dropIfSet.
  intros [Hin Hne]. split; [done|]. intros <-. by rewrite (Htr s Hin) in Hne.
Qed.

Lemma terminated_channel svc p :
  wsConnection
    match wsReconnectTimeout (channel svc p) with
    | Some _ => {| wsConnection := wsConnection (channel svc p);
                   wsReconnectTimeout := None |}
    | None => channel svc p
    end
  = wsConnection (channel svc p).
Proof. by destruct (wsReconnectTimeout (channel svc p)). Qed.

Lemma socketsTracked_startWebSocketMonitoring env throws svc p :
  socketsTracked p → socketsTracked (startWebSocketMonitoring env throws svc p).
Proof.
  intros Hs. pose proof Hs as (Hnd & Hlt & Htr).
  pose proof (sockets_after_terminate svc p) as Hafter.
  assert (socketsTracked
            (withChannel svc
               match wsReconnectTimeout (channel svc p) with
               | Some _ => {| wsConnection := wsConnection (channel svc p);
                              wsReconnectTimeout := None |}
               | None => channel svc p
               end
               (Runtime.clearIfSet (wsReconnectTimeout (channel svc p))
                  (Runtime.dropIfSet (wsConnection (channel svc p)) (runtime p)))
               p)) as Hquiet.
  { apply (socketsTracked_kept p); [done| | | |]; rewrite ?runtime_withChannel.
    - intros s Hin. by apply Hafter.
    - rewrite sockets_clearIfSet. by apply NoDup_sockets_dropIfSet.
    - by rewrite next_clearIfSet, next_dropIfSet.
    - intros svc'. apply wsConnection_withChannel, terminated_channel. }
  unfold startWebSocketMonitoring. cbv zeta.
  destruct (opensSocket env svc); [destruct throws|]; [|clear Hquiet|done].
  - by apply socketsTracked_reconnectWebSocket.
  - unfold Runtime.connect. cbv beta iota zeta.
    rewrite next_clearIfSet, next_dropIfSet.
    split; [|split]; rewrite runtime_withChannel; simpl.
    + rewrite map_app. simpl. apply NoDup_app. split; [|split].
      * rewrite sockets_clearIfSet. by apply NoDup_sockets_dropIfSet.
      * intros c Hin Hc. apply list_elem_of_singleton in Hc as ->.
        apply list_elem_of_fmap in Hin as (s & Hc & Hin).
        apply Hafter in Hin as [Hin _]; [|done]. specialize (Hlt s Hin). lia.
      * apply NoDup_singleton.
    + intros s. rewrite elem_of_app, list_elem_of_singleton.
      intros [Hin| ->]; [|simpl; lia].
      apply Hafter in Hin as [Hin _]; [|done]. specialize (Hlt s Hin). lia.
    + intros s. rewrite elem_of_app, list_elem_of_singleton.
      intros [Hin| ->].
      * apply Hafter in Hin as [Hin Hne]; [|done].
        rewrite channel_withChannel, decide_False by done. by apply Htr.
      * simpl. by rewrite channel_withChannel, decide_True.
Qed.

Lemma socketsTracked_withRuntime rt p :
  socketsTracked p →
  (∀ s, s ∈ sockets rt → s ∈ sockets (runtime p)) →
  NoDup (map socket (sockets rt)) →
  (next (runtime p) ≤ next rt)%nat →
  socketsTracked (withRuntime rt p).
Proof.
  intros Hs Hsub Hnd Hn. by apply (socketsTracked_kept p).
Qed.

Lemma socketsTracked_step env e p :
  socketsTracked p → socketsTracked (step env e p).
Proof.
  intros Hs. pose proof Hs as (Hnd & Hlt & Htr). destruct e; simpl.
  - apply (socketsTracked_kept p); try done;
      unfold startMonitoring, Runtime.setInterval, Runtime.schedule;
      cbv zeta beta iota; simpl; first [done | lia | by intros []].
  - apply (socketsTracked_kept p); try done;
      unfold stopMonitoring, callIfFunction, bep20Service_stop,
        trc20Service_stop, btcService_stop, trc20_stop, trc20_clearQuickPoll,
        clearAddressRefreshInterval, clearMonitoringInterval; cbv zeta;
      destruct (monitoringInterval p), (addressRefreshInterval p),
        (quickPollInterval p) eqn:E3; simpl; rewrite ?E3; simpl;
        first [done | lia | by intros []].
  - by apply socketsTracked_startWebSocketMonitoring.
  - apply (socketsTracked_kept p); try done;
      unfold trc20_startRealTimeMonitoring, trc20_clearQuickPoll,
        Runtime.setInterval, Runtime.schedule; cbv zeta beta iota;
      destruct (quickPollInterval p), (Js.truthy (TRONGRID_API_KEY env));
        simpl; first [done | lia | by intros []].
  - by apply socketsTracked_reconnectWebSocket.
  - apply socketsTracked_reconnectWebSocket, socketsTracked_withRuntime;
      [done| | |done].
    + intros s Hin. by apply (elem_of_sockets_dropIfSet (Some c)) in Hin as [? _].
    + by apply (NoDup_sockets_dropIfSet (Some c)).
  - unfold fire. destruct (Runtime.lookup h (runtime p)) as [t|]; [|done].
    assert (socketsTracked (if repeats t then p
                            else withRuntime (Runtime.clear h (runtime p)) p))
      as Hs1.
    { destruct (repeats t); [done|]. by apply socketsTracked_withRuntime. }
    destruct (callback t); try done.
    by apply socketsTracked_startWebSocketMonitoring.
Qed.

Lemma socketsTracked_run env events : ∀ p,
  socketsTracked p → socketsTracked (run env events p).
Proof.
  induction events as [|e rest IH]; intros p Hs; [done|].
  apply IH. by apply socketsTracked_step.
Qed.

Lemma socketsTracked_initial : socketsTracked Lifecycle.initial.
Proof.
  split; [constructor|].
  split; intros s Hin; by apply elem_of_nil in Hin.
Qed.

Lemma openSockets_elem svc p s :
  s ∈ openSockets svc p ↔ s ∈ sockets (runtime p) ∧ owner s = svc.
Proof.
  unfold openSockets. rewrite !list_elem_of_In, List.filter_In.
  by rewrite bool_decide_eq_true.
Qed.

(** X8. Over every run of the process each service has at most one socket
    open, the one its [wsConnection] holds: a connection is terminated
    before the next one is opened, and [stopMonitoring], which closes none,
    opens none either. *)
Theorem X8_one_open_socket env events svc :
  (List.length (openSockets svc (run env events Lifecycle.initial)) ≤ 1)%nat
  ∧ (∀ s, s ∈ openSockets svc (run env events Lifecycle.initial) →
          wsConnection (channel svc (run env events Lifecycle.initial))
          = Some (socket s))
  ∧ openSockets svc (stopMonitoring (run env events Lifecycle.initial))
    = openSockets svc (run env events Lifecycle.initial).
Proof.
  pose proof (socketsTracked_run env events _ socketsTracked_initial)
    as (Hnd & _ & Htr).
  set (p := run env events Lifecycle.initial) in *.
  split; [|split].
  - unfold openSockets.
    apply (filter_tracked_at_most_one socket _ (wsConnection (channel svc p)));
      [done|].
    intros s Hin Ho. apply bool_decide_eq_true in Ho. subst svc. by apply Htr.
  - intros s [Hin <-]%openSockets_elem. by apply Htr.
  - unfold openSockets, stopMonitoring, callIfFunction, bep20Service_stop,
      trc20Service_stop, btcService_stop, trc20_stop, trc20_clearQuickPoll,
      clearAddressRefreshInterval, clearMonitoringInterval. cbv zeta.
    destruct (monitoringInterval p), (addressRefreshInterval p),
      (quickPollInterval p) eqn:E3; simpl; rewrite ?E3; done.
Qed.

(** X9. The [close] and [error] handlers do not look at the socket they
    belong to.  In every reachable process, whatever socket of a service
    reports that it closed -- also one that was replaced long ago -- the
    service schedules a reconnect, and when that timer is due the
    connection the service holds is terminated and a new one is opened in
    its place. *)
Theorem X9_any_close_replaces_the_connection env events svc c :
  let p := run env events Lifecycle.initial in
  let p1 := step env (SocketClose svc c) p in
  let p2 := step env (Fire (next (runtime p)) false) p1 in
  wsReconnectTimeout (channel svc p1) = Some (next (runtime p))
  ∧ (opensSocket env svc = true →
     wsConnection (channel svc p2) = Some (S (next (runtime p)))
     ∧ openSockets svc p2
       = [{| socket := S (next (runtime p)); owner := svc |}]
     ∧ ∀ s, s ∈ openSockets svc p → s ∉ openSockets svc p2).
Proof.
  intros p p1 p2.
  pose proof (run_wellFormed env events _ wellFormed_initial) as Hwf.
  pose proof (socketsTracked_run env events _ socketsTracked_initial) as Hs.
  fold p in Hwf, Hs.
  set (q := withRuntime (Runtime.drop c (runtime p)) p).
  assert (wellFormed q) as Hwfq by by apply withRuntime_drop_wellFormed.
  assert (socketsTracked q) as Hsq.
  { apply socketsTracked_withRuntime; [done| | |done].
    - intros s Hin. by apply (elem_of_sockets_dropIfSet (Some c)) in Hin as [? _].
    - apply (NoDup_sockets_dropIfSet (Some c)). by destruct Hs. }
  assert (p1 = reconnectWebSocket svc q) as Hp1 by done.
  destruct (reconnectWebSocket_pending svc q Hwfq) as [Hpend Hvar].
  change (next (runtime q)) with (next (runtime p)) in Hpend, Hvar.
  split; [by rewrite Hp1|]. intros Hopen.
  pose proof (reconnectWebSocket_wellFormed svc q Hwfq) as Hwf1.
  pose proof (socketsTracked_reconnectWebSocket svc q Hsq) as Hs1.
  rewrite <- Hp1 in Hpend, Hvar, Hwf1, Hs1.
  assert (p2 = startWebSocketMonitoring env false svc
                 (withRuntime (Runtime.clear (next (runtime p)) (runtime p1)) p1))
    as Hp2.
  { pose proof (lookup_unique p1
                  {| handle := next (runtime p); callback := Reconnect svc;
                     delay := WS_RECONNECT_DELAY; repeats := false |} Hwf1)
      as Hl.
    cbn [handle] in Hl.
    unfold p2. cbn [step]. unfold fire. rewrite Hl; [done|].
    apply (pending_elem svc). rewrite Hpend. by left. }
  set (r := withRuntime (Runtime.clear (next (runtime p)) (runtime p1)) p1) in *.
  assert (socketsTracked r) as Hsr.
  { apply socketsTracked_withRuntime; [done|done| |done]. by destruct Hs1. }
  assert (next (runtime r) = S (next (runtime p))) as Hnext.
  { unfold r. simpl. rewrite Hp1. unfold reconnectWebSocket, Runtime.setTimeout,
      Runtime.schedule. cbv zeta beta iota. rewrite runtime_withChannel. simpl.
    by rewrite next_clearIfSet. }
  assert (wsConnection (channel svc p2) = Some (S (next (runtime p)))
          ∧ ∀ s, s ∈ sockets (runtime p2) ↔
                 (s ∈ sockets (Runtime.clearIfSet (wsReconnectTimeout (channel svc r))
                                 (Runtime.dropIfSet (wsConnection (channel svc r))
                                    (runtime r)))
                  ∨ s = {| socket := S (next (runtime p)); owner := svc |}))
    as [Hconn Hsock].
  { rewrite Hp2. unfold startWebSocketMonitoring. cbv zeta. rewrite Hopen.
    unfold Runtime.connect. cbv beta iota zeta.
    rewrite runtime_withChannel, channel_withChannel, decide_True by done.
    rewrite next_clearIfSet, next_dropIfSet, Hnext. simpl. split; [done|].
    intros s. by rewrite elem_of_app, list_elem_of_singleton. }
  split; [done|].
  pose proof (socketsTracked_startWebSocketMonitoring env false svc r Hsr)
    as Hs2. rewrite <- Hp2 in Hs2.
  assert (∀ s, s ∈ openSockets svc p2 ↔
               s = {| socket := S (next (runtime p)); owner := svc |}) as Honly.
  { intros s. rewrite openSockets_elem, Hsock. split.
    - intros [[Hin| ->] Ho]; [|done].
      apply sockets_after_terminate in Hin as [_ Hne]; done.
    - intros ->. split; [by right|done]. }
  split.
  - assert (List.length (openSockets svc p2) ≤ 1)%nat as Hlen.
    { unfold openSockets. destruct Hs2 as (Hnd2 & _ & Htr2).
      apply (filter_tracked_at_most_one socket _ (wsConnection (channel svc p2)));
        [done|].
      intros s Hin Ho. apply bool_decide_eq_true in Ho. subst svc.
      by apply Htr2. }
    assert ({| socket := S (next (runtime p)); owner := svc |}
            ∈ openSockets svc p2) as Hnew by by apply Honly.
    destruct (openSockets svc p2) as [|s1 [|s2 l]].
    + by apply elem_of_nil in Hnew.
    + apply list_elem_of_singleton in Hnew. by subst s1.
    + simpl in Hlen. lia.
  - intros s Hin Hin2. apply Honly in Hin2 as ->.
    apply openSockets_elem in Hin as [Hin _].
    destruct Hs as (_ & Hlt & _). specialize (Hlt _ Hin). simpl in Hlt. lia.
Qed.

End LifecycleMore.

(** ** Push frames and single-address routes *)

Lemma world_eta (w : Cycle.World) :
  {| Cycle.directory := Cycle.directory w;
     Cycle.bep20Processed := Cycle.bep20Processed w;
     Cycle.trc20Processed := Cycle.trc20Processed w;
     Cycle.btcProcessed := Cycle.btcProcessed w;
     Cycle.requests := Cycle.requests w |} = w.
Proof. by destruct w. Qed.

(** X10.  A frame of the BTC channel, whatever it carries, leaves the
    process as it was: nothing is recorded and nothing is posted. *)
Theorem X10_btc_frames_change_nothing now data w :
  Push.btc_onMessage now data w = (tt, w).
Proof.
  unfold Push.btc_onMessage. destruct data as [message|]; [|done].
  destruct (Push.announces message); [|done].
  destruct (Push.x message) as [tx|]; [|done].
  unfold Cycle.bind, Cycle.getDirectory, Cycle.onBtc.
  rewrite btcWs_push_nothing. simpl. by rewrite world_eta.
Qed.

Lemma neverPolled_bep20 h (s : gset string) :
  h ∈ s → Push.neverPolled "bep20" h s.
Proof.
  intros Hh s' Hsub. simpl. intros state address response d Hd E.
  destruct (bep20_checkAddress_dedups state address response s') as (_ & Hf & _).
  apply (Hf d Hd). rewrite E. by apply Hsub.
Qed.


(** What [onBep20] leaves of the world when it runs the push handler. *)
Lemma onBep20_push state now tx w d :
  d ∈ (Bep20Service.processRealTimeTransaction state now tx
         (Cycle.bep20Processed w)).1 →
  Push.recordedUnposted "bep20" d w
    (Cycle.onBep20 (Bep20Service.processRealTimeTransaction state now tx) w).2.
Proof.
  intros Hd.
  destruct (bep20_push_dedups state now tx (Cycle.bep20Processed w))
    as (_ & Hf & Hs).
  unfold Cycle.onBep20.
  destruct (Bep20Service.processRealTimeTransaction state now tx
              (Cycle.bep20Processed w)) as [ds s] eqn:E.
  simpl in *.
  assert (txHash d ∈ s) as Hin.
  { apply Hs, elem_of_union_l, elem_of_list_to_set, list_elem_of_fmap.
    by exists d. }
  split; [by apply Hf|]. split; [done|]. split; [done|].
  by apply neverPolled_bep20.
Qed.

Lemma moralis_world now data w :
  (Push.moralis_onMessage now data w).2 = w
  ∨ ∃ ev, (Push.moralis_onMessage now data w).2
          = (Cycle.onBep20
               (Bep20Service.processRealTimeTransaction (Cycle.directory w) now ev)
               w).2.
Proof.
  unfold Push.moralis_onMessage, Cycle.bind, Cycle.getDirectory, Cycle.ret.
  destruct data as [ev|]; [|by left].
  destruct (AddressService.bep20 _) as [addresses|]; [|by left].
  destruct (Bep20Service.e_to ev) as [to_|]; [|by left].
  destruct (Js.includes _ _); [|by left].
  right. exists ev. by destruct (Cycle.onBep20 _ w).
Qed.

Lemma bscscan_world now data w :
  (Push.bscscan_onMessage now data w).2 = w
  ∨ ∃ ev, (Push.bscscan_onMessage now data w).2
          = (Cycle.onBep20
               (Bep20Service.processRealTimeTransaction (Cycle.directory w) now ev)
               w).2.
Proof.
  unfold Push.bscscan_onMessage, Cycle.bind, Cycle.getDirectory, Cycle.ret.
  destruct data as [ev|]; [|by left].
  destruct (Js.truthy_string _); [|by left].
  right. exists ev. by destruct (Cycle.onBep20 _ w).
Qed.

(** X11.  A BEP20 transfer announced on the push channel -- by Moralis for
    a watched address, or by BscScan with a hash -- for which the handler
    builds a deposit is recorded as processed, nothing is posted for it,
    and no later poll returns it.  Neither handler ever sends a request or
    touches the directory or the other watchers' sets. *)
Theorem X11_pushed_bep20_transfer_is_never_posted now tx w :
  let moralis := (Push.moralis_onMessage now (Some tx) w).2 in
  let bscscan := (Push.bscscan_onMessage now (Some tx) w).2 in
  let pushed :=
    (Bep20Service.processRealTimeTransaction (Cycle.directory w) now tx
       (Cycle.bep20Processed w)).1 in
  (∀ data w', w' = (Push.moralis_onMessage now data w).2
              ∨ w' = (Push.bscscan_onMessage now data w).2 →
     Cycle.requests w' = Cycle.requests w
     ∧ Cycle.directory w' = Cycle.directory w
     ∧ Cycle.trc20Processed w' = Cycle.trc20Processed w
     ∧ Cycle.btcProcessed w' = Cycle.btcProcessed w
     ∧ Cycle.bep20Processed w ⊆ Cycle.bep20Processed w')
  ∧ (∀ addresses to_ d,
       AddressService.bep20 (AddressService.getAddresses (Cycle.directory w))
       = Some addresses →
       Bep20Service.e_to tx = Some to_ →
       Js.includes addresses (Js.toLowerCase to_) = true →
       d ∈ pushed →
       Push.recordedUnposted "bep20" d w moralis)
  ∧ (∀ d,
       Js.truthy_string (Bep20Service.e_hash tx) = true →
       d ∈ pushed →
       Push.recordedUnposted "bep20" d w bscscan).
Proof.
  cbv zeta. split; [|split].
  - assert (∀ state ev,
      let w' := (Cycle.onBep20
                   (Bep20Service.processRealTimeTransaction state now ev) w).2 in
      Cycle.requests w' = Cycle.requests w
      ∧ Cycle.directory w' = Cycle.directory w
      ∧ Cycle.trc20Processed w' = Cycle.trc20Processed w
      ∧ Cycle.btcProcessed w' = Cycle.btcProcessed w
      ∧ Cycle.bep20Processed w ⊆ Cycle.bep20Processed w') as Hon.
    { intros state ev. cbv zeta.
      destruct (bep20_push_dedups state now ev (Cycle.bep20Processed w))
        as (_ & _ & Hs).
      unfold Cycle.onBep20.
      destruct (Bep20Service.processRealTimeTransaction state now ev
                  (Cycle.bep20Processed w)) as [ds s].
      simpl in *. repeat split; try done. set_solver. }
    assert (∀ w', w' = w →
      Cycle.requests w' = Cycle.requests w
      ∧ Cycle.directory w' = Cycle.directory w
      ∧ Cycle.trc20Processed w' = Cycle.trc20Processed w
      ∧ Cycle.btcProcessed w' = Cycle.btcProcessed w
      ∧ Cycle.bep20Processed w ⊆ Cycle.bep20Processed w') as Hid
      by by intros ? ->.
    intros data w' [-> | ->].
    + destruct (moralis_world now data w) as [-> | [ev ->]];
        [by apply Hid|apply Hon].
    + destruct (bscscan_world now data w) as [-> | [ev ->]];
        [by apply Hid|apply Hon].
  - intros addresses to_ d Ha Ht Hi Hd.
    pose proof (onBep20_push _ _ _ _ _ Hd) as H.
    unfold Push.moralis_onMessage, Cycle.bind, Cycle.getDirectory, Cycle.ret.
    rewrite Ha, Ht, Hi.
    by destruct (Cycle.onBep20 _ w).
  - intros d Hh Hd.
    pose proof (onBep20_push _ _ _ _ _ Hd) as H.
    unfold Push.bscscan_onMessage. rewrite Hh.
    unfold Cycle.bind, Cycle.getDirectory, Cycle.ret.
    by destruct (Cycle.onBep20 _ w).
Qed.

(** A transfer to Alice announced by Moralis at instant 5: her deposit is
    built, the hash is in the set afterwards, and no request was sent. *)
Example moralis_drops_T3 :
  (Bep20Service.processRealTimeTransaction Scenario.owned 5 Scenario.T3_pushed ∅).1
  = [Expected.T3_pushed]
  ∧ Cycle.requests
      (Push.moralis_onMessage 5 (Some Scenario.T3_pushed) Scenario.world).2 = []
  ∧ "T3" ∈ Cycle.bep20Processed
             (Push.moralis_onMessage 5 (Some Scenario.T3_pushed) Scenario.world).2
  ∧ (Cycle.bep20_checkAddress Scenario.providers "0xabc1"
       (Push.moralis_onMessage 5 (Some Scenario.T3_pushed) Scenario.world).2).1
    = [].
Proof.
  split; [by vm_compute|]. split; [by vm_compute|].
  split; [refine (bool_decide_unpack _ _); vm_compute; exact I|].
  by vm_compute.
Qed.

Section Routes.
Variable P : Cycle.Providers.


End Routes.
